(** * ctx7: the file cache (package cache)

  A shallow embedding of the cache manager of ctx7 (the Go package
  [cache]) together with the part of the operating-system interface
  it relies on, and the properties of the entry store, the catalog
  scanner, the statistics and the retention engine. *)

From Stdlib Require Import ZArith Ascii String List Lia Permutation.
From Stdlib Require OrderedTypeEx.
From stdpp Require Import base option list gmap fin_maps strings sorting.

Local Open Scope string_scope.
Local Open Scope list_scope.

(** ** Strings and paths *)

Module Str.

Definition slash : ascii := "/"%char.

(** [strings.TrimPrefix(s, "/")]. *)
Definition trimPrefixSlash (s : string) : string :=
  match s with
  | String c r => if Ascii.eqb c slash then r else s
  | EmptyString => s
  end.

(** [strings.Split(s, "/")]: the pieces between the separators; the
    result is never empty, and the empty string yields one empty piece. *)
Fixpoint splitSlash (s : string) : list string :=
  match s with
  | EmptyString => [EmptyString]
  | String c r =>
      if Ascii.eqb c slash then EmptyString :: splitSlash r
      else match splitSlash r with
           | h :: t => String c h :: t
           | [] => [String c EmptyString]
           end
  end.

(** Go compares strings byte by byte. *)
Definition ltb (a b : string) : bool := String.ltb a b.

End Str.

(** A path is absolute and clean: the list of its segments below the
  root directory.  [filepath.Join] joins its non-empty elements with
  the separator and cleans the result; below an absolute, clean base
  this is the walk over the segments of the elements in which empty
  segments and ["."] are dropped and [".."] goes one level up (and
  stays at the root). *)
Abbreviation path := (list string).

Module Path.

Fixpoint cleanOnto (acc : path) (segs : list string) : path :=
  match segs with
  | [] => acc
  | s :: r =>
      if String.eqb s "" then cleanOnto acc r
      else if String.eqb s "." then cleanOnto acc r
      else if String.eqb s ".." then cleanOnto (removelast acc) r
      else cleanOnto (acc ++ [s]) r
  end.

(** [filepath.Join(base, elems...)] for an absolute clean [base]. *)
Definition join (base : path) (elems : list string) : path :=
  cleanOnto base (concat (map Str.splitSlash elems)).

(** [filepath.Dir] and [filepath.Base] of a clean absolute path. *)
Definition dir (p : path) : path := removelast p.
Definition base (p : path) : string := List.last p "/".

(** [p + suffix] on the text of a path: the last segment grows. *)
Definition addSuffix (p : path) (suffix : string) : path :=
  match p with
  | [] => [suffix]
  | _ => removelast p ++ [String.append (List.last p "") suffix]
  end.

(** Lexical order of paths, segment by segment: the order in which
    [filepath.Walk] visits a tree (a directory before its content,
    the entries of a directory sorted by name). *)
Fixpoint ltb (p q : path) : bool :=
  match p, q with
  | [], [] => false
  | [], _ :: _ => true
  | _ :: _, [] => false
  | a :: p', b :: q' =>
      if String.eqb a b then ltb p' q' else Str.ltb a b
  end.

Fixpoint isPrefix (p q : path) : bool :=
  match p, q with
  | [], _ => true
  | _ :: _, [] => false
  | a :: p', b :: q' => String.eqb a b && isPrefix p' q'
  end.

(** The proper, non-empty prefixes of a path, shortest first: the
    directories that must exist for the path to resolve. *)
Definition ancestors (p : path) : list path :=
  map (fun n => take n p) (seq 1 (length p - 1)).

(** The non-empty prefixes of a path, the path itself included. *)
Definition chain (p : path) : list path :=
  map (fun n => take n p) (seq 1 (length p)).

End Path.

(** ** Time and machine integers *)

Module GoTime.
Local Open Scope Z_scope.

(** A [time.Time] as its number of nanoseconds since the zero value
    [time.Time{}]; a [time.Duration] is an int64 count of nanoseconds. *)
Definition Time := Z.
Definition Duration := Z.

Definition zero : Time := 0.
Definition minDuration : Duration := - 2 ^ 63.
Definition maxDuration : Duration := 2 ^ 63 - 1.

(** [t.Sub(u)]: the difference, saturated to the range of a Duration. *)
Definition sub (t u : Time) : Duration :=
  if t - u <? minDuration then minDuration
  else if maxDuration <? t - u then maxDuration
  else t - u.

(** [time.Since(t)] evaluated when the clock reads [now]. *)
Definition since (now t : Time) : Duration := sub now t.

Definition after (t u : Time) : bool := u <? t.
Definition before (t u : Time) : bool := t <? u.

End GoTime.

Module Int64.
Local Open Scope Z_scope.

(** The value of an int64 after wrap-around. *)
Definition wrap (z : Z) : Z := (z + 2 ^ 63) mod 2 ^ 64 - 2 ^ 63.

Definition add (a b : Z) : Z := wrap (a + b).

(** The running total [total += x] over a list, starting from 0. *)
Definition sum (l : list Z) : Z := fold_left add l 0.

End Int64.

(** ** The file system

  A tree of directories and regular files, kept as a finite map from
  the path of every node below the root to that node.  The root
  directory always exists.  Errors are the ones that the shape of the
  tree decides; permissions and device errors are outside the model. *)

Inductive errno := ENOENT | ENOTDIR | EISDIR | EEXIST | ENOTEMPTY | EINVAL.

Inductive node :=
| File (data : string) (mtime : GoTime.Time)
| Dir.

#[global] Instance errno_eq_dec : EqDecision errno.
Proof. solve_decision. Defined.

#[global] Instance node_eq_dec : EqDecision node.
Proof. solve_decision. Defined.

Abbreviation FS := (gmap path node).

Definition isDir (n : node) : bool :=
  match n with Dir => true | File _ _ => false end.

Module Os.

(** What stands in the way when [q] is used as a directory. *)
Definition dirErr (fs : FS) (q : path) : option errno :=
  match fs !! q with
  | None => Some ENOENT
  | Some (File _ _) => Some ENOTDIR
  | Some Dir => None
  end.

Fixpoint firstErr (fs : FS) (qs : list path) : option errno :=
  match qs with
  | [] => None
  | q :: r => match dirErr fs q with
              | Some e => Some e
              | None => firstErr fs r
              end
  end.

(** [os.Stat] (and [os.Lstat]: there are no links). *)
Definition stat (fs : FS) (p : path) : errno + node :=
  match p with
  | [] => inr Dir
  | _ =>
      match firstErr fs (Path.ancestors p) with
      | Some e => inl e
      | None => match fs !! p with
                | None => inl ENOENT
                | Some n => inr n
                end
      end
  end.

(** [os.IsNotExist(err)] for the error of a system call. *)
Definition isNotExist (e : errno) : bool :=
  match e with ENOENT => true | _ => false end.

(** [os.ReadFile]. *)
Definition readFile (fs : FS) (p : path) : errno + string :=
  match stat fs p with
  | inl e => inl e
  | inr Dir => inl EISDIR
  | inr (File d _) => inr d
  end.

(** Opening for writing with creation and truncation, and writing
    [data]: [os.WriteFile], and [os.Create] with [data] empty. *)
Definition writeFile (fs : FS) (p : path) (data : string)
    (now : GoTime.Time) : errno + FS :=
  match p with
  | [] => inl EISDIR
  | _ =>
      match firstErr fs (Path.ancestors p) with
      | Some e => inl e
      | None => match fs !! p with
                | Some Dir => inl EISDIR
                | _ => inr (<[p := File data now]> fs)
                end
      end
  end.

Fixpoint mkdirs (fs : FS) (qs : list path) : errno + FS :=
  match qs with
  | [] => inr fs
  | q :: r => match fs !! q with
              | Some (File _ _) => inl ENOTDIR
              | Some Dir => mkdirs fs r
              | None => mkdirs (<[q := Dir]> fs) r
              end
  end.

(** [os.MkdirAll]: every missing directory on the way is created; a
    regular file on the way is an error. *)
Definition mkdirAll (fs : FS) (p : path) : errno + FS :=
  mkdirs fs (Path.chain p).

Definition below (p : path) (kn : path * node) : bool := Path.isPrefix p kn.1.

(** The nodes at and below [p], and the rest. *)
Definition subtree (fs : FS) (p : path) : FS :=
  filter (fun kn => Is_true (below p kn)) fs.
Definition outside (fs : FS) (p : path) : FS :=
  filter (fun kn => ¬ Is_true (below p kn)) fs.

(** [os.Rename].  Go first refuses a directory as the new name; a
    regular file replaces a regular file of the new name in one step. *)
Definition rename (fs : FS) (old new : path) : errno + FS :=
  match stat fs new with
  | inr Dir =>
      match stat fs old with
      | inl e => inl e
      | inr _ => inl EEXIST
      end
  | _ =>
      match stat fs old with
      | inl e => inl e
      | inr n =>
          match firstErr fs (Path.ancestors new) with
          | Some e => inl e
          | None =>
              match n, fs !! new with
              | File d t, _ => inr (<[new := File d t]> (delete old fs))
              | Dir, Some _ => inl ENOTDIR
              | Dir, None =>
                  if Path.isPrefix old new then inl EINVAL
                  else inr (outside fs old ∪
                            list_to_map
                              (map (fun kn : path * node =>
                                      (new ++ drop (length old) kn.1, kn.2))
                                   (map_to_list (subtree fs old))))
              end
          end
      end
  end.

(** The entries of directory [d]. *)
Definition isChild (d : path) (kn : path * node) : bool :=
  Path.isPrefix d kn.1 && Nat.eqb (length kn.1) (S (length d)).

Definition children (fs : FS) (d : path) : list (path * node) :=
  List.filter (isChild d) (map_to_list fs).

(** [os.ReadDir]; only the number of entries is used by the cache. *)
Definition readDir (fs : FS) (d : path) : errno + list (path * node) :=
  match stat fs d with
  | inl e => inl e
  | inr (File _ _) => inl ENOTDIR
  | inr Dir => inr (children fs d)
  end.

(** [os.Remove]: a regular file or an empty directory. *)
Definition remove (fs : FS) (p : path) : errno + FS :=
  match stat fs p with
  | inl e => inl e
  | inr (File _ _) => inr (delete p fs)
  | inr Dir =>
      match p, children fs p with
      | _ :: _, [] => inr (delete p fs)
      | _, _ => inl ENOTEMPTY
      end
  end.

(** [os.RemoveAll]: the whole subtree goes; a path that does not
    exist is not an error, a regular file on the way to it is.  Go's
    function removes what it can and returns the first error that it
    meets; the errors that stop it half-way (permissions, devices) are
    not in this file system, and the error that is, a regular file on
    the way, is met before anything has been removed. *)
Definition removeAll (fs : FS) (p : path) : errno + FS :=
  match stat fs p with
  | inl ENOENT => inr fs
  | inl e => inl e
  | inr _ => inr (outside fs p)
  end.

Fixpoint insertSorted (kn : path * node) (l : list (path * node)) :=
  match l with
  | [] => [kn]
  | h :: t => if Path.ltb h.1 kn.1 then h :: insertSorted kn t
              else kn :: l
  end.

(** The nodes that [filepath.Walk] visits from [root], in its order. *)
Definition walkList (fs : FS) (root : path) : list (path * node) :=
  foldr insertSorted [] (List.filter (below root) (map_to_list fs)).

End Os.

(** ** Sorting *)

Module Sort.
Section Slice.
Context {A : Type} (less : A -> A -> bool).

(** One element sinks towards the front past every element it is
    less than; [revPrefix] is the sorted part, nearest element first. *)
Fixpoint sink (x : A) (revPrefix : list A) : list A :=
  match revPrefix with
  | [] => [x]
  | y :: r => if less x y then y :: sink x r else x :: revPrefix
  end.

(** [sort.Slice(s, less)]: insertion from the left, which is what Go
    runs on a slice of up to twelve elements.  On a longer slice Go
    gives the same result whenever [less] is a strict total order on
    the elements. *)
Definition slice (l : list A) : list A :=
  rev (fold_left (fun acc x => sink x acc) l []).
End Slice.
End Sort.

(** ** The data model of the cache (types.go) *)

Record Metadata := {
md_LibraryID : string;
md_Title : string;
md_Version : string;
md_FetchedAt : GoTime.Time;
md_LastUpdateDate : string;
md_TotalTokens : Z;
md_TotalSnippets : Z;
md_Stars : Z;
md_TrustScore : Z;   (* the bits of the float64 *)
md_Versions : list string
}.

Record CacheEntry := {
ce_Metadata : Metadata;
ce_Content : string
}.

Record CacheStats := {
cs_TotalEntries : Z;
cs_TotalSize : Z;
cs_OldestEntry : GoTime.Time;
cs_NewestEntry : GoTime.Time;
cs_CacheDir : path
}.

Record VersionInfo := {
vi_Version : string;
vi_IsDefault : bool;
vi_Size : Z;
vi_FetchedAt : GoTime.Time;
vi_Metadata : Metadata
}.

Record CachedLibrary := {
cl_LibraryID : string;
cl_Organization : string;
cl_Name : string;
cl_Versions : list VersionInfo
}.

Record PruneOptions := {
po_MaxAge : GoTime.Duration;
po_DryRun : bool;
po_KeepLatest : bool
}.

Record PruneResult := {
pr_RemovedCount : Z;
pr_FreedSpace : Z;
pr_RemovedItems : list string
}.

#[global] Instance Metadata_eq_dec : EqDecision Metadata.
Proof. solve_decision. Defined.

#[global] Instance VersionInfo_eq_dec : EqDecision VersionInfo.
Proof. solve_decision. Defined.

(** The errors of the package, one constructor per message. *)
Inductive error :=
| CacheMiss (e : errno)                  (* cache miss: ... *)
| DecodeMetadataFailed                   (* failed to decode metadata: ... *)
| CacheExpired                           (* cache expired *)
| ReadContentFailed (e : errno)          (* failed to read content: ... *)
| CreateCacheDirFailed (e : errno)       (* failed to create cache directory: ... *)
| WriteContentFailed (e : errno)         (* failed to write content: ... *)
| SaveContentFailed (e : errno)          (* failed to save content: ... *)
| CreateMetadataFileFailed (e : errno)   (* failed to create metadata file: ... *)
| EncodeMetadataFailed                   (* failed to encode metadata: ... *)
| SaveMetadataFailed (e : errno)         (* failed to save metadata: ... *)
| WalkFailed (e : errno)                 (* failed to walk cache directory: ... *)
| InvalidLibraryID (id : string)         (* invalid library ID format: ... *)
| LibraryNotFound (id : string)          (* library not found in cache: ... *)
| RemoveLibraryFailed (e : errno)        (* failed to remove library: ... *)
| VersionNotFound (id ver : string)      (* version not found in cache: ... *)
| RemoveVersionFailed (e : errno).       (* failed to remove version: ... *)

Record Cache := { baseDir : path }.

(** What the cache takes from Go's library and from the platform
  without this development looking inside: the JSON codec of a
  metadata record (the indenting encoder, the stream decoder and
  [json.Unmarshal], each failing with [None]), and the size that the
  platform reports for a directory. *)
Class Runtime := {
jsonEncode : Metadata -> option string;
jsonDecode : string -> option Metadata;
jsonUnmarshal : string -> option Metadata;
dirSize : Z
}.

(** ** The cache manager *)

Module CacheOps.
Section WithRuntime.
Context `{RT : Runtime}.

(** [info.Size()]: the number of bytes of a regular file. *)
Definition infoSize (n : node) : Z :=
  match n with File d _ => Z.of_nat (String.length d) | Dir => dirSize end.

(** [NewCache]: the root and its two subdirectories are created. *)
Definition NewCache (fs : FS) (dir : path) : FS * (error + Cache) :=
  match Os.mkdirAll fs dir with
  | inl e => (fs, inl (CreateCacheDirFailed e))
  | inr fs1 =>
      match Os.mkdirAll fs1 (Path.join dir ["libraries"]) with
      | inl e => (fs1, inl (CreateCacheDirFailed e))
      | inr fs2 =>
          match Os.mkdirAll fs2 (Path.join dir ["searches"]) with
          | inl e => (fs2, inl (CreateCacheDirFailed e))
          | inr fs3 => (fs3, inr {| baseDir := dir |})
          end
      end
  end.

(** [getCacheDir]: baseDir/libraries/<the pieces of the id>/<version>. *)
Definition getCacheDir (c : Cache) (libraryID version : string) : path :=
  let parts := Str.splitSlash (Str.trimPrefixSlash libraryID) in
  let versionDir := if String.eqb version "" then "default" else version in
  Path.join (baseDir c) (["libraries"] ++ parts ++ [versionDir]).

(** What the stream decoder makes of an opened node: a directory can
    be opened but not read. *)
Definition decodeNode (n : node) : option Metadata :=
  match n with
  | File d _ => jsonDecode d
  | Dir => None
  end.

Definition GetWithVersion (c : Cache) (fs : FS) (libraryID version : string)
    (maxAge : GoTime.Duration) (now : GoTime.Time) : error + CacheEntry :=
  let cacheDir := getCacheDir c libraryID version in
  let metadataPath := Path.join cacheDir ["metadata.json"] in
  let contentPath := Path.join cacheDir ["content.txt"] in
  match Os.stat fs metadataPath with            (* os.Open *)
  | inl e => inl (CacheMiss e)
  | inr metadataFile =>
      match decodeNode metadataFile with
      | None => inl DecodeMetadataFailed
      | Some metadata =>
          if (GoTime.since now (md_FetchedAt metadata) >? maxAge)%Z
          then inl CacheExpired
          else
            match Os.readFile fs contentPath with
            | inl e => inl (ReadContentFailed e)
            | inr contentBytes =>
                inr {| ce_Metadata := metadata; ce_Content := contentBytes |}
            end
      end
  end.

Definition Get (c : Cache) (fs : FS) (libraryID : string)
    (maxAge : GoTime.Duration) (now : GoTime.Time) : error + CacheEntry :=
  GetWithVersion c fs libraryID "" maxAge now.

(** [os.Remove] with its error dropped. *)
Definition removeQuiet (fs : FS) (p : path) : FS :=
  match Os.remove fs p with
  | inr fs' => fs'
  | inl _ => fs
  end.

Definition SetWithVersion (c : Cache) (fs : FS) (libraryID version content : string)
    (metadata : Metadata) (now : GoTime.Time) : FS * option error :=
  let cacheDir := getCacheDir c libraryID version in
  match Os.mkdirAll fs cacheDir with
  | inl e => (fs, Some (CreateCacheDirFailed e))
  | inr fs1 =>
      let contentPath := Path.join cacheDir ["content.txt"] in
      let tmpContentPath := Path.addSuffix contentPath ".tmp" in
      match Os.writeFile fs1 tmpContentPath content now with
      | inl e => (fs1, Some (WriteContentFailed e))
      | inr fs2 =>
          match Os.rename fs2 tmpContentPath contentPath with
          | inl e => (removeQuiet fs2 tmpContentPath, Some (SaveContentFailed e))
          | inr fs3 =>
              let metadataPath := Path.join cacheDir ["metadata.json"] in
              let tmpMetadataPath := Path.addSuffix metadataPath ".tmp" in
              match Os.writeFile fs3 tmpMetadataPath "" now with   (* os.Create *)
              | inl e => (fs3, Some (CreateMetadataFileFailed e))
              | inr fs4 =>
                  match jsonEncode metadata with
                  | None =>
                      (removeQuiet fs4 tmpMetadataPath, Some EncodeMetadataFailed)
                  | Some bytes =>
                      let fs5 := <[tmpMetadataPath := File bytes now]> fs4 in
                      match Os.rename fs5 tmpMetadataPath metadataPath with
                      | inl e =>
                          (removeQuiet fs5 tmpMetadataPath, Some (SaveMetadataFailed e))
                      | inr fs6 => (fs6, None)
                      end
                  end
              end
          end
      end
  end.

Definition Set_ (c : Cache) (fs : FS) (libraryID content : string)
    (metadata : Metadata) (now : GoTime.Time) : FS * option error :=
  SetWithVersion c fs libraryID "" content metadata now.

(** *** Statistics *)

Definition isMetadataFile (kn : path * node) : bool :=
  negb (isDir kn.2) && String.eqb (Path.base kn.1) "metadata.json".

(** The size of the content file next to a metadata file, when
    [os.Stat] finds one. *)
Definition contentSize (fs : FS) (metadataPath : path) : option Z :=
  match Os.stat fs (Path.join (Path.dir metadataPath) ["content.txt"]) with
  | inr contentInfo => Some (infoSize contentInfo)
  | inl _ => None
  end.

Definition modTime (n : node) : GoTime.Time :=
  match n with File _ t => t | Dir => GoTime.zero end.

(** The callback of the walk in [GetStats]. *)
Definition statsVisit (fs : FS) (stats : CacheStats) (kn : path * node) : CacheStats :=
  if isMetadataFile kn then
    let size1 := Int64.add (cs_TotalSize stats) (infoSize kn.2) in
    let oldest := if GoTime.before (modTime kn.2) (cs_OldestEntry stats)
                  then modTime kn.2 else cs_OldestEntry stats in
    let newest := if GoTime.after (modTime kn.2) (cs_NewestEntry stats)
                  then modTime kn.2 else cs_NewestEntry stats in
    let size2 := match contentSize fs kn.1 with
                 | Some n => Int64.add size1 n
                 | None => size1
                 end in
    {| cs_TotalEntries := cs_TotalEntries stats + 1;
       cs_TotalSize := size2;
       cs_OldestEntry := oldest;
       cs_NewestEntry := newest;
       cs_CacheDir := cs_CacheDir stats |}
  else stats.

(** What [filepath.Walk] hands to its callback: nothing that counts
    when the root cannot be examined, else every node from the root. *)
Definition walked (fs : FS) (root : path) : list (path * node) :=
  match Os.stat fs root with
  | inl _ => []
  | inr _ => Os.walkList fs root
  end.

(** [GetStats]: its callback returns nil on every node, so the walk
    never fails. *)
Definition GetStats (c : Cache) (fs : FS) (now : GoTime.Time) : error + CacheStats :=
  let stats := {| cs_TotalEntries := 0; cs_TotalSize := 0;
                  cs_OldestEntry := now; cs_NewestEntry := GoTime.zero;
                  cs_CacheDir := baseDir c |} in
  let libsDir := Path.join (baseDir c) ["libraries"] in
  inr (fold_left (statsVisit fs) (walked fs libsDir) stats).

(** *** The catalog *)

Definition appendVersion (lib : CachedLibrary) (v : VersionInfo) : CachedLibrary :=
  {| cl_LibraryID := cl_LibraryID lib;
     cl_Organization := cl_Organization lib;
     cl_Name := cl_Name lib;
     cl_Versions := cl_Versions lib ++ [v] |}.

(** The callback of the walk in [ListCachedLibraries], on a node that
    the walk could examine. *)
Definition listVisit (fs : FS) (librariesDir : path)
    (libraryMap : gmap string CachedLibrary) (kn : path * node)
    : gmap string CachedLibrary :=
  if isDir kn.2 || negb (String.eqb (Path.base kn.1) "metadata.json")
  then libraryMap
  else
    match Os.readFile fs kn.1 with
    | inl _ => libraryMap
    | inr data =>
        match jsonUnmarshal data with
        | None => libraryMap
        | Some metadata =>
            let size := match contentSize fs kn.1 with
                        | Some n => Int64.add (infoSize kn.2) n
                        | None => infoSize kn.2
                        end in
            let parts := drop (length librariesDir) kn.1 in
            match parts with
            | org :: name :: version :: _ =>
                let libraryID :=
                  String.append "/" (String.append org (String.append "/" name)) in
                let lib := match libraryMap !! libraryID with
                           | Some lib => lib
                           | None => {| cl_LibraryID := libraryID;
                                        cl_Organization := org;
                                        cl_Name := name;
                                        cl_Versions := [] |}
                           end in
                let versionInfo :=
                  {| vi_Version := version;
                     vi_IsDefault := String.eqb version "default";
                     vi_Size := size;
                     vi_FetchedAt := md_FetchedAt metadata;
                     vi_Metadata := metadata |} in
                <[libraryID := appendVersion lib versionInfo]> libraryMap
            | _ => libraryMap       (* len(parts) < 3 *)
            end
        end
    end.

Definition versionLess (a b : VersionInfo) : bool :=
  if vi_IsDefault a then true
  else if vi_IsDefault b then false
  else Str.ltb (vi_Version a) (vi_Version b).

Definition libraryLess (a b : CachedLibrary) : bool :=
  Str.ltb (cl_LibraryID a) (cl_LibraryID b).

Definition sortVersions (lib : CachedLibrary) : CachedLibrary :=
  {| cl_LibraryID := cl_LibraryID lib;
     cl_Organization := cl_Organization lib;
     cl_Name := cl_Name lib;
     cl_Versions := Sort.slice versionLess (cl_Versions lib) |}.

(** The catalog built from the nodes that the walk visited. *)
Definition catalogOf (fs : FS) (librariesDir : path)
    (visited : list (path * node)) : list CachedLibrary :=
  let libraryMap := fold_left (listVisit fs librariesDir) visited ∅ in
  Sort.slice libraryLess (map (fun kl => sortVersions kl.2) (map_to_list libraryMap)).

(** [ListCachedLibraries]; the slice of the result is [None] for nil. *)
Definition ListCachedLibraries (c : Cache) (fs : FS)
    : option (list CachedLibrary) * option error :=
  let librariesDir := Path.join (baseDir c) ["libraries"] in
  match Os.stat fs librariesDir with
  | inl e =>
      if Os.isNotExist e then (Some [], None)
      else (None, Some (WalkFailed e))
  | inr _ =>
      (Some (catalogOf fs librariesDir (Os.walkList fs librariesDir)), None)
  end.

(** *** Removal *)

(** The clean-up after a removal: an empty directory goes. *)
Definition removeIfEmpty (fs : FS) (d : path) : FS * bool :=
  match Os.readDir fs d with
  | inr [] => (removeQuiet fs d, true)
  | _ => (fs, false)
  end.

Definition RemoveLibrary (c : Cache) (fs : FS) (libraryID : string)
    : FS * option error :=
  let libraryID := Str.trimPrefixSlash libraryID in
  match Str.splitSlash libraryID with
  | org :: library :: _ =>
      let libraryDir := Path.join (baseDir c) ["libraries"; org; library] in
      match Os.stat fs libraryDir with
      | inl ENOENT => (fs, Some (LibraryNotFound libraryID))
      | _ =>
          match Os.removeAll fs libraryDir with
          | inl e => (fs, Some (RemoveLibraryFailed e))
          | inr fs1 =>
              let orgDir := Path.join (baseDir c) ["libraries"; org] in
              ((removeIfEmpty fs1 orgDir).1, None)
          end
      end
  | _ => (fs, Some (InvalidLibraryID libraryID))      (* len(parts) < 2 *)
  end.

Definition RemoveLibraryVersion (c : Cache) (fs : FS) (libraryID version : string)
    : FS * option error :=
  let libraryID := Str.trimPrefixSlash libraryID in
  let versionDir := getCacheDir c libraryID version in
  match Os.stat fs versionDir with
  | inl ENOENT => (fs, Some (VersionNotFound libraryID version))
  | _ =>
      match Os.removeAll fs versionDir with
      | inl e => (fs, Some (RemoveVersionFailed e))
      | inr fs1 =>
          match Str.splitSlash libraryID with
          | org :: library :: _ =>
              let libraryDir := Path.join (baseDir c) ["libraries"; org; library] in
              let (fs2, emptied) := removeIfEmpty fs1 libraryDir in
              if emptied then
                let orgDir := Path.join (baseDir c) ["libraries"; org] in
                ((removeIfEmpty fs2 orgDir).1, None)
              else (fs2, None)
          | _ => (fs1, None)
          end
      end
  end.

Definition ForceUpdate (c : Cache) (fs : FS) (libraryID version : string)
    : FS * option error :=
  if String.eqb version "" then RemoveLibrary c fs libraryID
  else RemoveLibraryVersion c fs libraryID version.

(** *** Pruning *)

(** The inner loop that finds the latest version of one library. *)
Definition latestStep (acc : GoTime.Time * string) (v : VersionInfo)
    : GoTime.Time * string :=
  if GoTime.after (vi_FetchedAt v) acc.1 then (vi_FetchedAt v, vi_Version v)
  else acc.

Definition latestOf (lib : CachedLibrary) : string :=
  (fold_left latestStep (cl_Versions lib) (GoTime.zero, "")).2.

Definition latestVersionsStep (m : gmap string string) (lib : CachedLibrary)
    : gmap string string :=
  if String.eqb (latestOf lib) "" then m
  else <[cl_LibraryID lib := latestOf lib]> m.

Definition latestVersionsOf (opts : PruneOptions) (libraries : list CachedLibrary)
    : gmap string string :=
  if po_KeepLatest opts then fold_left latestVersionsStep libraries ∅ else ∅.

Definition itemName (lib : CachedLibrary) (v : VersionInfo) : string :=
  String.append (cl_LibraryID lib) (String.append "@" (vi_Version v)).

Definition recordRemoval (result : PruneResult) (lib : CachedLibrary)
    (v : VersionInfo) : PruneResult :=
  {| pr_RemovedCount := pr_RemovedCount result + 1;
     pr_FreedSpace := Int64.add (pr_FreedSpace result) (vi_Size v);
     pr_RemovedItems := pr_RemovedItems result ++ [itemName lib v] |}.

(** The body of the inner loop of [Prune]. *)
Definition pruneVersion (c : Cache) (opts : PruneOptions) (now : GoTime.Time)
    (latestVersions : gmap string string) (lib : CachedLibrary)
    (st : FS * PruneResult) (v : VersionInfo) : FS * PruneResult :=
  if po_KeepLatest opts
     && String.eqb (default "" (latestVersions !! cl_LibraryID lib)) (vi_Version v)
  then st
  else
    if (GoTime.sub now (vi_FetchedAt v) >? po_MaxAge opts)%Z then
      if po_DryRun opts then (st.1, recordRemoval st.2 lib v)
      else
        match RemoveLibraryVersion c st.1 (cl_LibraryID lib) (vi_Version v) with
        | (fs', Some _) => (fs', st.2)            (* skipped *)
        | (fs', None) => (fs', recordRemoval st.2 lib v)
        end
    else st.

Definition pruneLibrary (c : Cache) (opts : PruneOptions) (now : GoTime.Time)
    (latestVersions : gmap string string)
    (st : FS * PruneResult) (lib : CachedLibrary) : FS * PruneResult :=
  fold_left (pruneVersion c opts now latestVersions lib) (cl_Versions lib) st.

Definition emptyResult : PruneResult :=
  {| pr_RemovedCount := 0; pr_FreedSpace := 0; pr_RemovedItems := [] |}.

Definition pruneAll (c : Cache) (opts : PruneOptions) (now : GoTime.Time)
    (libraries : list CachedLibrary) (fs : FS) : FS * PruneResult :=
  fold_left (pruneLibrary c opts now (latestVersionsOf opts libraries))
            libraries (fs, emptyResult).

Definition Prune (c : Cache) (fs : FS) (opts : PruneOptions) (now : GoTime.Time)
    : FS * (error + PruneResult) :=
  match ListCachedLibraries c fs with
  | (_, Some err) => (fs, inl err)
  | (None, None) => (fs, inr emptyResult)
  | (Some libraries, None) =>
      let (fs', result) := pruneAll c opts now libraries fs in
      (fs', inr result)
  end.

End WithRuntime.
End CacheOps.

(** ** Maintenance, detailed statistics and the search cache *)

Record LibraryStats := {
ls_LibraryID : string;
ls_VersionCount : Z;
ls_TotalSize : Z;
ls_OldestVersion : GoTime.Time;
ls_NewestVersion : GoTime.Time
}.

Record DetailedCacheStats := {
dcs_CacheStats : CacheStats;
dcs_LibraryBreakdown : list LibraryStats;
dcs_SearchCacheSize : Z;
dcs_SearchCacheEntries : Z
}.

(** The errors of [Clear], one constructor per message. *)
Inductive clearError :=
| ClearLibrariesFailed (e : errno)       (* failed to clear libraries cache: ... *)
| ClearSearchesFailed (e : errno)        (* failed to clear searches cache: ... *)
| RecreateLibrariesFailed (e : errno)    (* failed to recreate libraries directory: ... *)
| RecreateSearchesFailed (e : errno).    (* failed to recreate searches directory: ... *)

(** The errors of [CacheSearchResults]. *)
Inductive searchError :=
| CreateSearchFileFailed (e : errno)     (* failed to create search cache file: ... *)
| EncodeSearchFailed                     (* failed to encode search cache: ... *)
| SaveSearchFailed (e : errno).          (* failed to save search cache: ... *)

(** What the search cache takes from Go's library: the hexadecimal
  SHA-256 digest of a query, and the indenting JSON encoder on the
  document of a query, its timestamp and its results (of whatever type
  the caller stores). *)
Class SearchRuntime (Results : Type) := {
sha256Hex : string -> string;
jsonEncodeSearch : string -> GoTime.Time -> Results -> option string
}.

Module CacheAdmin.
Section WithRuntime.
Context `{RT : Runtime}.
Import CacheOps.

(** [Clear]: the two subdirectories go with all they hold, and are
    created again. *)
Definition Clear (c : Cache) (fs : FS) : FS * option clearError :=
  let libsDir := Path.join (baseDir c) ["libraries"] in
  let searchDir := Path.join (baseDir c) ["searches"] in
  match Os.removeAll fs libsDir with
  | inl e => (fs, Some (ClearLibrariesFailed e))
  | inr fs1 =>
      match Os.removeAll fs1 searchDir with
      | inl e => (fs1, Some (ClearSearchesFailed e))
      | inr fs2 =>
          match Os.mkdirAll fs2 libsDir with
          | inl e => (fs2, Some (RecreateLibrariesFailed e))
          | inr fs3 =>
              match Os.mkdirAll fs3 searchDir with
              | inl e => (fs3, Some (RecreateSearchesFailed e))
              | inr fs4 => (fs4, None)
              end
          end
      end
  end.

(** [IsValid]: a read of the default version succeeds. *)
Definition IsValid (c : Cache) (fs : FS) (libraryID : string)
    (maxAge : GoTime.Duration) (now : GoTime.Time) : bool :=
  match Get c fs libraryID maxAge now with
  | inr _ => true
  | inl _ => false
  end.

(** *** Detailed statistics *)

(** The body of the loop over the versions of one library in
    [GetDetailedStats]; [i] is the index of the version. *)
Definition versionStatsStep (acc : nat * Z * GoTime.Time * GoTime.Time)
    (v : VersionInfo) : nat * Z * GoTime.Time * GoTime.Time :=
  let '(i, totalSize, oldestVersion, newestVersion) := acc in
  (S i,
   Int64.add totalSize (vi_Size v),
   if Nat.eqb i 0 || GoTime.before (vi_FetchedAt v) oldestVersion
   then vi_FetchedAt v else oldestVersion,
   if Nat.eqb i 0 || GoTime.after (vi_FetchedAt v) newestVersion
   then vi_FetchedAt v else newestVersion).

Definition libraryStats (lib : CachedLibrary) : LibraryStats :=
  let '(_, totalSize, oldestVersion, newestVersion) :=
    fold_left versionStatsStep (cl_Versions lib)
              (0%nat, 0%Z, GoTime.zero, GoTime.zero) in
  {| ls_LibraryID := cl_LibraryID lib;
     ls_VersionCount := Z.of_nat (length (cl_Versions lib));
     ls_TotalSize := totalSize;
     ls_OldestVersion := oldestVersion;
     ls_NewestVersion := newestVersion |}.

(** The order of the breakdown: largest first. *)
Definition largerFirst (a b : LibraryStats) : bool :=
  (ls_TotalSize a >? ls_TotalSize b)%Z.

(** The body of the loop over the entries of the searches directory. *)
Definition searchStatsStep (acc : Z * Z) (kn : path * node) : Z * Z :=
  if isDir kn.2 then acc
  else (Int64.add acc.1 (infoSize kn.2), (acc.2 + 1)%Z).

(** [GetDetailedStats].  A searches directory that cannot be read
    counts as empty. *)
Definition GetDetailedStats (c : Cache) (fs : FS) (now : GoTime.Time)
    : error + DetailedCacheStats :=
  match GetStats c fs now with
  | inl err => inl err
  | inr basicStats =>
      match ListCachedLibraries c fs with
      | (_, Some err) => inl err
      | (libraries, None) =>
          let libraryBreakdown :=
            Sort.slice largerFirst (map libraryStats (default [] libraries)) in
          let searchDir := Path.join (baseDir c) ["searches"] in
          let search := match Os.readDir fs searchDir with
                        | inr entries => fold_left searchStatsStep entries (0%Z, 0%Z)
                        | inl _ => (0%Z, 0%Z)
                        end in
          inr {| dcs_CacheStats := basicStats;
                 dcs_LibraryBreakdown := libraryBreakdown;
                 dcs_SearchCacheSize := search.1;
                 dcs_SearchCacheEntries := search.2 |}
      end
  end.

End WithRuntime.

(** *** The search cache *)

Section WithSearchRuntime.
Context {Results : Type} `{SR : SearchRuntime Results}.
Import CacheOps.

Definition hashQuery (query : string) : string := sha256Hex query.

(** [CacheSearchResults]: the document is written to a temporary file
    next to the file of the query and moved into place. *)
Definition CacheSearchResults (c : Cache) (fs : FS) (query : string)
    (results : Results) (now : GoTime.Time) : FS * option searchError :=
  let hash := hashQuery query in
  let searchDir := Path.join (baseDir c) ["searches"] in
  let searchPath := Path.join searchDir [String.append hash ".json"] in
  let tmpPath := Path.addSuffix searchPath ".tmp" in
  match Os.writeFile fs tmpPath "" now with          (* os.Create *)
  | inl e => (fs, Some (CreateSearchFileFailed e))
  | inr fs1 =>
      match jsonEncodeSearch query now results with
      | None => (removeQuiet fs1 tmpPath, Some EncodeSearchFailed)
      | Some bytes =>
          let fs2 := <[tmpPath := File bytes now]> fs1 in
          match Os.rename fs2 tmpPath searchPath with
          | inl e => (removeQuiet fs2 tmpPath, Some (SaveSearchFailed e))
          | inr fs3 => (fs3, None)
          end
      end
  end.

End WithSearchRuntime.
End CacheAdmin.

(** ** The cache commands (package cmd) *)

Module Cmd.
Section WithRuntime.
Context `{RT : Runtime}.
Import CacheOps CacheAdmin.
Local Open Scope Z_scope.

(** *** formatSize *)

Definition unit : Z := 1024.

(** The loop of [formatSize],
    [for n := bytes / unit; n >= unit; n /= unit { div *= unit; exp++ }],
    run for at most [fuel] rounds. *)
Fixpoint scaleLoop (fuel : nat) (n div : Z) (exp : nat) : option (Z * nat) :=
  if n >=? unit then
    match fuel with
    | O => None
    | S fuel' => scaleLoop fuel' (Z.quot n unit) (Int64.wrap (div * unit)) (S exp)
    end
  else Some (div, exp).

(** What [formatSize] prints: the bytes as they are, or the quotient of
    the bytes by [div] (as floating-point numbers, to one decimal) with
    the letter of the unit. *)
Inductive sizeText :=
| Bytes (bytes : Z)                           (* "%d B" *)
| Scaled (bytes div : Z) (letter : ascii).    (* "%.1f %cB" *)

(** [formatSize] on an int64; [None] when the loop does not end within
    seven rounds or when the index into ["KMGTPE"] is out of range. *)
Definition formatSize (bytes : Z) : option sizeText :=
  if bytes <? unit then Some (Bytes bytes)
  else
    match scaleLoop 7 (Z.quot bytes unit) unit 0 with
    | Some (div, exp) =>
        match String.get exp "KMGTPE" with
        | Some letter => Some (Scaled bytes div letter)
        | None => None
        end
    | None => None
    end.

(** *** cache prune *)

Record PruneFlags := {
pf_days : Z;
pf_keepLatest : bool;
pf_force : bool;
pf_dryRun : bool
}.

(** How [handleCachePrune] ends. *)
Inductive pruneOutcome :=
| PruneUsage                                       (* --days ... must be positive; exit 1 *)
| PruneAnalysisFailed (err : error)                (* Error analyzing cache; exit 1 *)
| PruneNothingStale                                (* No stale entries found *)
| PrunePreviewed (preview : PruneResult)           (* [DRY RUN] Preview complete *)
| PruneCancelled (preview : PruneResult)           (* Cancelled *)
| PruneFailed (preview : PruneResult) (err : error)   (* Error pruning cache; exit 1 *)
| PruneDone (preview result : PruneResult).        (* Cache pruned successfully *)

Definition hour : GoTime.Duration := 3600 * 10 ^ 9.

(** [time.Duration(days) * 24 * time.Hour] on 64-bit integers. *)
Definition pruneMaxAge (days : Z) : GoTime.Duration :=
  Int64.wrap (Int64.wrap (days * 24) * hour).

(** [handleCachePrune].  [confirmed] is the answer that [confirmAction]
    reads when it is asked; [now1] and [now2] are the readings of the
    clock in the two calls of [Prune]. *)
Definition handleCachePrune (c : Cache) (fs : FS) (flags : PruneFlags)
    (confirmed : bool) (now1 now2 : GoTime.Time) : FS * pruneOutcome :=
  if pf_days flags <=? 0 then (fs, PruneUsage)
  else
    let maxAge := pruneMaxAge (pf_days flags) in
    match Prune c fs {| po_MaxAge := maxAge; po_DryRun := true;
                        po_KeepLatest := pf_keepLatest flags |} now1 with
    | (fs1, inl err) => (fs1, PruneAnalysisFailed err)
    | (fs1, inr preview) =>
        if pr_RemovedCount preview =? 0 then (fs1, PruneNothingStale)
        else if pf_dryRun flags then (fs1, PrunePreviewed preview)
        else if negb (pf_force flags) && negb confirmed
        then (fs1, PruneCancelled preview)
        else
          match Prune c fs1 {| po_MaxAge := maxAge; po_DryRun := false;
                               po_KeepLatest := pf_keepLatest flags |} now2 with
          | (fs2, inl err) => (fs2, PruneFailed preview err)
          | (fs2, inr result) => (fs2, PruneDone preview result)
          end
    end.

(** *** cache clear *)

Record ClearFlags := {
cf_force : bool;
cf_dryRun : bool
}.

(** How [handleCacheClear] ends. *)
Inductive clearOutcome :=
| ClearStatsFailed (err : error)                   (* Error getting cache stats; exit 1 *)
| ClearAlreadyEmpty                                (* Cache is already empty *)
| ClearPreviewed (stats : CacheStats)              (* [DRY RUN] Would remove all cache entries *)
| ClearCancelled                                   (* Cancelled *)
| ClearFailed (err : clearError)                   (* Error clearing cache; exit 1 *)
| ClearDone (stats : CacheStats).                  (* Cache cleared successfully *)

Definition handleCacheClear (c : Cache) (fs : FS) (flags : ClearFlags)
    (confirmed : bool) (now : GoTime.Time) : FS * clearOutcome :=
  match GetStats c fs now with
  | inl err => (fs, ClearStatsFailed err)
  | inr stats =>
      if cs_TotalEntries stats =? 0 then (fs, ClearAlreadyEmpty)
      else if cf_dryRun flags then (fs, ClearPreviewed stats)
      else if negb (cf_force flags) && negb confirmed then (fs, ClearCancelled)
      else
        match Clear c fs with
        | (fs', Some err) => (fs', ClearFailed err)
        | (fs', None) => (fs', ClearDone stats)
        end
  end.

End WithRuntime.
End Cmd.

(** ** The vocabulary of the properties *)

Section Vocabulary.
Context `{RT : Runtime}.
Import CacheOps.

(** *** The entry store *)

(** The four files of an entry directory. *)
Definition metadataPath (c : Cache) (id version : string) : path :=
  getCacheDir c id version ++ ["metadata.json"].
Definition contentPath (c : Cache) (id version : string) : path :=
  getCacheDir c id version ++ ["content.txt"].
Definition tmpMetadataPath (c : Cache) (id version : string) : path :=
  getCacheDir c id version ++ ["metadata.json.tmp"].
Definition tmpContentPath (c : Cache) (id version : string) : path :=
  getCacheDir c id version ++ ["content.txt.tmp"].

(** The entry that a read finds: the metadata file opens and decodes,
    the fetch timestamp is within [maxAge] of the clock, and the
    content file can be read. *)
Definition available (c : Cache) (fs : FS) (id version : string)
    (maxAge : GoTime.Duration) (now : GoTime.Time) (entry : CacheEntry) : Prop :=
  exists data mtime,
    Os.stat fs (metadataPath c id version) = inr (File data mtime) /\
    jsonDecode data = Some (ce_Metadata entry) /\
    (GoTime.since now (md_FetchedAt (ce_Metadata entry)) <= maxAge)%Z /\
    Os.readFile fs (contentPath c id version) = inr (ce_Content entry).

(** The errors with which a read reports a miss: no such path, metadata
    that does not decode, an expired entry, content that cannot be read. *)
Definition isCacheMiss (e : error) : bool :=
  match e with
  | CacheMiss _ | DecodeMetadataFailed | CacheExpired | ReadContentFailed _ => true
  | _ => false
  end.

(** What a write leaves behind, outcome by outcome.  [fs1] is the
    file system once the entry directory exists. *)
Inductive SetOutcome (c : Cache) (id version content : string) (metadata : Metadata)
    (now : GoTime.Time) (fs : FS) : FS -> option error -> Prop :=
| SetNoDir e :
    Os.mkdirAll fs (getCacheDir c id version) = inl e ->
    SetOutcome c id version content metadata now fs fs (Some (CreateCacheDirFailed e))
| SetNoTmpContent fs1 :
    Os.mkdirAll fs (getCacheDir c id version) = inr fs1 ->
    fs1 !! tmpContentPath c id version = Some Dir ->
    SetOutcome c id version content metadata now fs fs1 (Some (WriteContentFailed EISDIR))
| SetNoContent fs1 :
    Os.mkdirAll fs (getCacheDir c id version) = inr fs1 ->
    fs1 !! tmpContentPath c id version <> Some Dir ->
    fs1 !! contentPath c id version = Some Dir ->
    SetOutcome c id version content metadata now fs
      (delete (tmpContentPath c id version) fs1) (Some (SaveContentFailed EEXIST))
| SetNoTmpMetadata fs1 :
    Os.mkdirAll fs (getCacheDir c id version) = inr fs1 ->
    fs1 !! tmpContentPath c id version <> Some Dir ->
    fs1 !! contentPath c id version <> Some Dir ->
    fs1 !! tmpMetadataPath c id version = Some Dir ->
    SetOutcome c id version content metadata now fs
      (<[contentPath c id version := File content now]>
         (delete (tmpContentPath c id version) fs1))
      (Some (CreateMetadataFileFailed EISDIR))
| SetNoEncoding fs1 :
    Os.mkdirAll fs (getCacheDir c id version) = inr fs1 ->
    fs1 !! tmpContentPath c id version <> Some Dir ->
    fs1 !! contentPath c id version <> Some Dir ->
    fs1 !! tmpMetadataPath c id version <> Some Dir ->
    jsonEncode metadata = None ->
    SetOutcome c id version content metadata now fs
      (delete (tmpMetadataPath c id version)
         (<[contentPath c id version := File content now]>
            (delete (tmpContentPath c id version) fs1)))
      (Some EncodeMetadataFailed)
| SetNoMetadata fs1 bytes :
    Os.mkdirAll fs (getCacheDir c id version) = inr fs1 ->
    fs1 !! tmpContentPath c id version <> Some Dir ->
    fs1 !! contentPath c id version <> Some Dir ->
    fs1 !! tmpMetadataPath c id version <> Some Dir ->
    jsonEncode metadata = Some bytes ->
    fs1 !! metadataPath c id version = Some Dir ->
    SetOutcome c id version content metadata now fs
      (delete (tmpMetadataPath c id version)
         (<[contentPath c id version := File content now]>
            (delete (tmpContentPath c id version) fs1)))
      (Some (SaveMetadataFailed EEXIST))
| SetDone fs1 bytes :
    Os.mkdirAll fs (getCacheDir c id version) = inr fs1 ->
    fs1 !! tmpContentPath c id version <> Some Dir ->
    fs1 !! contentPath c id version <> Some Dir ->
    fs1 !! tmpMetadataPath c id version <> Some Dir ->
    jsonEncode metadata = Some bytes ->
    fs1 !! metadataPath c id version <> Some Dir ->
    SetOutcome c id version content metadata now fs
      (<[metadataPath c id version := File bytes now]>
         (delete (tmpMetadataPath c id version)
            (<[contentPath c id version := File content now]>
               (delete (tmpContentPath c id version) fs1))))
      None.

(** The failures that come before the new content is in place. *)
Definition beforeContentRename (e : error) : bool :=
  match e with
  | CreateCacheDirFailed _ | WriteContentFailed _ | SaveContentFailed _ => true
  | _ => false
  end.

(** *** Sums *)

(** The exact sum of a list of integers. *)
Definition sumZ (l : list Z) : Z := foldr Z.add 0%Z l.

(** *** The catalog and the statistics *)

Definition librariesDir (c : Cache) : path := baseDir c ++ ["libraries"].

(** The size that the catalog records for the entry of a metadata
    file: the file itself plus the content file next to it. *)
Definition recordedSize (fs : FS) (kn : path * node) : Z :=
  match contentSize fs kn.1 with
  | Some n => Int64.add (infoSize kn.2) n
  | None => infoSize kn.2
  end.

(** The same as an exact sum. *)
Definition measuredSize (fs : FS) (kn : path * node) : Z :=
  (infoSize kn.2 + default 0 (contentSize fs kn.1))%Z.

(** A metadata file that the scan takes into the catalog: it can be
    read, it unmarshals, and its path has at least three segments
    below the libraries directory. *)
Definition catalogued (fs : FS) (librariesDir : path) (kn : path * node) : Prop :=
  (exists data metadata,
      Os.readFile fs kn.1 = inr data /\ jsonUnmarshal data = Some metadata) /\
  (3 <= length (drop (length librariesDir) kn.1))%nat.

(** The version that the callback of the scan adds for a node, with
    the organization and the name of its library. *)
Definition visitedVersion (fs : FS) (librariesDir : path) (kn : path * node)
    : option (string * string * VersionInfo) :=
  if isMetadataFile kn then
    match Os.readFile fs kn.1 with
    | inl _ => None
    | inr data =>
        match jsonUnmarshal data with
        | None => None
        | Some metadata =>
            match drop (length librariesDir) kn.1 with
            | org :: name :: version :: _ =>
                Some (org, name,
                      {| vi_Version := version;
                         vi_IsDefault := String.eqb version "default";
                         vi_Size := recordedSize fs kn;
                         vi_FetchedAt := md_FetchedAt metadata;
                         vi_Metadata := metadata |})
            | _ => None
            end
        end
    end
  else None.

Definition idOf (org name : string) : string :=
  String.append "/" (String.append org (String.append "/" name)).

Definition addVersion (libraryMap : gmap string CachedLibrary)
    (onv : string * string * VersionInfo) : gmap string CachedLibrary :=
  let '(org, name, v) := onv in
  <[idOf org name :=
      appendVersion (default {| cl_LibraryID := idOf org name;
                                cl_Organization := org;
                                cl_Name := name;
                                cl_Versions := [] |}
                             (libraryMap !! idOf org name)) v]> libraryMap.

Definition libraryTotal (lib : CachedLibrary) : Z :=
  sumZ (map vi_Size (cl_Versions lib)).

Definition mapTotal (libraryMap : gmap string CachedLibrary) : Z :=
  sumZ (map (fun kl : string * CachedLibrary => libraryTotal kl.2)
            (map_to_list libraryMap)).

(** A catalog entry by the identifier of its library, and the same
    for a version that the scan adds. *)
Definition keyed (lv : CachedLibrary * VersionInfo) : string * VersionInfo :=
  (cl_LibraryID lv.1, lv.2).

Definition visitedKey (onv : string * string * VersionInfo) : string * VersionInfo :=
  (idOf onv.1.1 onv.1.2, onv.2).

Definition libraryEntries (lib : CachedLibrary) : list (string * VersionInfo) :=
  map (pair (cl_LibraryID lib)) (cl_Versions lib).

Definition mapEntries (libraryMap : gmap string CachedLibrary)
    : list (string * VersionInfo) :=
  flat_map (fun kl : string * CachedLibrary => libraryEntries kl.2)
           (map_to_list libraryMap).

(** *** Pruning *)

(** The entries of a catalog in the order in which [Prune] meets them. *)
Definition entries (libraries : list CachedLibrary)
    : list (CachedLibrary * VersionInfo) :=
  concat (map (fun lib => map (pair lib) (cl_Versions lib)) libraries).

(** The selection of [Prune]: not exempt as the latest version, and
    older than the threshold. *)
Definition selected (opts : PruneOptions) (now : GoTime.Time)
    (latestVersions : gmap string string) (lv : CachedLibrary * VersionInfo) : bool :=
  negb (po_KeepLatest opts
        && String.eqb (default "" (latestVersions !! cl_LibraryID lv.1))
                      (vi_Version lv.2))
  && (GoTime.sub now (vi_FetchedAt lv.2) >? po_MaxAge opts)%Z.

(** The result that reports the removal of the given entries. *)
Definition resultOf (removed : list (CachedLibrary * VersionInfo)) : PruneResult :=
  {| pr_RemovedCount := Z.of_nat (length removed);
     pr_FreedSpace := Int64.sum (map (fun lv => vi_Size lv.2) removed);
     pr_RemovedItems := map (fun lv => itemName lv.1 lv.2) removed |}.

Definition withDryRun (opts : PruneOptions) (dryRun : bool) : PruneOptions :=
  {| po_MaxAge := po_MaxAge opts; po_DryRun := dryRun;
     po_KeepLatest := po_KeepLatest opts |}.

(** The body of the loops of [Prune] on one entry. *)
Definition pruneEntry (c : Cache) (opts : PruneOptions) (now : GoTime.Time)
    (latestVersions : gmap string string)
    (st : FS * PruneResult) (lv : CachedLibrary * VersionInfo) : FS * PruneResult :=
  pruneVersion c opts now latestVersions lv.1 st lv.2.

(** The directory that an entry names. *)
Definition entryKey (lv : CachedLibrary * VersionInfo) : string * string :=
  (cl_LibraryID lv.1, vi_Version lv.2).

(** *** Well-formed caches *)

(** A name that a directory entry can have: no separator in it, and
    none of the names that [filepath.Clean] resolves. *)
Definition validName (s : string) : Prop :=
  Str.splitSlash s = [s] /\ s <> "" /\ s <> "." /\ s <> "..".

(** A file system that is a tree of named nodes: every node has valid
    names on its path, and directories all the way above it. *)
Definition wellFormed (fs : FS) : Prop :=
  forall p n, fs !! p = Some n ->
    Forall validName p /\ Os.firstErr fs (Path.ancestors p) = None.

(** Every metadata file that the scan takes into the catalog lies in a
    version directory: organization/name/version/metadata.json. *)
Definition properlyNested (fs : FS) (librariesDir : path) : Prop :=
  forall kn, kn ∈ Os.walkList fs librariesDir ->
    is_Some (visitedVersion fs librariesDir kn) ->
    length (drop (length librariesDir) kn.1) = 4.

(** The directory of a version. *)
Definition versionDir (c : Cache) (org name version : string) : path :=
  librariesDir c ++ [org; name; version].

(** A catalog entry whose version directory is there to be removed. *)
Definition removable (c : Cache) (fs : FS) (lv : CachedLibrary * VersionInfo) : Prop :=
  exists org name,
    cl_LibraryID lv.1 = idOf org name /\
    validName org /\ validName name /\ validName (vi_Version lv.2) /\
    Os.firstErr fs (Path.chain (versionDir c org name (vi_Version lv.2))) = None.

(** The two conditions as checks over the nodes of a file system. *)
Definition wellFormedNodes (fs : FS) : Prop :=
  Forall (fun kn : path * node =>
            Forall validName kn.1 /\ Os.firstErr fs (Path.ancestors kn.1) = None)
         (map_to_list fs).

Definition properlyNestedNodes (fs : FS) (librariesDir : path) : Prop :=
  Forall (fun kn : path * node =>
            is_Some (visitedVersion fs librariesDir kn) ->
            length (drop (length librariesDir) kn.1) = 4)
         (Os.walkList fs librariesDir).

#[global] Instance validName_dec (s : string) : Decision (validName s).
Proof. unfold validName. apply _. Defined.

#[global] Instance wellFormedNodes_dec (fs : FS) : Decision (wellFormedNodes fs).
Proof. unfold wellFormedNodes. apply _. Defined.

#[global] Instance properlyNestedNodes_dec (fs : FS) (librariesDir : path) :
  Decision (properlyNestedNodes fs librariesDir).
Proof. unfold properlyNestedNodes. apply _. Defined.

End Vocabulary.

(** ** The vocabulary of the further properties *)

Section MoreVocabulary.
Context `{RT : Runtime}.
Import CacheOps CacheAdmin.

Definition searchesDir (c : Cache) : path := baseDir c ++ ["searches"].

(** The statistics of a cache without entries, taken when the clock
    reads [now]. *)
Definition emptyStats (c : Cache) (now : GoTime.Time) : CacheStats :=
  {| cs_TotalEntries := 0; cs_TotalSize := 0;
     cs_OldestEntry := now; cs_NewestEntry := GoTime.zero;
     cs_CacheDir := baseDir c |}.

Definition emptyDetailedStats (c : Cache) (now : GoTime.Time) : DetailedCacheStats :=
  {| dcs_CacheStats := emptyStats c now;
     dcs_LibraryBreakdown := [];
     dcs_SearchCacheSize := 0;
     dcs_SearchCacheEntries := 0 |}.

(** The order of the versions of a library: the default version before
    the others, the others by their names. *)
Definition versionOrder (u w : VersionInfo) : Prop :=
  if vi_IsDefault u then True
  else vi_IsDefault w = false /\ Str.ltb (vi_Version w) (vi_Version u) = false.

(** What the scan records of a version beside its name and its size. *)
Definition versionRecorded (v : VersionInfo) : Prop :=
  vi_IsDefault v = String.eqb (vi_Version v) "default" /\
  vi_FetchedAt v = md_FetchedAt (vi_Metadata v).

(** The metadata files that the walk of the statistics meets. *)
Definition metadataNodes (c : Cache) (fs : FS) : list (path * node) :=
  List.filter isMetadataFile (walked fs (librariesDir c)).

(** What holds of every library while the scan builds the catalog. *)
Definition libraryShaped (lib : CachedLibrary) : Prop :=
  cl_LibraryID lib = idOf (cl_Organization lib) (cl_Name lib) /\
  cl_Versions lib <> [] /\
  Forall versionRecorded (cl_Versions lib).

(** The earliest and the latest of a list of times; the zero time
    when there is none. *)
Definition earliest (times : list GoTime.Time) : GoTime.Time :=
  match times with
  | [] => GoTime.zero
  | t :: rest => foldr Z.min t rest
  end.

Definition latest (times : list GoTime.Time) : GoTime.Time :=
  match times with
  | [] => GoTime.zero
  | t :: rest => foldr Z.max t rest
  end.

(** The row of the breakdown for a library, said directly. *)
Definition rowOf (lib : CachedLibrary) : LibraryStats :=
  {| ls_LibraryID := cl_LibraryID lib;
     ls_VersionCount := Z.of_nat (length (cl_Versions lib));
     ls_TotalSize := Int64.wrap (sumZ (map vi_Size (cl_Versions lib)));
     ls_OldestVersion := earliest (map vi_FetchedAt (cl_Versions lib));
     ls_NewestVersion := latest (map vi_FetchedAt (cl_Versions lib)) |}.

(** The regular files directly in the searches directory, when it can
    be read. *)
Definition searchFiles (c : Cache) (fs : FS) : list (path * node) :=
  match Os.readDir fs (searchesDir c) with
  | inr entries => List.filter (fun kn : path * node => negb (isDir kn.2)) entries
  | inl _ => []
  end.

(** An entry whose directory has been removed: at some moment the
    directory could be examined, and what is left now is within what
    was outside of it then. *)
Definition gone (c : Cache) (fs : FS) (lv : CachedLibrary * VersionInfo) : Prop :=
  exists (fs0 : FS) (n : node),
    Os.stat fs0 (getCacheDir c (cl_LibraryID lv.1) (vi_Version lv.2)) = inr n /\
    forall q m, fs !! q = Some m ->
      Os.outside fs0 (getCacheDir c (cl_LibraryID lv.1) (vi_Version lv.2)) !! q = Some m.

End MoreVocabulary.

Section SearchVocabulary.
Context {Results : Type} `{SR : SearchRuntime Results}.
Import CacheOps CacheAdmin.

(** The file of a query in the search cache, and the temporary file
    next to it. *)
Definition searchPath (c : Cache) (query : string) : path :=
  Path.join (searchesDir c) [String.append (hashQuery query) ".json"].

Definition tmpSearchPath (c : Cache) (query : string) : path :=
  Path.addSuffix (searchPath c query) ".tmp".

End SearchVocabulary.

(** ** A runtime and a cache for the examples

  The codec of the examples knows the records below, each with a
  short text standing for its JSON document, and fails on every other
  record (as Go's encoder does on a trust score that is not a number). *)

Module Demo.
Import CacheOps.
Local Open Scope Z_scope.

Definition day : Z := 86400 * 10 ^ 9.

Definition widgetsAt (t : GoTime.Time) (trust : Z) : Metadata :=
  {| md_LibraryID := "/acme/widgets"; md_Title := "Widgets"; md_Version := "";
     md_FetchedAt := t; md_LastUpdateDate := "";
     md_TotalTokens := 0; md_TotalSnippets := 0; md_Stars := 0;
     md_TrustScore := trust; md_Versions := [] |}.

(** The clock of the examples reads day 1000. *)
Definition now : GoTime.Time := 1000 * day.

Definition fetchedNever : Metadata := widgetsAt GoTime.zero 0.
Definition fetched40DaysAgo : Metadata := widgetsAt (960 * day) 0.
Definition fetchedYesterday : Metadata := widgetsAt (999 * day) 0.
(** A trust score that is not a number. *)
Definition notANumber : Metadata := widgetsAt (999 * day) 0x7ff8000000000000.

Definition documents : list (string * Metadata) :=
  [("never", fetchedNever); ("40 days ago", fetched40DaysAgo);
   ("yesterday", fetchedYesterday)].

Definition encode (m : Metadata) : option string :=
  fst <$> List.find (fun e : string * Metadata => bool_decide (e.2 = m)) documents.

Definition decode (s : string) : option Metadata :=
  snd <$> List.find (fun e : string * Metadata => String.eqb e.1 s) documents.

#[export] Instance runtime : Runtime :=
  {| jsonEncode := encode; jsonDecode := decode; jsonUnmarshal := decode;
     dirSize := 4096 |}.

Definition c : Cache := {| baseDir := ["home"; ".cache"; "ctx7"] |}.

(** A new cache in an empty file system. *)
Definition fresh : FS := (NewCache ∅ (baseDir c)).1.

(** The cache root exists, the libraries directory does not. *)
Definition rootOnly : FS := <[["home"; ".cache"; "ctx7"] := Dir]>
                              (<[["home"; ".cache"] := Dir]> (<[["home"] := Dir]> ∅)).

Definition store (fs : FS) (id version content : string) (m : Metadata) : FS :=
  (SetWithVersion c fs id version content m now).1.

(** acme/widgets at 1.0, fetched 40 days ago. *)
Definition oneVersion : FS := store fresh "/acme/widgets" "1.0" "old text" fetched40DaysAgo.

(** ... and at 2.0, fetched yesterday. *)
Definition twoVersions : FS := store oneVersion "/acme/widgets" "2.0" "new text" fetchedYesterday.

(** ... and a second document below the directory of 1.0. *)
Definition nested : FS := store oneVersion "/acme/widgets" "1.0/beta" "beta" fetched40DaysAgo.

(** A single version whose fetch timestamp is the zero time. *)
Definition zeroTime : FS := store fresh "/acme/widgets" "1.0" "text" fetchedNever.

(** A document stored under an identifier of one segment. *)
Definition oneSegment : FS := store fresh "acme" "" "text" fetchedYesterday.

(** The metadata of 1.0 damaged. *)
Definition damaged : FS :=
  <[["home"; ".cache"; "ctx7"; "libraries"; "acme"; "widgets"; "1.0"; "metadata.json"]
    := File "{" now]> oneVersion.

Definition prune (dryRun keepLatest : bool) : PruneOptions :=
  {| po_MaxAge := 30 * day; po_DryRun := dryRun; po_KeepLatest := keepLatest |}.

(** The summary of a catalog: the identifiers with their versions. *)
Definition summary (catalog : option (list CachedLibrary) * option error)
    : option (list (string * list string)) :=
  map (fun lib => (cl_LibraryID lib, map vi_Version (cl_Versions lib))) <$> catalog.1.

(** The file system after a write of new content for 1.0 whose
    metadata cannot be encoded. *)
Definition afterFailedWrite : FS :=
  (SetWithVersion c oneVersion "/acme/widgets" "1.0" "new text" notANumber now).1.

Definition statsOfTwoVersions : CacheStats :=
  {| cs_TotalEntries := 2; cs_TotalSize := 36;
     cs_OldestEntry := now; cs_NewestEntry := now;
     cs_CacheDir := baseDir c |}.

Definition statsOfDamaged : CacheStats :=
  {| cs_TotalEntries := 1; cs_TotalSize := 9;
     cs_OldestEntry := now; cs_NewestEntry := now;
     cs_CacheDir := baseDir c |}.

Definition catalogOfTwoVersions : list CachedLibrary :=
  default [] (ListCachedLibraries c twoVersions).1.

Definition afterPrune : FS := (Prune c twoVersions (prune false false) now).1.

Definition pruned : PruneResult :=
  {| pr_RemovedCount := 1; pr_FreedSpace := 19;
     pr_RemovedItems := ["/acme/widgets@1.0"] |}.

(** The metadata files below the libraries directory, in the order of
    the walk, each with its text. *)
Definition metadataFiles (fs : FS) : list (path * string) :=
  omap (fun kn : path * node =>
          match kn.2 with
          | File data _ =>
              if isMetadataFile kn then Some (drop (length (librariesDir c)) kn.1, data)
              else None
          | Dir => None
          end)
       (Os.walkList fs (librariesDir c)).

(** The total size of a statistics result, the items of a prune result. *)
Definition totalSize (r : error + CacheStats) : option Z :=
  match r with inr stats => Some (cs_TotalSize stats) | inl _ => None end.

Definition removedItems (r : error + PruneResult) : option (list string) :=
  match r with inr result => Some (pr_RemovedItems result) | inl _ => None end.

End Demo.

(** ** Further states of the cache of the examples *)

Module DemoAdmin.
Import CacheOps CacheAdmin Demo.
Local Open Scope Z_scope.

(** The two versions of acme/widgets, its default version, and a
    second library. *)
Definition withDefault : FS := store twoVersions "/acme/widgets" "" "text" fetchedYesterday.

Definition twoLibraries : FS := store withDefault "/zeta/tools" "1.0" "tool text" fetched40DaysAgo.

Definition catalogOfTwoLibraries : list CachedLibrary :=
  default [] (ListCachedLibraries c twoLibraries).1.

Definition noLibrary : CachedLibrary :=
  {| cl_LibraryID := ""; cl_Organization := ""; cl_Name := ""; cl_Versions := [] |}.

(** The first library of that catalog: acme/widgets. *)
Definition widgets : CachedLibrary := List.hd noLibrary catalogOfTwoLibraries.

Definition detailedOfTwoLibraries : DetailedCacheStats :=
  match GetDetailedStats c twoLibraries now with
  | inr d => d
  | inl _ => emptyDetailedStats c now
  end.

Definition detailedOfTwoVersions : DetailedCacheStats :=
  match GetDetailedStats c twoVersions now with
  | inr d => d
  | inl _ => emptyDetailedStats c now
  end.

(** The states after a removal. *)
Definition withoutOld : FS := (RemoveLibraryVersion c twoVersions "/acme/widgets" "1.0").1.

Definition withoutNew : FS := (ForceUpdate c twoVersions "/acme/widgets" "2.0").1.

Definition withoutWidgets : FS := (RemoveLibrary c twoLibraries "/acme/widgets").1.

Definition catalogWithoutWidgets : list CachedLibrary :=
  default [] (ListCachedLibraries c withoutWidgets).1.

Definition cleared : FS := (Clear c twoVersions).1.

Definition afterPruneKeepingLatest : FS := (Prune c twoVersions (prune false true) now).1.

(** The flags of [cache prune --days 30 --force] and of
    [cache clear --force]. *)
Definition pruneNow : Cmd.PruneFlags :=
  {| Cmd.pf_days := 30; Cmd.pf_keepLatest := false;
     Cmd.pf_force := true; Cmd.pf_dryRun := false |}.

Definition clearNow : Cmd.ClearFlags :=
  {| Cmd.cf_force := true; Cmd.cf_dryRun := false |}.

(** The summary of the breakdown: identifier, versions, size. *)
Definition rows (d : DetailedCacheStats) : list (string * Z * Z) :=
  map (fun r => (ls_LibraryID r, ls_VersionCount r, ls_TotalSize r))
      (dcs_LibraryBreakdown d).

End DemoAdmin.

(** ** Facts about paths *)

Section PathFacts.

Lemma join_one (p : path) (s : string) :
  Str.splitSlash s = [s] -> s <> "" -> s <> "." -> s <> ".." ->
  Path.join p [s] = p ++ [s].
Proof.
  intros Hs H1 H2 H3. unfold Path.join. simpl. rewrite Hs. simpl.
  apply String.eqb_neq in H1, H2, H3. by rewrite H1, H2, H3.
Qed.

Lemma addSuffix_app (p : path) (s suffix : string) :
  Path.addSuffix (p ++ [s]) suffix = p ++ [String.append s suffix].
Proof.
  unfold Path.addSuffix. rewrite removelast_last, last_last.
  by destruct p.
Qed.

Lemma dir_app (p : path) (s : string) : Path.dir (p ++ [s]) = p.
Proof. apply removelast_last. Qed.

Lemma base_app (p : path) (s : string) : Path.base (p ++ [s]) = s.
Proof. apply last_last. Qed.

Lemma elem_of_chain (p q : path) :
  q ∈ Path.chain p <-> exists n, 1 <= n <= length p /\ q = take n p.
Proof.
  unfold Path.chain. rewrite list_elem_of_fmap. split.
  - intros (n & -> & Hn). apply elem_of_seq in Hn. exists n. split; [lia | done].
  - intros (n & Hn & ->). exists n. split; [done |]. apply elem_of_seq. lia.
Qed.

Lemma chain_length (p q : path) : q ∈ Path.chain p -> 1 <= length q <= length p.
Proof.
  intros (n & Hn & ->)%elem_of_chain. rewrite length_take. lia.
Qed.

Lemma ancestors_app (p : path) (s : string) :
  Path.ancestors (p ++ [s]) = Path.chain p.
Proof.
  unfold Path.ancestors, Path.chain. rewrite length_app. simpl.
  replace (length p + 1 - 1) with (length p) by lia.
  apply map_ext_in. intros n Hn%in_seq.
  rewrite take_app_le by lia. done.
Qed.

Lemma child_not_in_chain (p : path) (s : string) : p ++ [s] ∉ Path.chain p.
Proof.
  intros H%chain_length. rewrite length_app in H. simpl in H. lia.
Qed.

Lemma chain_self (p : path) : p <> [] -> p ∈ Path.chain p.
Proof.
  intros Hp. apply elem_of_chain. exists (length p). split.
  - destruct p; [done | simpl; lia].
  - by rewrite firstn_all.
Qed.

Lemma isPrefix_spec (p q : path) : Path.isPrefix p q = true <-> p `prefix_of` q.
Proof.
  revert q. induction p as [|a p IH]; intros q; simpl.
  - split; [intros _; apply prefix_nil | done].
  - destruct q as [|b q]; simpl.
    + split; [done |]. intros H. by apply prefix_nil_not in H.
    + rewrite andb_true_iff, String.eqb_eq, IH. split.
      * intros [-> H]. by apply prefix_cons.
      * intros H. split; [by eapply prefix_cons_inv_1 | by eapply prefix_cons_inv_2].
Qed.

End PathFacts.

(** ** Facts about the file system *)

Section OsFacts.

Lemma firstErr_None (fs : FS) (qs : list path) :
  Os.firstErr fs qs = None <-> forall q, q ∈ qs -> fs !! q = Some Dir.
Proof.
  induction qs as [|q r IH]; simpl.
  - split; [intros _ q H; by apply elem_of_nil in H | done].
  - unfold Os.dirErr. destruct (fs !! q) as [[|]|] eqn:E.
    + split; [done |]. intros H. specialize (H q (list_elem_of_here _ _)). congruence.
    + rewrite IH. split.
      * intros H q' [-> | Hin]%elem_of_cons; auto.
      * intros H q' Hin. apply H. by apply list_elem_of_further.
    + split; [done |]. intros H. specialize (H q (list_elem_of_here _ _)). congruence.
Qed.

Lemma firstErr_ext (fs fs' : FS) (qs : list path) :
  (forall q, q ∈ qs -> fs' !! q = fs !! q) ->
  Os.firstErr fs' qs = Os.firstErr fs qs.
Proof.
  induction qs as [|q r IH]; intros H; simpl; [done |].
  unfold Os.dirErr. rewrite (H q) by apply list_elem_of_here.
  rewrite IH; [done |]. intros q' Hin. apply H. by apply list_elem_of_further.
Qed.

(** A node is found through its parent's chain of directories. *)
Lemma stat_child (fs : FS) (d : path) (s : string) :
  Os.stat fs (d ++ [s]) =
    match Os.firstErr fs (Path.chain d) with
    | Some e => inl e
    | None => match fs !! (d ++ [s]) with
              | None => inl ENOENT
              | Some n => inr n
              end
    end.
Proof.
  unfold Os.stat. rewrite ancestors_app. by destruct d.
Qed.

Lemma writeFile_child (fs : FS) (d : path) (s data : string) (now : GoTime.Time) :
  Os.writeFile fs (d ++ [s]) data now =
    match Os.firstErr fs (Path.chain d) with
    | Some e => inl e
    | None => match fs !! (d ++ [s]) with
              | Some Dir => inl EISDIR
              | _ => inr (<[d ++ [s] := File data now]> fs)
              end
    end.
Proof.
  unfold Os.writeFile. rewrite ancestors_app. by destruct d.
Qed.

Lemma mkdirs_ok (qs : list path) : forall (fs fs' : FS),
  Os.mkdirs fs qs = inr fs' ->
  (forall q, q ∈ qs -> fs' !! q = Some Dir) /\
  (forall q, q ∉ qs -> fs' !! q = fs !! q) /\
  (forall q, is_Some (fs !! q) -> fs' !! q = fs !! q).
Proof.
  induction qs as [|q r IH]; intros fs fs' H; simpl in H.
  - injection H as <-. split; [|done]. intros q Hq. by apply elem_of_nil in Hq.
  - destruct (fs !! q) as [[|]|] eqn:E; [done | |].
    + destruct (IH _ _ H) as (H1 & H2 & H3). split; [|split].
      * intros q' [-> | Hin]%elem_of_cons; [|by auto].
        rewrite H3; [done | by rewrite E].
      * intros q' Hq'. apply H2. intros Hin. apply Hq'. by apply list_elem_of_further.
      * done.
    + destruct (IH _ _ H) as (H1 & H2 & H3). split; [|split].
      * intros q' [-> | Hin]%elem_of_cons; [|by auto].
        rewrite H3; rewrite lookup_insert_eq; done.
      * intros q' Hq'. rewrite H2.
        -- apply lookup_insert_ne. intros ->. apply Hq'. apply list_elem_of_here.
        -- intros Hin. apply Hq'. by apply list_elem_of_further.
      * intros q' Hq'. destruct (decide (q = q')) as [<- | Hne].
        -- rewrite E in Hq'. by destruct Hq'.
        -- rewrite H3; rewrite lookup_insert_ne by done; done.
Qed.

(** After [os.MkdirAll] the directory and all above it are there, and
    nothing that existed has changed. *)
Lemma mkdirAll_ok (fs fs' : FS) (p : path) :
  Os.mkdirAll fs p = inr fs' ->
  Os.firstErr fs' (Path.chain p) = None /\
  (forall q, q ∉ Path.chain p -> fs' !! q = fs !! q) /\
  (forall q, is_Some (fs !! q) -> fs' !! q = fs !! q).
Proof.
  intros H. destruct (mkdirs_ok _ _ _ H) as (H1 & H2 & H3).
  split; [by apply firstErr_None | done].
Qed.

Lemma firstErr_insert_child (fs : FS) (d : path) (s : string) (n : node) :
  Os.firstErr (<[d ++ [s] := n]> fs) (Path.chain d) = Os.firstErr fs (Path.chain d).
Proof.
  apply firstErr_ext. intros q Hq. apply lookup_insert_ne.
  intros <-. by apply child_not_in_chain in Hq.
Qed.

Lemma firstErr_delete_child (fs : FS) (d : path) (s : string) :
  Os.firstErr (delete (d ++ [s]) fs) (Path.chain d) = Os.firstErr fs (Path.chain d).
Proof.
  apply firstErr_ext. intros q Hq. apply lookup_delete_ne.
  intros <-. by apply child_not_in_chain in Hq.
Qed.

End OsFacts.

(** ** The entry store *)

Section EntryStore.
Context `{RT : Runtime}.
Import CacheOps.

(** Within [maxAge] in Go's arithmetic: the exact difference is at most
    [maxAge], or [maxAge] is the longest duration there is. *)
Lemma since_le (now t : GoTime.Time) (maxAge : GoTime.Duration) :
  (GoTime.minDuration <= maxAge)%Z ->
  (GoTime.since now t <= maxAge)%Z <->
  (now - t <= maxAge)%Z \/ (GoTime.maxDuration <= maxAge)%Z.
Proof.
  unfold GoTime.since, GoTime.sub, GoTime.maxDuration, GoTime.minDuration.
  intros H.
  destruct (Z.ltb_spec (now - t) (- 2 ^ 63)); [lia |].
  destruct (Z.ltb_spec (2 ^ 63 - 1) (now - t)); lia.
Qed.

Lemma since_exact (now t : GoTime.Time) (maxAge : GoTime.Duration) :
  (maxAge < GoTime.maxDuration)%Z ->
  (GoTime.minDuration <= maxAge)%Z ->
  (GoTime.since now t <= maxAge)%Z <-> (now - t <= maxAge)%Z.
Proof. intros H1 H2. rewrite since_le by done. lia. Qed.

(** A read returns the entry that is available. *)
Lemma read_available (c : Cache) (fs : FS) (id version : string)
    (maxAge : GoTime.Duration) (now : GoTime.Time) (entry : CacheEntry) :
  available c fs id version maxAge now entry ->
  GetWithVersion c fs id version maxAge now = inr entry.
Proof.
  intros (data & mtime & Hm & Hd & Hage & Hc).
  unfold GetWithVersion, metadataPath, contentPath in *.
  change (Path.join (getCacheDir c id version) ["metadata.json"])
    with (getCacheDir c id version ++ ["metadata.json"]).
  change (Path.join (getCacheDir c id version) ["content.txt"])
    with (getCacheDir c id version ++ ["content.txt"]).
  rewrite Hm. cbn [decodeNode]. rewrite Hd.
  destruct (Z.gtb_spec (GoTime.since now (md_FetchedAt (ce_Metadata entry))) maxAge);
    [lia |].
  rewrite Hc. by destruct entry.
Qed.

(** C3: a read returns an entry exactly when that entry is available
    (metadata opens and decodes, timestamp within [maxAge], content
    readable), the entry being the whole decoded record and the whole
    content; in every other case it fails with one of the errors of a
    cache miss. *)
Theorem GetWithVersion_exactly_when_available
    (c : Cache) (fs : FS) (id version : string)
    (maxAge : GoTime.Duration) (now : GoTime.Time) :
  (forall entry,
      GetWithVersion c fs id version maxAge now = inr entry <->
      available c fs id version maxAge now entry) /\
  ((~ exists entry, available c fs id version maxAge now entry) ->
   exists e, GetWithVersion c fs id version maxAge now = inl e /\
             isCacheMiss e = true).
Proof.
  unfold available, GetWithVersion, metadataPath, contentPath.
  change (Path.join (getCacheDir c id version) ["metadata.json"])
    with (getCacheDir c id version ++ ["metadata.json"]).
  change (Path.join (getCacheDir c id version) ["content.txt"])
    with (getCacheDir c id version ++ ["content.txt"]).
  set (M := getCacheDir c id version ++ ["metadata.json"]).
  set (C := getCacheDir c id version ++ ["content.txt"]).
  destruct (Os.stat fs M) as [e | [data mtime |]] eqn:EM; simpl.
  - split.
    + intros entry. split; [done |]. by intros (? & ? & ? & _).
    + intros _. by exists (CacheMiss e).
  - destruct (jsonDecode data) as [md |] eqn:ED.
    + destruct (Z.gtb_spec (GoTime.since now (md_FetchedAt md)) maxAge) as [Hexp | Hok].
      * split.
        -- intros entry. split; [done |].
           intros (d & t & [= <- <-] & Hd & Hage & _).
           rewrite ED in Hd. injection Hd as Hd. rewrite <- Hd in Hage. lia.
        -- intros _. by exists CacheExpired.
      * destruct (Os.readFile fs C) as [e | bytes] eqn:EC.
        -- split.
           ++ intros entry. split; [done |]. by intros (? & ? & _ & _ & _ & ?).
           ++ intros _. by exists (ReadContentFailed e).
        -- split.
           ++ intros entry. split.
              ** intros [= <-]. by exists data, mtime.
              ** intros (d & t & [= <- <-] & Hd & _ & [= Hc]).
                 rewrite ED in Hd. injection Hd as Hd.
                 destruct entry; simpl in *; by subst.
           ++ intros Hno. exfalso. apply Hno.
              exists {| ce_Metadata := md; ce_Content := bytes |}.
              by exists data, mtime.
    + split.
      * intros entry. split; [done |].
        intros (d & t & [= <- <-] & Hd & _). congruence.
      * intros _. by exists DecodeMetadataFailed.
  - split.
    + intros entry. split; [done |]. by intros (? & ? & ? & _).
    + intros _. by exists DecodeMetadataFailed.
Qed.

(** *** Writing an entry *)

Lemma child_ne (d : path) (a b : string) : a <> b -> d ++ [a] <> d ++ [b].
Proof. intros Hab H. apply app_inv_head in H. congruence. Qed.

Lemma rename_file_child (fs : FS) (d : path) (a b data : string) (t : GoTime.Time) :
  Os.firstErr fs (Path.chain d) = None ->
  fs !! (d ++ [a]) = Some (File data t) ->
  Os.rename fs (d ++ [a]) (d ++ [b]) =
    match fs !! (d ++ [b]) with
    | Some Dir => inl EEXIST
    | _ => inr (<[d ++ [b] := File data t]> (delete (d ++ [a]) fs))
    end.
Proof.
  intros Hd Ha. unfold Os.rename. rewrite !stat_child, ancestors_app, Hd, Ha.
  by destruct (fs !! (d ++ [b])) as [[|]|].
Qed.

Lemma removeQuiet_file_child (fs : FS) (d : path) (a data : string) (t : GoTime.Time) :
  Os.firstErr fs (Path.chain d) = None ->
  fs !! (d ++ [a]) = Some (File data t) ->
  removeQuiet fs (d ++ [a]) = delete (d ++ [a]) fs.
Proof.
  intros Hd Ha. unfold removeQuiet, Os.remove. by rewrite stat_child, Hd, Ha.
Qed.

Lemma SetWithVersion_paths (c : Cache) (id version : string) :
  Path.join (getCacheDir c id version) ["content.txt"] = contentPath c id version /\
  Path.addSuffix (Path.join (getCacheDir c id version) ["content.txt"]) ".tmp"
    = tmpContentPath c id version /\
  Path.join (getCacheDir c id version) ["metadata.json"] = metadataPath c id version /\
  Path.addSuffix (Path.join (getCacheDir c id version) ["metadata.json"]) ".tmp"
    = tmpMetadataPath c id version.
Proof.
  change (Path.join (getCacheDir c id version) ["content.txt"])
    with (getCacheDir c id version ++ ["content.txt"]).
  change (Path.join (getCacheDir c id version) ["metadata.json"])
    with (getCacheDir c id version ++ ["metadata.json"]).
  by rewrite !addSuffix_app.
Qed.

Lemma SetWithVersion_outcome (c : Cache) (fs : FS) (id version content : string)
    (metadata : Metadata) (now : GoTime.Time) :
  SetOutcome c id version content metadata now fs
    (SetWithVersion c fs id version content metadata now).1
    (SetWithVersion c fs id version content metadata now).2.
Proof.
  unfold SetWithVersion.
  destruct (SetWithVersion_paths c id version) as (-> & -> & -> & ->).
  destruct (Os.mkdirAll fs (getCacheDir c id version)) as [e | fs1] eqn:Emk.
  { by apply SetNoDir. }
  destruct (mkdirAll_ok _ _ _ Emk) as (Hdirs & _ & _).
  unfold tmpContentPath, contentPath, tmpMetadataPath, metadataPath in *.
  set (d := getCacheDir c id version) in *.
  assert (HtC_C : d ++ ["content.txt.tmp"] <> d ++ ["content.txt"]) by by apply child_ne.
  assert (HtC_tM : d ++ ["content.txt.tmp"] <> d ++ ["metadata.json.tmp"]) by by apply child_ne.
  assert (HtC_M : d ++ ["content.txt.tmp"] <> d ++ ["metadata.json"]) by by apply child_ne.
  assert (HC_tM : d ++ ["content.txt"] <> d ++ ["metadata.json.tmp"]) by by apply child_ne.
  assert (HC_M : d ++ ["content.txt"] <> d ++ ["metadata.json"]) by by apply child_ne.
  assert (HtM_M : d ++ ["metadata.json.tmp"] <> d ++ ["metadata.json"]) by by apply child_ne.
  (* the temporary content file *)
  rewrite writeFile_child, Hdirs.
  destruct (decide (fs1 !! (d ++ ["content.txt.tmp"]) = Some Dir)) as [EtC | EtC].
  { rewrite EtC. cbn [fst snd]. by eapply SetNoTmpContent. }
  set (fs2 := <[d ++ ["content.txt.tmp"] := File content now]> fs1).
  replace (match fs1 !! (d ++ ["content.txt.tmp"]) with
           | Some Dir => inl EISDIR
           | _ => inr fs2
           end) with (@inr errno FS fs2)
    by (by destruct (fs1 !! (d ++ ["content.txt.tmp"])) as [[|]|]).
  assert (Hdirs2 : Os.firstErr fs2 (Path.chain d) = None)
    by (unfold fs2; by rewrite firstErr_insert_child).
  assert (HtC2 : fs2 !! (d ++ ["content.txt.tmp"]) = Some (File content now))
    by apply lookup_insert_eq.
  (* moved into place *)
  rewrite (rename_file_child _ _ _ _ _ _ Hdirs2 HtC2).
  assert (HC2 : fs2 !! (d ++ ["content.txt"]) = fs1 !! (d ++ ["content.txt"]))
    by by apply lookup_insert_ne.
  rewrite HC2.
  destruct (decide (fs1 !! (d ++ ["content.txt"]) = Some Dir)) as [EC | EC].
  { rewrite EC. cbn [fst snd]. rewrite (removeQuiet_file_child _ _ _ _ _ Hdirs2 HtC2).
    unfold fs2. rewrite delete_insert_eq. by eapply SetNoContent. }
  set (fs3 := <[d ++ ["content.txt"] := File content now]>
                (delete (d ++ ["content.txt.tmp"]) fs2)).
  replace (match fs1 !! (d ++ ["content.txt"]) with
           | Some Dir => inl EEXIST
           | _ => inr fs3
           end) with (@inr errno FS fs3)
    by (by destruct (fs1 !! (d ++ ["content.txt"])) as [[|]|]).
  assert (Efs3 : fs3 = <[d ++ ["content.txt"] := File content now]>
                         (delete (d ++ ["content.txt.tmp"]) fs1))
    by (unfold fs3, fs2; by rewrite delete_insert_eq).
  assert (Hdirs3 : Os.firstErr fs3 (Path.chain d) = None)
    by (unfold fs3; by rewrite firstErr_insert_child, firstErr_delete_child).
  (* the temporary metadata file *)
  rewrite writeFile_child, Hdirs3.
  assert (HtM3 : fs3 !! (d ++ ["metadata.json.tmp"]) = fs1 !! (d ++ ["metadata.json.tmp"])).
  { rewrite Efs3. rewrite lookup_insert_ne by done. by rewrite lookup_delete_ne. }
  rewrite HtM3.
  destruct (decide (fs1 !! (d ++ ["metadata.json.tmp"]) = Some Dir)) as [EtM | EtM].
  { rewrite EtM. cbn [fst snd]. rewrite Efs3. by eapply SetNoTmpMetadata. }
  set (fs4 := <[d ++ ["metadata.json.tmp"] := File "" now]> fs3).
  replace (match fs1 !! (d ++ ["metadata.json.tmp"]) with
           | Some Dir => inl EISDIR
           | _ => inr fs4
           end) with (@inr errno FS fs4)
    by (by destruct (fs1 !! (d ++ ["metadata.json.tmp"])) as [[|]|]).
  assert (Hdirs4 : Os.firstErr fs4 (Path.chain d) = None)
    by (unfold fs4; by rewrite firstErr_insert_child).
  destruct (jsonEncode metadata) as [bytes |] eqn:Eenc.
  2: { cbn [fst snd]. rewrite (removeQuiet_file_child fs4 d _ "" now Hdirs4)
         by apply lookup_insert_eq.
       unfold fs4. rewrite delete_insert_eq, Efs3. by eapply SetNoEncoding. }
  cbv zeta. set (fs5 := <[d ++ ["metadata.json.tmp"] := File bytes now]> fs4).
  assert (Hdirs5 : Os.firstErr fs5 (Path.chain d) = None)
    by (unfold fs5; by rewrite firstErr_insert_child).
  assert (HtM5 : fs5 !! (d ++ ["metadata.json.tmp"]) = Some (File bytes now))
    by apply lookup_insert_eq.
  rewrite (rename_file_child _ _ _ _ _ _ Hdirs5 HtM5).
  assert (HM5 : fs5 !! (d ++ ["metadata.json"]) = fs1 !! (d ++ ["metadata.json"])).
  { unfold fs5, fs4. rewrite !lookup_insert_ne by done. rewrite Efs3.
    rewrite lookup_insert_ne by done. by rewrite lookup_delete_ne. }
  rewrite HM5.
  assert (Edel : delete (d ++ ["metadata.json.tmp"]) fs5 =
                 delete (d ++ ["metadata.json.tmp"])
                   (<[d ++ ["content.txt"] := File content now]>
                      (delete (d ++ ["content.txt.tmp"]) fs1))).
  { unfold fs5, fs4. by rewrite !delete_insert_eq, Efs3. }
  destruct (decide (fs1 !! (d ++ ["metadata.json"]) = Some Dir)) as [EM | EM].
  { rewrite EM. cbn [fst snd].
    change (removeQuiet _ _) with (removeQuiet fs5 (d ++ ["metadata.json.tmp"])).
    rewrite (removeQuiet_file_child _ _ _ _ _ Hdirs5 HtM5), Edel.
    by eapply SetNoMetadata. }
  replace (match fs1 !! (d ++ ["metadata.json"]) with
           | Some Dir => inl EEXIST
           | _ => inr (<[d ++ ["metadata.json"] := File bytes now]>
                         (delete (d ++ ["metadata.json.tmp"]) fs5))
           end)
    with (@inr errno FS (<[d ++ ["metadata.json"] := File bytes now]>
                           (delete (d ++ ["metadata.json.tmp"]) fs5)))
    by (by destruct (fs1 !! (d ++ ["metadata.json"])) as [[|]|]).
  cbn [fst snd]. rewrite Edel. by eapply SetDone.
Qed.


(** C1 (amended): content and metadata each go through a temporary
    file in the entry directory and a rename.  After a successful
    write both files hold the new data and no temporary file is left.
    When a rename or the encoding fails, the temporary file of that
    step is gone and the error is returned.  After any failure the
    committed metadata file is as it was; the committed content file
    is as it was when the failure came no later than the rename of
    the content, and already holds the new content otherwise. *)
Theorem write_outcome
    (c : Cache) (fs fs' : FS) (id version content : string) (metadata : Metadata)
    (now : GoTime.Time) (result : option error) :
  SetWithVersion c fs id version content metadata now = (fs', result) ->
  match result with
  | None =>
      exists bytes,
        jsonEncode metadata = Some bytes /\
        fs' !! metadataPath c id version = Some (File bytes now) /\
        fs' !! contentPath c id version = Some (File content now) /\
        fs' !! tmpMetadataPath c id version = None /\
        fs' !! tmpContentPath c id version = None
  | Some err =>
      fs' !! metadataPath c id version = fs !! metadataPath c id version /\
      (if beforeContentRename err
       then fs' !! contentPath c id version = fs !! contentPath c id version
       else fs' !! contentPath c id version = Some (File content now)) /\
      match err with
      | SaveContentFailed _ => fs' !! tmpContentPath c id version = None
      | EncodeMetadataFailed | SaveMetadataFailed _ =>
          fs' !! tmpMetadataPath c id version = None
      | _ => True
      end
  end.
Proof.
  intros Hset.
  pose proof (SetWithVersion_outcome c fs id version content metadata now) as Hout.
  rewrite Hset in Hout. cbn [fst snd] in Hout.
  assert (Hkeep : forall fs1 s, Os.mkdirAll fs (getCacheDir c id version) = inr fs1 ->
                    fs1 !! (getCacheDir c id version ++ [s])
                    = fs !! (getCacheDir c id version ++ [s])).
  { intros fs1 s Emk. destruct (mkdirAll_ok _ _ _ Emk) as (_ & Hout' & _).
    apply Hout'. apply child_not_in_chain. }
  inversion Hout as [ e Emk
                    | fs1 Emk EtC
                    | fs1 Emk EtC EC
                    | fs1 Emk EtC EC EtM
                    | fs1 Emk EtC EC EtM Eenc
                    | fs1 bytes Emk EtC EC EtM Eenc EM
                    | fs1 bytes Emk EtC EC EtM Eenc EM ]; subst; cbn [beforeContentRename];
    unfold metadataPath, contentPath, tmpMetadataPath, tmpContentPath in *.
  - done.
  - by rewrite !(Hkeep _ _ Emk).
  - rewrite !lookup_delete_ne by (by apply child_ne).
    rewrite !(Hkeep _ _ Emk). by rewrite lookup_delete_eq.
  - rewrite lookup_insert_eq.
    rewrite lookup_insert_ne by (by apply child_ne).
    rewrite lookup_delete_ne by (by apply child_ne).
    by rewrite (Hkeep _ _ Emk).
  - rewrite lookup_delete_eq.
    rewrite !lookup_delete_ne by (by apply child_ne).
    rewrite lookup_insert_eq.
    rewrite lookup_insert_ne by (by apply child_ne).
    rewrite lookup_delete_ne by (by apply child_ne).
    by rewrite (Hkeep _ _ Emk).
  - rewrite lookup_delete_eq.
    rewrite !lookup_delete_ne by (by apply child_ne).
    rewrite lookup_insert_eq.
    rewrite lookup_insert_ne by (by apply child_ne).
    rewrite lookup_delete_ne by (by apply child_ne).
    by rewrite (Hkeep _ _ Emk).
  - exists bytes. split; [done |].
    rewrite lookup_insert_eq.
    rewrite !lookup_insert_ne by (by apply child_ne).
    rewrite lookup_delete_eq.
    rewrite !lookup_delete_ne by (by apply child_ne).
    rewrite lookup_insert_eq.
    rewrite lookup_insert_ne by (by apply child_ne).
    by rewrite lookup_delete_eq.
Qed.

End EntryStore.

(** ** Machine sums *)

Section Int64Facts.
Local Open Scope Z_scope.

Lemma sumZ_app (l k : list Z) : sumZ (l ++ k) = sumZ l + sumZ k.
Proof. unfold sumZ. induction l as [|x l IH]; simpl; lia. Qed.

Lemma sumZ_perm (l k : list Z) : l ≡ₚ k -> sumZ l = sumZ k.
Proof. unfold sumZ. induction 1; simpl; lia. Qed.

Lemma wrap_add_l (a b : Z) : Int64.wrap (Int64.wrap a + b) = Int64.wrap (a + b).
Proof.
  unfold Int64.wrap. f_equal.
  replace ((a + 2 ^ 63) mod 2 ^ 64 - 2 ^ 63 + b + 2 ^ 63)
    with ((a + 2 ^ 63) mod 2 ^ 64 + b) by lia.
  rewrite Zplus_mod_idemp_l. f_equal. lia.
Qed.

Lemma wrap_add_r (a b : Z) : Int64.wrap (a + Int64.wrap b) = Int64.wrap (a + b).
Proof. rewrite (Z.add_comm a), wrap_add_l. f_equal. lia. Qed.

Lemma wrap_small (z : Z) : - 2 ^ 63 <= z < 2 ^ 63 -> Int64.wrap z = z.
Proof. intros H. unfold Int64.wrap. rewrite Z.mod_small; lia. Qed.

Lemma fold_add_wrap (l : list Z) (a : Z) :
  fold_left Int64.add l (Int64.wrap a) = Int64.wrap (a + sumZ l).
Proof.
  revert a. induction l as [|x l IH]; intros a; simpl.
  - f_equal. lia.
  - unfold Int64.add at 2. rewrite wrap_add_l, IH. f_equal. lia.
Qed.

(** The running int64 total is the exact sum wrapped once. *)
Lemma sum_wrap (l : list Z) : Int64.sum l = Int64.wrap (sumZ l).
Proof.
  unfold Int64.sum. change 0 with (Int64.wrap 0) at 1. by rewrite fold_add_wrap.
Qed.

Lemma sum_exact (l : list Z) :
  - 2 ^ 63 <= sumZ l < 2 ^ 63 -> Int64.sum l = sumZ l.
Proof. intros H. rewrite sum_wrap. by apply wrap_small. Qed.

Lemma sum_snoc (l : list Z) (x : Z) :
  Int64.sum (l ++ [x]) = Int64.add (Int64.sum l) x.
Proof. unfold Int64.sum. by rewrite fold_left_app. Qed.

End Int64Facts.

(** ** The retention engine *)

Section Retention.
Context `{RT : Runtime}.
Import CacheOps.

Lemma recordRemoval_resultOf removed lib v :
  recordRemoval (resultOf removed) lib v = resultOf (removed ++ [(lib, v)]).
Proof.
  unfold recordRemoval, resultOf. cbn [pr_RemovedCount pr_FreedSpace pr_RemovedItems].
  rewrite !map_app, length_app. cbn [map length fst snd]. rewrite sum_snoc.
  f_equal. lia.
Qed.

Lemma pruneVersion_selected c opts now latest lib st v :
  pruneVersion c opts now latest lib st v =
    if selected opts now latest (lib, v) then
      if po_DryRun opts then (st.1, recordRemoval st.2 lib v)
      else match RemoveLibraryVersion c st.1 (cl_LibraryID lib) (vi_Version v) with
           | (fs', Some _) => (fs', st.2)
           | (fs', None) => (fs', recordRemoval st.2 lib v)
           end
    else st.
Proof.
  unfold pruneVersion, selected. cbn [fst snd].
  destruct (po_KeepLatest opts
            && String.eqb (default "" (latest !! cl_LibraryID lib)) (vi_Version v));
    [done |].
  by destruct (GoTime.sub now (vi_FetchedAt v) >? po_MaxAge opts)%Z.
Qed.

(** One step of the loop records the entry or nothing, and records
    it only if it is selected; a dry run records every selected entry
    and leaves the file system alone. *)
Lemma pruneVersion_trace c opts now latest lib st v removed :
  st.2 = resultOf removed ->
  exists more,
    (pruneVersion c opts now latest lib st v).2 = resultOf (removed ++ more) /\
    more `sublist_of` List.filter (selected opts now latest) [(lib, v)] /\
    (po_DryRun opts = true ->
     (pruneVersion c opts now latest lib st v).1 = st.1 /\
     more = List.filter (selected opts now latest) [(lib, v)]).
Proof.
  intros Hst. rewrite pruneVersion_selected. cbn [List.filter].
  destruct (selected opts now latest (lib, v)).
  - destruct (po_DryRun opts).
    + exists [(lib, v)]. cbn [fst snd]. by rewrite Hst, recordRemoval_resultOf.
    + destruct (RemoveLibraryVersion c st.1 (cl_LibraryID lib) (vi_Version v))
        as [fs' [err |]]; cbn [fst snd].
      * exists []. rewrite app_nil_r. split; [done |]. split; [|done].
        apply sublist_nil_l.
      * exists [(lib, v)]. by rewrite Hst, recordRemoval_resultOf.
  - exists []. by rewrite app_nil_r.
Qed.

Lemma pruneLibrary_trace c opts now latest lib : forall vs st removed,
  st.2 = resultOf removed ->
  exists more,
    (fold_left (pruneVersion c opts now latest lib) vs st).2
      = resultOf (removed ++ more) /\
    more `sublist_of` List.filter (selected opts now latest) (map (pair lib) vs) /\
    (po_DryRun opts = true ->
     (fold_left (pruneVersion c opts now latest lib) vs st).1 = st.1 /\
     more = List.filter (selected opts now latest) (map (pair lib) vs)).
Proof.
  induction vs as [|v vs IH]; intros st removed Hst; simpl fold_left.
  - exists []. rewrite app_nil_r. by split.
  - destruct (pruneVersion_trace c opts now latest lib st v removed Hst)
      as (m1 & H1 & S1 & D1).
    destruct (IH _ _ H1) as (m2 & H2 & S2 & D2).
    exists (m1 ++ m2). rewrite app_assoc. split; [done |].
    change (map (pair lib) (v :: vs)) with ([(lib, v)] ++ map (pair lib) vs).
    rewrite List.filter_app. split.
    + by apply sublist_app.
    + intros Hdry. destruct (D1 Hdry) as [E1 ->]. destruct (D2 Hdry) as [E2 ->].
      split; [congruence | done].
Qed.

Lemma pruneLibraries_trace c opts now latest : forall libs st removed,
  st.2 = resultOf removed ->
  exists more,
    (fold_left (pruneLibrary c opts now latest) libs st).2
      = resultOf (removed ++ more) /\
    more `sublist_of` List.filter (selected opts now latest) (entries libs) /\
    (po_DryRun opts = true ->
     (fold_left (pruneLibrary c opts now latest) libs st).1 = st.1 /\
     more = List.filter (selected opts now latest) (entries libs)).
Proof.
  induction libs as [|lib libs IH]; intros st removed Hst; simpl fold_left.
  - exists []. rewrite app_nil_r. by split.
  - destruct (pruneLibrary_trace c opts now latest lib (cl_Versions lib) st removed Hst)
      as (m1 & H1 & S1 & D1).
    destruct (IH _ _ H1) as (m2 & H2 & S2 & D2).
    exists (m1 ++ m2). rewrite app_assoc. split; [done |].
    unfold entries. simpl. fold (entries libs).
    rewrite List.filter_app. split.
    + by apply sublist_app.
    + intros Hdry. destruct (D1 Hdry) as [E1 ->]. destruct (D2 Hdry) as [E2 ->].
      split; [|done]. etrans; [exact E2 | exact E1].
Qed.

(** The whole pass over a catalog. *)
Lemma pruneAll_trace c opts now libs fs :
  exists removed,
    (pruneAll c opts now libs fs).2 = resultOf removed /\
    removed `sublist_of`
      List.filter (selected opts now (latestVersionsOf opts libs)) (entries libs) /\
    (po_DryRun opts = true ->
     (pruneAll c opts now libs fs).1 = fs /\
     removed = List.filter (selected opts now (latestVersionsOf opts libs)) (entries libs)).
Proof.
  unfold pruneAll.
  destruct (pruneLibraries_trace c opts now (latestVersionsOf opts libs) libs
              (fs, emptyResult) [] eq_refl) as (more & H & S & D).
  exists more. done.
Qed.

Lemma ListCachedLibraries_shape c fs :
  (exists libs, ListCachedLibraries c fs = (Some libs, None)) \/
  (exists e, ListCachedLibraries c fs = (None, Some e)).
Proof.
  unfold ListCachedLibraries.
  destruct (Os.stat fs _) as [e | n]; [|by left; eexists].
  destruct (Os.isNotExist e); [left | right]; by eexists.
Qed.

Lemma sublist_map {A B} (f : A -> B) (l k : list A) :
  l `sublist_of` k -> map f l `sublist_of` map f k.
Proof. induction 1; simpl; by constructor. Qed.

Lemma sublist_filter_bool {A} (f : A -> bool) (l : list A) :
  List.filter f l `sublist_of` l.
Proof.
  induction l as [|x l IH]; simpl; [constructor |].
  destruct (f x); by constructor.
Qed.

Lemma sublist_same_length {A} (l k : list A) :
  l `sublist_of` k -> length k <= length l -> l = k.
Proof.
  induction 1 as [| x l k _ IH | x l k Hsub _]; simpl; intros Hlen.
  - done.
  - f_equal. apply IH. lia.
  - apply sublist_length in Hsub. lia.
Qed.

(** C9: the result of a prune that returns is consistent: there is
    one list of catalog entries, in catalog order and all of them
    selected by the age and keep-latest rules (all the selected ones in
    a dry run), such that the items are the labels of these entries,
    the count is their number, and the freed space is the sum of their
    sizes (as an int64). *)
Theorem prune_result_consistent
    (c : Cache) (fs fs' : FS) (opts : PruneOptions) (now : GoTime.Time)
    (result : PruneResult) :
  Prune c fs opts now = (fs', inr result) ->
  pr_RemovedCount result = Z.of_nat (length (pr_RemovedItems result)) /\
  exists libraries removed,
    ListCachedLibraries c fs = (Some libraries, None) /\
    removed `sublist_of`
      List.filter (selected opts now (latestVersionsOf opts libraries))
                  (entries libraries) /\
    (po_DryRun opts = true ->
     removed = List.filter (selected opts now (latestVersionsOf opts libraries))
                           (entries libraries)) /\
    pr_RemovedItems result = map (fun lv => itemName lv.1 lv.2) removed /\
    pr_RemovedCount result = Z.of_nat (length removed) /\
    pr_FreedSpace result = Int64.wrap (sumZ (map (fun lv => vi_Size lv.2) removed)).
Proof.
  unfold Prune. intros H.
  destruct (ListCachedLibraries_shape c fs) as [[libs E] | [e E]]; rewrite E in H;
    [| done].
  destruct (pruneAll_trace c opts now libs fs) as (removed & Hres & Hsub & Hdry).
  destruct (pruneAll c opts now libs fs) as [fs1 r]. cbn [snd] in Hres.
  injection H as _ <-. subst r.
  cbn [resultOf pr_RemovedCount pr_RemovedItems pr_FreedSpace].
  split; [by rewrite length_map |].
  exists libs, removed. split; [done |]. split; [done |]. split.
  - intros Hd. by destruct (Hdry Hd).
  - by rewrite sum_wrap.
Qed.

Lemma prune_dry_run_frame (c : Cache) (fs : FS) (opts : PruneOptions)
    (now : GoTime.Time) :
  (Prune c fs (withDryRun opts true) now).1 = fs.
Proof.
  unfold Prune.
  destruct (ListCachedLibraries_shape c fs) as [[libs E] | [e E]]; rewrite E;
    [| done].
  destruct (pruneAll_trace c (withDryRun opts true) now libs fs)
    as (removed & _ & _ & Hdry).
  destruct (Hdry eq_refl) as [Hfs _].
  by destruct (pruneAll c (withDryRun opts true) now libs fs).
Qed.

(** X26: a dry run changes nothing in the file system, so the catalog
    is the same before and after.  A real prune of the same cache state
    under the same clock reports the selected entries whose removal
    succeeded: its items are a sub-list of the dry run's, its count is
    no larger, and when the counts agree the two results are the same. *)
Lemma prune_dry_run_preview
    (c : Cache) (fs : FS) (opts : PruneOptions) (now : GoTime.Time) :
  let dry := Prune c fs (withDryRun opts true) now in
  let real := Prune c dry.1 (withDryRun opts false) now in
  dry.1 = fs /\
  ListCachedLibraries c dry.1 = ListCachedLibraries c fs /\
  match dry.2, real.2 with
  | inr d, inr r =>
      pr_RemovedItems r `sublist_of` pr_RemovedItems d /\
      (pr_RemovedCount r <= pr_RemovedCount d)%Z /\
      (pr_RemovedCount r = pr_RemovedCount d -> r = d)
  | inl e, inl e' => e = e'
  | _, _ => False
  end.
Proof.
  cbv zeta. rewrite prune_dry_run_frame. split; [done |]. split; [done |].
  unfold Prune.
  destruct (ListCachedLibraries_shape c fs) as [[libs E] | [e E]]; rewrite E;
    [| done].
  destruct (pruneAll_trace c (withDryRun opts true) now libs fs)
    as (dryRemoved & Hd & _ & Hdry).
  destruct (Hdry eq_refl) as [_ ->].
  destruct (pruneAll_trace c (withDryRun opts false) now libs fs)
    as (realRemoved & Hr & Hsub & _).
  change (latestVersionsOf (withDryRun opts false) libs)
    with (latestVersionsOf (withDryRun opts true) libs) in Hsub.
  change (selected (withDryRun opts false)) with (selected (withDryRun opts true)) in Hsub.
  destruct (pruneAll c (withDryRun opts true) now libs fs) as [fsd d].
  destruct (pruneAll c (withDryRun opts false) now libs fs) as [fsr r].
  cbn [fst snd] in *. subst d r.
  cbn [resultOf pr_RemovedCount pr_RemovedItems].
  split; [by apply sublist_map |]. split.
  - apply sublist_length in Hsub. lia.
  - intros Hlen. f_equal. apply sublist_same_length; [done | lia].
Qed.

End Retention.

(** ** The catalog and the lifecycle operations *)

Section Lifecycle.
Context `{RT : Runtime}.
Import CacheOps.

Lemma librariesDir_join (c : Cache) :
  Path.join (baseDir c) ["libraries"] = librariesDir c.
Proof. reflexivity. Qed.

(** C10: when the libraries directory does not exist, the scan
    returns an empty list that is not nil, and no error. *)
Theorem list_without_libraries_dir (c : Cache) (fs : FS) :
  Os.stat fs (librariesDir c) = inl ENOENT ->
  ListCachedLibraries c fs = (Some [], None).
Proof.
  intros H. unfold ListCachedLibraries. by rewrite librariesDir_join, H.
Qed.

(** C6 (amended): an identifier that, after one leading separator is
    stripped, has fewer than two segments makes [RemoveLibrary], and
    [ForceUpdate] without a version, fail with the error of an invalid
    identifier, and the file system stays as it was. *)
Theorem remove_library_rejects_short_id (c : Cache) (fs : FS) (id : string) :
  length (Str.splitSlash (Str.trimPrefixSlash id)) < 2 ->
  RemoveLibrary c fs id = (fs, Some (InvalidLibraryID (Str.trimPrefixSlash id))) /\
  ForceUpdate c fs id "" = (fs, Some (InvalidLibraryID (Str.trimPrefixSlash id))).
Proof.
  intros H. unfold ForceUpdate. cbn [String.eqb]. unfold RemoveLibrary.
  destruct (Str.splitSlash (Str.trimPrefixSlash id)) as [|org [|library rest]];
    [done | done | simpl in H; lia].
Qed.

(** X29: [RemoveLibrary] raises the error of an invalid identifier in
    no other case: whenever it returns that error, the identifier has
    fewer than two segments after its leading separator. *)
Lemma remove_library_invalid_only (c : Cache) (fs : FS) (id s : string) :
  (RemoveLibrary c fs id).2 = Some (InvalidLibraryID s) ->
  length (Str.splitSlash (Str.trimPrefixSlash id)) < 2.
Proof.
  unfold RemoveLibrary.
  destruct (Str.splitSlash (Str.trimPrefixSlash id)) as [|org [|library rest]];
    [simpl; lia | simpl; lia |].
  destruct (Os.stat fs _) as [[] | n]; try done;
    by destruct (Os.removeAll fs _).
Qed.

End Lifecycle.

(** ** The statistics and the catalog *)

Section SortFacts.
Context {A : Type} (less : A -> A -> bool).

Lemma sink_perm (x : A) (l : list A) : Sort.sink less x l ≡ₚ x :: l.
Proof.
  induction l as [|y l IH]; simpl; [done |].
  destruct (less x y); [|done]. rewrite IH. apply perm_swap.
Qed.

Lemma insertions_perm (l acc : list A) :
  fold_left (fun acc x => Sort.sink less x acc) l acc ≡ₚ l ++ acc.
Proof.
  revert acc. induction l as [|x l IH]; intros acc; simpl; [done |].
  rewrite IH, sink_perm. by rewrite Permutation_middle.
Qed.

(** Sorting rearranges the slice and does nothing else. *)
Lemma slice_perm (l : list A) : Sort.slice less l ≡ₚ l.
Proof.
  unfold Sort.slice. rewrite <- Permutation_rev, insertions_perm.
  by rewrite app_nil_r.
Qed.

End SortFacts.

Section Statistics.
Context `{RT : Runtime}.
Import CacheOps.
Local Open Scope Z_scope.

Lemma listVisit_visited fs librariesDir libraryMap kn :
  listVisit fs librariesDir libraryMap kn =
    match visitedVersion fs librariesDir kn with
    | Some onv => addVersion libraryMap onv
    | None => libraryMap
    end.
Proof.
  unfold listVisit, visitedVersion, isMetadataFile.
  destruct (isDir kn.2); [done |]. cbn [negb orb andb].
  destruct (String.eqb (Path.base kn.1) "metadata.json"); [|done]. cbn [negb].
  destruct (Os.readFile fs kn.1) as [e | data]; [done |].
  destruct (jsonUnmarshal data) as [metadata |]; [|done].
  destruct (drop (length librariesDir) kn.1) as [|org [|name [|version rest]]];
    done.
Qed.

Lemma visitedVersion_catalogued fs librariesDir kn :
  isMetadataFile kn = true -> catalogued fs librariesDir kn ->
  exists org name v,
    visitedVersion fs librariesDir kn = Some (org, name, v) /\
    vi_Size v = recordedSize fs kn.
Proof.
  intros Hm [(data & metadata & Hr & Hu) Hlen].
  unfold visitedVersion. rewrite Hm, Hr, Hu.
  destruct (drop (length librariesDir) kn.1) as [|org [|name [|version rest]]];
    try (simpl in Hlen; lia).
  by eexists _, _, _.
Qed.

Lemma visitedVersion_metadata fs librariesDir kn onv :
  visitedVersion fs librariesDir kn = Some onv -> isMetadataFile kn = true.
Proof. unfold visitedVersion. by destruct (isMetadataFile kn). Qed.

(** *** The total of a catalog *)

Lemma libraryTotal_appendVersion lib v :
  libraryTotal (appendVersion lib v) = libraryTotal lib + vi_Size v.
Proof.
  unfold libraryTotal, appendVersion. cbn [cl_Versions].
  rewrite map_app, sumZ_app. simpl. lia.
Qed.

Lemma libraryTotal_sortVersions lib :
  libraryTotal (sortVersions lib) = libraryTotal lib.
Proof.
  unfold libraryTotal, sortVersions. cbn [cl_Versions].
  apply sumZ_perm, Permutation_map, slice_perm.
Qed.

Lemma mapTotal_insert (libraryMap : gmap string CachedLibrary) id lib :
  mapTotal (<[id := lib]> libraryMap) =
    libraryTotal lib + mapTotal (delete id libraryMap).
Proof.
  unfold mapTotal. rewrite <- insert_delete_eq.
  rewrite (sumZ_perm _ _ (Permutation_map _
             (map_to_list_insert (delete id libraryMap) id lib
                (lookup_delete_eq libraryMap id)))).
  done.
Qed.

Lemma mapTotal_lookup (libraryMap : gmap string CachedLibrary) id lib :
  libraryMap !! id = Some lib ->
  mapTotal libraryMap = libraryTotal lib + mapTotal (delete id libraryMap).
Proof.
  intros H. unfold mapTotal.
  rewrite <- (sumZ_perm _ _ (Permutation_map _ (map_to_list_delete libraryMap id lib H))).
  done.
Qed.

Lemma mapTotal_addVersion libraryMap org name v :
  mapTotal (addVersion libraryMap (org, name, v)) = mapTotal libraryMap + vi_Size v.
Proof.
  unfold addVersion. rewrite mapTotal_insert, libraryTotal_appendVersion.
  destruct (libraryMap !! idOf org name) as [lib |] eqn:E; cbn [from_option id].
  - rewrite (mapTotal_lookup _ _ _ E). lia.
  - rewrite delete_id by done. unfold libraryTotal. simpl. lia.
Qed.

(** The total of the map that the scan builds is the sum of the
    sizes of the versions that its callback added. *)
Lemma mapTotal_scan fs librariesDir : forall visited libraryMap,
  mapTotal (fold_left (listVisit fs librariesDir) visited libraryMap) =
    mapTotal libraryMap +
    sumZ (map (fun onv : string * string * VersionInfo => vi_Size onv.2)
              (omap (visitedVersion fs librariesDir) visited)).
Proof.
  induction visited as [|kn visited IH]; intros libraryMap; simpl.
  - lia.
  - rewrite IH, listVisit_visited.
    destruct (visitedVersion fs librariesDir kn) as [[[org name] v] |].
    + rewrite mapTotal_addVersion. simpl. by rewrite Z.add_assoc.
    + done.
Qed.

Lemma entries_total (libs : list CachedLibrary) :
  sumZ (map (fun lv : CachedLibrary * VersionInfo => vi_Size lv.2) (entries libs))
  = sumZ (map libraryTotal libs).
Proof.
  unfold entries. induction libs as [|lib libs IH]; simpl; [done |].
  rewrite map_app, sumZ_app, IH. f_equal.
  unfold libraryTotal. f_equal. rewrite map_map. done.
Qed.

Lemma catalogOf_total fs librariesDir visited :
  sumZ (map (fun lv : CachedLibrary * VersionInfo => vi_Size lv.2)
            (entries (catalogOf fs librariesDir visited)))
  = sumZ (map (fun onv : string * string * VersionInfo => vi_Size onv.2)
              (omap (visitedVersion fs librariesDir) visited)).
Proof.
  rewrite entries_total. unfold catalogOf.
  rewrite (sumZ_perm _ _ (Permutation_map _ (slice_perm _ _))).
  rewrite map_map.
  erewrite map_ext; [| intros kl; apply libraryTotal_sortVersions].
  fold (mapTotal (fold_left (listVisit fs librariesDir) visited ∅)).
  rewrite mapTotal_scan. unfold mapTotal. rewrite map_to_list_empty. simpl. lia.
Qed.

(** *** The total of the statistics *)

Lemma wrap_wrap (z : Z) : Int64.wrap (Int64.wrap z) = Int64.wrap z.
Proof.
  transitivity (Int64.wrap (Int64.wrap z + 0)); [f_equal; lia |].
  rewrite wrap_add_l. f_equal. lia.
Qed.

Lemma wrap_recordedSize fs kn :
  Int64.wrap (recordedSize fs kn) = Int64.wrap (measuredSize fs kn).
Proof.
  unfold recordedSize, measuredSize.
  destruct (contentSize fs kn.1) as [n |]; simpl.
  - unfold Int64.add. apply wrap_wrap.
  - f_equal. lia.
Qed.

Lemma wrap_sum_recorded fs (l : list (path * node)) :
  Int64.wrap (sumZ (map (recordedSize fs) l))
  = Int64.wrap (sumZ (map (measuredSize fs) l)).
Proof.
  induction l as [|kn l IH]; simpl; [done |].
  rewrite <- wrap_add_l, wrap_recordedSize, wrap_add_l.
  by rewrite <- wrap_add_r, IH, wrap_add_r.
Qed.

Lemma statsVisit_total fs st kn a :
  cs_TotalSize st = Int64.wrap a ->
  cs_TotalSize (statsVisit fs st kn) =
    Int64.wrap (a + if isMetadataFile kn then measuredSize fs kn else 0).
Proof.
  intros Ha. unfold statsVisit, measuredSize.
  destruct (isMetadataFile kn); cbn [cs_TotalSize].
  - rewrite Ha. unfold Int64.add.
    destruct (contentSize fs kn.1) as [n |]; simpl.
    + rewrite wrap_add_l, <- Z.add_assoc, wrap_add_l. done.
    + rewrite wrap_add_l. f_equal. lia.
  - rewrite Ha. f_equal. lia.
Qed.

Lemma stats_total fs : forall visited st a,
  cs_TotalSize st = Int64.wrap a ->
  cs_TotalSize (fold_left (statsVisit fs) visited st) =
    Int64.wrap (a + sumZ (map (measuredSize fs) (List.filter isMetadataFile visited))).
Proof.
  induction visited as [|kn visited IH]; intros st a Ha; simpl.
  - rewrite Ha. f_equal. lia.
  - rewrite (IH _ _ (statsVisit_total fs st kn a Ha)).
    destruct (isMetadataFile kn); simpl; f_equal; lia.
Qed.

Lemma scan_all_catalogued fs librariesDir : forall visited,
  (forall kn, kn ∈ visited -> isMetadataFile kn = true ->
              catalogued fs librariesDir kn) ->
  sumZ (map (fun onv : string * string * VersionInfo => vi_Size onv.2)
            (omap (visitedVersion fs librariesDir) visited))
  = sumZ (map (recordedSize fs) (List.filter isMetadataFile visited)).
Proof.
  induction visited as [|kn visited IH]; intros Hall; [done |].
  assert (IH' := IH (fun kn' Hin => Hall kn' (list_elem_of_further _ _ _ Hin))).
  simpl. destruct (isMetadataFile kn) eqn:Em.
  - destruct (visitedVersion_catalogued fs librariesDir kn Em
                (Hall kn (list_elem_of_here _ _) Em)) as (org & name & v & -> & Hv).
    simpl. rewrite Hv. f_equal. exact IH'.
  - destruct (visitedVersion fs librariesDir kn) as [onv |] eqn:Ev; [|exact IH'].
    apply visitedVersion_metadata in Ev. congruence.
Qed.

(** C7 (amended): for every population of the cache, the total size
    of the statistics is the sum of (size of the metadata file + size
    of the content file) over every regular file named metadata.json
    that the walk finds.  It is the sum of the sizes of the entries of
    the catalog whenever each of these files is taken into the catalog:
    it can be read, it decodes, and it lies at least two directories
    below the libraries directory. *)
Theorem stats_total_size
    (c : Cache) (fs : FS) (now : GoTime.Time) (stats : CacheStats) :
  GetStats c fs now = inr stats ->
  cs_TotalSize stats
    = Int64.wrap (sumZ (map (measuredSize fs)
                            (List.filter isMetadataFile (walked fs (librariesDir c))))) /\
  (forall libs : list CachedLibrary,
     ListCachedLibraries c fs = (Some libs, None) ->
     (forall kn, kn ∈ Os.walkList fs (librariesDir c) -> isMetadataFile kn = true ->
                 catalogued fs (librariesDir c) kn) ->
     cs_TotalSize stats
       = Int64.sum (map (fun lv : CachedLibrary * VersionInfo => vi_Size lv.2)
                        (entries libs))).
Proof.
  unfold GetStats, ListCachedLibraries. rewrite librariesDir_join.
  intros [= <-].
  assert (Htotal := stats_total fs (walked fs (librariesDir c))
                      {| cs_TotalEntries := 0; cs_TotalSize := 0;
                         cs_OldestEntry := now; cs_NewestEntry := GoTime.zero;
                         cs_CacheDir := baseDir c |} 0 eq_refl).
  rewrite Z.add_0_l in Htotal.
  split; [exact Htotal |].
  intros libs Hlist Hall.
  rewrite Htotal, sum_wrap. unfold walked in *.
  destruct (Os.stat fs (librariesDir c)) as [e | n].
  - destruct (Os.isNotExist e); [|done]. by injection Hlist as <-.
  - injection Hlist as <-.
    rewrite catalogOf_total, (scan_all_catalogued _ _ _ Hall).
    symmetry. apply wrap_sum_recorded.
Qed.

End Statistics.

(** ** Keeping the latest version *)

Section KeepLatest.
Context `{RT : Runtime}.
Import CacheOps.
Local Open Scope Z_scope.

(** The search for the latest version: either nothing later than the
    zero time has been met, or the pair is that of a version met whose
    timestamp no version met exceeds. *)
Lemma latestStep_invariant : forall (vs : list VersionInfo) (acc : GoTime.Time * string)
    (seen : list VersionInfo),
  (acc = (GoTime.zero, "") /\ Forall (fun w => vi_FetchedAt w <= GoTime.zero) seen \/
   exists u, u ∈ seen /\ acc = (vi_FetchedAt u, vi_Version u) /\
             Forall (fun w => vi_FetchedAt w <= vi_FetchedAt u) seen) ->
  let final := fold_left latestStep vs acc in
  (final = (GoTime.zero, "") /\
   Forall (fun w => vi_FetchedAt w <= GoTime.zero) (seen ++ vs)) \/
  exists u, u ∈ seen ++ vs /\ final = (vi_FetchedAt u, vi_Version u) /\
            Forall (fun w => vi_FetchedAt w <= vi_FetchedAt u) (seen ++ vs).
Proof.
  induction vs as [|v vs IH]; intros acc seen Hacc; simpl.
  - by rewrite app_nil_r.
  - replace (seen ++ v :: vs) with ((seen ++ [v]) ++ vs) by by rewrite <- app_assoc.
    apply IH. unfold latestStep, GoTime.after.
    destruct Hacc as [[-> Hall] | (u & Hu & -> & Hall)]; cbn [fst snd].
    + destruct (Z.ltb_spec GoTime.zero (vi_FetchedAt v)).
      * right. exists v. split; [apply elem_of_app; right; apply list_elem_of_here |].
        split; [done |]. apply Forall_app. split.
        -- eapply Forall_impl; [exact Hall |]. simpl. intros w Hw. lia.
        -- apply Forall_singleton. lia.
      * left. split; [done |]. apply Forall_app. split; [done |].
        by apply Forall_singleton.
    + right. destruct (Z.ltb_spec (vi_FetchedAt u) (vi_FetchedAt v)).
      * exists v. split; [apply elem_of_app; right; apply list_elem_of_here |].
        split; [done |]. apply Forall_app. split.
        -- eapply Forall_impl; [exact Hall |]. simpl. intros w Hw. lia.
        -- apply Forall_singleton. lia.
      * exists u. split; [apply elem_of_app; by left |].
        split; [done |]. apply Forall_app. split; [done |].
        by apply Forall_singleton.
Qed.

(** A version fetched after the zero time and strictly later than every
    other version of its library is the one found. *)
Lemma latestOf_strictly_latest (lib : CachedLibrary) (v : VersionInfo) :
  v ∈ cl_Versions lib ->
  GoTime.zero < vi_FetchedAt v ->
  (forall w, w ∈ cl_Versions lib -> w <> v -> vi_FetchedAt w < vi_FetchedAt v) ->
  latestOf lib = vi_Version v.
Proof.
  intros Hv Hpos Hmax. unfold latestOf.
  destruct (latestStep_invariant (cl_Versions lib) (GoTime.zero, "") [])
    as [[_ Hall] | (u & Hu & -> & Hall)]; simpl in *.
  - left. split; [done | constructor].
  - rewrite Forall_forall in Hall. specialize (Hall v Hv). lia.
  - destruct (decide (u = v)) as [-> | Hne]; [done |].
    rewrite Forall_forall in Hall. specialize (Hall v Hv).
    specialize (Hmax u Hu Hne). lia.
Qed.

Lemma latestVersions_other (libs : list CachedLibrary) :
  forall (m : gmap string string) (id : string),
    id ∉ map cl_LibraryID libs ->
    fold_left latestVersionsStep libs m !! id = m !! id.
Proof.
  induction libs as [|lib libs IH]; intros m id Hid; simpl; [done |].
  rewrite IH.
  - unfold latestVersionsStep. destruct (String.eqb (latestOf lib) ""); [done |].
    apply lookup_insert_ne. intros Heq. apply Hid. simpl. rewrite <- Heq.
    apply list_elem_of_here.
  - intros Hin. apply Hid. simpl. by apply list_elem_of_further.
Qed.

Lemma latestVersions_lookup (libs : list CachedLibrary) :
  forall (m : gmap string string) (lib : CachedLibrary),
    NoDup (map cl_LibraryID libs) ->
    lib ∈ libs ->
    latestOf lib <> "" ->
    fold_left latestVersionsStep libs m !! cl_LibraryID lib = Some (latestOf lib).
Proof.
  induction libs as [|l0 libs IH]; intros m lib Hnd Hin Hne.
  - by apply elem_of_nil in Hin.
  - simpl in Hnd. apply NoDup_cons in Hnd as [Hfresh Hnd].
    apply elem_of_cons in Hin as [-> | Hin]; simpl.
    + rewrite latestVersions_other by done.
      unfold latestVersionsStep.
      apply String.eqb_neq in Hne. rewrite Hne. apply lookup_insert_eq.
    + by apply IH.
Qed.

(** With keep-latest, the version that is strictly the latest of its
    library, fetched after the zero time, is not selected. *)
Lemma strictly_latest_not_selected (opts : PruneOptions) (now : GoTime.Time)
    (libs : list CachedLibrary) (lib : CachedLibrary) (v : VersionInfo) :
  po_KeepLatest opts = true ->
  NoDup (map cl_LibraryID libs) ->
  lib ∈ libs ->
  v ∈ cl_Versions lib ->
  vi_Version v <> "" ->
  GoTime.zero < vi_FetchedAt v ->
  (forall w, w ∈ cl_Versions lib -> w <> v -> vi_FetchedAt w < vi_FetchedAt v) ->
  selected opts now (latestVersionsOf opts libs) (lib, v) = false.
Proof.
  intros Hkeep Hnd Hlib Hv Hname Hpos Hmax.
  pose proof (latestOf_strictly_latest lib v Hv Hpos Hmax) as Hlatest.
  unfold selected, latestVersionsOf. rewrite Hkeep. cbn [fst snd].
  rewrite (latestVersions_lookup libs ∅ lib Hnd Hlib) by congruence.
  cbn [from_option id]. rewrite Hlatest, String.eqb_refl. done.
Qed.

(** *** The identifiers of a catalog *)

Lemma addVersion_keys (m : gmap string CachedLibrary) (onv : string * string * VersionInfo) :
  (forall k lib, m !! k = Some lib -> cl_LibraryID lib = k) ->
  forall k lib, addVersion m onv !! k = Some lib -> cl_LibraryID lib = k.
Proof.
  destruct onv as [[org name] v]. intros Hm k lib. unfold addVersion.
  destruct (decide (idOf org name = k)) as [<- | Hne].
  - rewrite lookup_insert_eq. intros [= <-]. cbn [appendVersion cl_LibraryID].
    destruct (m !! idOf org name) as [lib0 |] eqn:E; cbn [from_option id cl_LibraryID];
      [by apply Hm | done].
  - rewrite lookup_insert_ne by done. apply Hm.
Qed.

Lemma scan_keys (fs : FS) (librariesDir : path) : forall visited (m : gmap string CachedLibrary),
  (forall k lib, m !! k = Some lib -> cl_LibraryID lib = k) ->
  forall k lib,
    fold_left (listVisit fs librariesDir) visited m !! k = Some lib ->
    cl_LibraryID lib = k.
Proof.
  induction visited as [|kn visited IH]; intros m Hm; simpl; [done |].
  apply IH. rewrite listVisit_visited.
  destruct (visitedVersion fs librariesDir kn); [by apply addVersion_keys | done].
Qed.

(** No identifier occurs twice in a catalog. *)
Lemma catalogOf_NoDup (fs : FS) (librariesDir : path) (visited : list (path * node)) :
  NoDup (map cl_LibraryID (catalogOf fs librariesDir visited)).
Proof.
  unfold catalogOf.
  set (m := fold_left (listVisit fs librariesDir) visited ∅).
  rewrite (Permutation_map cl_LibraryID (slice_perm libraryLess _)).
  rewrite map_map.
  rewrite (map_ext_in _ fst).
  - apply (NoDup_fst_map_to_list m).
  - intros [k lib] Hin. cbn [fst snd sortVersions cl_LibraryID].
    apply (scan_keys fs librariesDir visited ∅); [by intros ? ? ?%lookup_empty_Some |].
    apply elem_of_map_to_list. by apply list_elem_of_In.
Qed.

Lemma ListCachedLibraries_NoDup (c : Cache) (fs : FS) (libs : list CachedLibrary) :
  ListCachedLibraries c fs = (Some libs, None) ->
  NoDup (map cl_LibraryID libs).
Proof.
  unfold ListCachedLibraries.
  destruct (Os.stat fs _) as [e | n].
  - destruct (Os.isNotExist e); [|done]. intros [= <-]. constructor.
  - intros [= <-]. apply catalogOf_NoDup.
Qed.

Lemma elem_of_entries (libs : list CachedLibrary) (lib : CachedLibrary)
    (v : VersionInfo) :
  lib ∈ libs -> v ∈ cl_Versions lib -> (lib, v) ∈ entries libs.
Proof.
  intros Hlib Hv. unfold entries. apply list_elem_of_In, in_concat.
  exists (map (pair lib) (cl_Versions lib)). split.
  - apply in_map_iff. exists lib. split; [done |]. by apply list_elem_of_In.
  - apply in_map. by apply list_elem_of_In.
Qed.

(** X28: the complement of the failure on the zero time.  The entries
    that a prune keeping the latest version removes, in the order of
    its report, are entries of the catalog that the prune selects (all
    of them in a dry run), and the version of a library that is
    strictly its latest and was fetched after the zero time is never
    among them. *)
Lemma keep_latest_protects (c : Cache) (fs fs' : FS) (opts : PruneOptions)
    (now : GoTime.Time) (result : PruneResult) :
  Prune c fs opts now = (fs', inr result) ->
  po_KeepLatest opts = true ->
  exists libs removed,
    ListCachedLibraries c fs = (Some libs, None) /\
    removed `sublist_of`
      List.filter (selected opts now (latestVersionsOf opts libs)) (entries libs) /\
    (po_DryRun opts = true ->
     removed = List.filter (selected opts now (latestVersionsOf opts libs))
                           (entries libs)) /\
    result = resultOf removed /\
    forall lib v,
      lib ∈ libs -> v ∈ cl_Versions lib -> vi_Version v <> "" ->
      GoTime.zero < vi_FetchedAt v ->
      (forall w, w ∈ cl_Versions lib -> w <> v -> vi_FetchedAt w < vi_FetchedAt v) ->
      (lib, v) ∈ entries libs /\
      selected opts now (latestVersionsOf opts libs) (lib, v) = false /\
      (lib, v) ∉ removed.
Proof.
  unfold Prune. intros H Hkeep.
  destruct (ListCachedLibraries_shape c fs) as [[libs E] | [e E]]; rewrite E in H;
    [| done].
  destruct (pruneAll_trace c opts now libs fs) as (removed & Hres & Hsub & Hdry).
  destruct (pruneAll c opts now libs fs) as [fs1 r]. cbn [snd] in Hres.
  injection H as _ <-.
  exists libs, removed. split; [done |]. split; [done |].
  split; [intros Hd; by destruct (Hdry Hd) |]. split; [done |].
  intros lib v Hlib Hv Hname Hpos Hmax.
  pose proof (strictly_latest_not_selected opts now libs lib v Hkeep
                (ListCachedLibraries_NoDup c fs libs E) Hlib Hv Hname Hpos Hmax) as Hsel.
  split; [by apply elem_of_entries |]. split; [done |].
  intros Hin. apply (elem_of_sublist _ _ _ Hin) in Hsub.
  apply list_elem_of_In, filter_In in Hsub as [_ Hsub]. congruence.
Qed.

End KeepLatest.

(** ** Pruning a well-formed cache *)

Section NameFacts.

Lemma splitSlash_app (s t : string) :
  Str.splitSlash s = [s] ->
  Str.splitSlash (String.append s (String Str.slash t)) = s :: Str.splitSlash t.
Proof.
  induction s as [|ch r IH]; intros Hs.
  - simpl. done.
  - simpl in *. destruct (Ascii.eqb ch Str.slash); [done |].
    destruct (Str.splitSlash r) as [|h tl] eqn:Er.
    + injection Hs as Hr. rewrite IH; [done |].
      destruct r; [done | discriminate].
    + injection Hs as -> ->. by rewrite IH.
Qed.

Lemma validName_trimPrefix (s t : string) :
  validName s -> Str.trimPrefixSlash (String.append s t) = String.append s t.
Proof.
  intros (Hs & Hne & _). destruct s as [|ch r]; [done |].
  simpl in *. destruct (Ascii.eqb ch Str.slash); [|done].
  discriminate.
Qed.

Lemma idOf_trimPrefix (org name : string) :
  Str.trimPrefixSlash (idOf org name) = String.append org (String Str.slash name).
Proof. reflexivity. Qed.

Lemma splitSlash_id (org name : string) :
  validName org -> validName name ->
  Str.splitSlash (String.append org (String Str.slash name)) = [org; name].
Proof.
  intros (Ho & _) (Hn & _). by rewrite splitSlash_app, Hn.
Qed.

Lemma append_inv_head (s t t' : string) :
  String.append s t = String.append s t' -> t = t'.
Proof.
  induction s as [|ch r IH]; simpl; intros H; [done |].
  injection H as H. by apply IH.
Qed.

Lemma idOf_inj (org name org' name' : string) :
  validName org -> validName org' ->
  idOf org name = idOf org' name' -> org = org' /\ name = name'.
Proof.
  intros (Ho & _) (Ho' & _) H.
  assert (H1 : String.append org (String Str.slash name)
               = String.append org' (String Str.slash name'))
    by (by injection H).
  pose proof (f_equal Str.splitSlash H1) as H2.
  rewrite !splitSlash_app in H2 by done.
  assert (org = org') as <- by congruence.
  split; [done |].
  apply append_inv_head in H1. congruence.
Qed.

Lemma cleanOnto_valid (segs : list string) : forall acc : path,
  Forall validName segs ->
  Path.cleanOnto acc (concat (map Str.splitSlash segs)) = acc ++ segs.
Proof.
  induction segs as [|s segs IH]; intros acc Hall; simpl.
  - by rewrite app_nil_r.
  - apply Forall_cons in Hall as [(Hs & H1 & H2 & H3) Hall].
    rewrite Hs. simpl.
    apply String.eqb_neq in H1, H2, H3. rewrite H1, H2, H3.
    rewrite IH by done. by rewrite <- app_assoc.
Qed.

Lemma validName_libraries : validName "libraries".
Proof. repeat split; done. Qed.

Lemma join_valid (base : path) (segs : list string) :
  Forall validName segs -> Path.join base segs = base ++ segs.
Proof. apply cleanOnto_valid. Qed.

End NameFacts.

Section TreeFacts.
Context `{RT : Runtime}.
Import CacheOps.

Lemma lookup_outside (fs : FS) (p q : path) :
  ~ p `prefix_of` q -> Os.outside fs p !! q = fs !! q.
Proof.
  intros Hq. unfold Os.outside.
  destruct (fs !! q) as [n |] eqn:E.
  - apply map_lookup_filter_Some_2; [done |].
    unfold Os.below. cbn [fst]. intros H%Is_true_true%isPrefix_spec. done.
  - apply map_lookup_filter_None_2. by left.
Qed.

Lemma firstErr_outside (fs : FS) (p p' : path) :
  length p' <= length p -> p <> p' ->
  Os.firstErr (Os.outside fs p) (Path.chain p') = Os.firstErr fs (Path.chain p').
Proof.
  intros Hlen Hne. apply firstErr_ext. intros q Hq. apply lookup_outside.
  intros Hpre. apply elem_of_chain in Hq as (n & Hn & ->).
  pose proof (prefix_length _ _ Hpre) as Hl. rewrite length_take in Hl.
  assert (n = length p') as -> by lia.
  rewrite firstn_all in Hpre.
  apply Hne. apply prefix_length_eq; [done | lia].
Qed.

Lemma children_nonempty (fs : FS) (d : path) (s : string) (n : node) :
  fs !! (d ++ [s]) = Some n -> Os.children fs d <> [].
Proof.
  intros H Hnil.
  assert (Hin : (d ++ [s], n) ∈ Os.children fs d).
  { unfold Os.children. apply list_elem_of_In, filter_In. split.
    - apply list_elem_of_In. by apply elem_of_map_to_list.
    - unfold Os.isChild. cbn [fst]. apply andb_true_iff. split.
      + apply isPrefix_spec. by apply prefix_app_r.
      + rewrite length_app. simpl. apply Nat.eqb_eq. lia. }
  rewrite Hnil in Hin. by apply elem_of_nil in Hin.
Qed.

(** The clean-up leaves every node alone except a directory without
    entries. *)
Lemma removeIfEmpty_lookup (fs : FS) (d q : path) :
  (q = d -> exists s n, fs !! (d ++ [s]) = Some n) ->
  (removeIfEmpty fs d).1 !! q = fs !! q.
Proof.
  intros Hq. unfold removeIfEmpty, Os.readDir.
  destruct (Os.stat fs d) as [e | [data t |]] eqn:Es; try done.
  destruct (Os.children fs d) as [|kn rest] eqn:Ec; [|done].
  cbn [fst]. unfold removeQuiet, Os.remove. rewrite Es.
  destruct d as [|s0 d0]; [done |]. rewrite Ec.
  apply lookup_delete_ne. intros Heq.
  destruct (Hq (eq_sym Heq)) as (s & n & Hs).
  by apply children_nonempty in Hs.
Qed.

Lemma chain_next (p d : path) :
  d ∈ Path.chain p -> length d < length p -> exists s, d ++ [s] ∈ Path.chain p.
Proof.
  intros (n & Hn & ->)%elem_of_chain Hlen. rewrite length_take in Hlen.
  destruct (lookup_lt_is_Some_2 p n) as [s Hs]; [lia |].
  exists s. apply elem_of_chain. exists (S n). split; [lia |].
  by rewrite (take_S_r _ _ _ Hs).
Qed.

Lemma firstErr_removeIfEmpty (fs : FS) (d p : path) :
  Os.firstErr fs (Path.chain p) = None ->
  length d < length p ->
  Os.firstErr (removeIfEmpty fs d).1 (Path.chain p) = None.
Proof.
  intros Hp Hlen. rewrite <- Hp. apply firstErr_ext. intros q Hq.
  apply removeIfEmpty_lookup. intros ->.
  destruct (chain_next p d Hq Hlen) as [s Hs]. exists s, Dir.
  by apply (proj1 (firstErr_None fs (Path.chain p)) Hp).
Qed.

Lemma stat_chain (fs : FS) (p : path) :
  Os.firstErr fs (Path.chain p) = None -> Os.stat fs p = inr Dir.
Proof.
  intros Hp. destruct (decide (p = [])) as [-> | Hne]; [done |].
  destruct (exists_last Hne) as (d & s & ->).
  rewrite stat_child.
  pose proof (proj1 (firstErr_None _ _) Hp) as Hall.
  assert (Hd : Os.firstErr fs (Path.chain d) = None).
  { apply firstErr_None. intros q Hq. apply Hall.
    apply elem_of_chain in Hq as (n & Hn & ->). apply elem_of_chain.
    exists n. rewrite length_app. simpl. split; [lia |].
    by rewrite take_app_le by lia. }
  rewrite Hd, (Hall (d ++ [s])); [done |]. apply chain_self. by destruct d.
Qed.

End TreeFacts.

Section RemovalFacts.
Context `{RT : Runtime}.
Import CacheOps.

Lemma getCacheDir_valid (c : Cache) (org name version : string) :
  validName org -> validName name -> validName version ->
  getCacheDir c (String.append org (String Str.slash name)) version
  = versionDir c org name version.
Proof.
  intros Ho Hn Hv. unfold getCacheDir, versionDir, librariesDir.
  rewrite validName_trimPrefix, splitSlash_id by done.
  destruct Hv as (Hv1 & Hv2 & Hv3 & Hv4).
  apply String.eqb_neq in Hv2. rewrite Hv2.
  rewrite join_valid.
  - by rewrite <- app_assoc.
  - apply String.eqb_neq in Hv2.
    repeat (apply Forall_cons; split); try done; try apply validName_libraries.
Qed.

(** The removal of a version whose directory is there succeeds, and
    the directories of the other versions stay. *)
Lemma RemoveLibraryVersion_succeeds (c : Cache) (fs : FS) (org name version : string) :
  validName org -> validName name -> validName version ->
  Os.firstErr fs (Path.chain (versionDir c org name version)) = None ->
  exists fs',
    RemoveLibraryVersion c fs (idOf org name) version = (fs', None) /\
    forall p', length p' = length (versionDir c org name version) ->
               p' <> versionDir c org name version ->
               Os.firstErr fs (Path.chain p') = None ->
               Os.firstErr fs' (Path.chain p') = None.
Proof.
  intros Ho Hn Hv Hdir. unfold RemoveLibraryVersion.
  rewrite idOf_trimPrefix, getCacheDir_valid by done.
  rewrite (stat_chain fs _ Hdir). unfold Os.removeAll. rewrite (stat_chain fs _ Hdir).
  rewrite splitSlash_id by done.
  rewrite !join_valid
    by (repeat (apply Forall_cons; split); try done; apply validName_libraries).
  set (fs1 := Os.outside fs (versionDir c org name version)).
  assert (Hlen : length (versionDir c org name version) = length (baseDir c) + 4)
    by (unfold versionDir, librariesDir; rewrite !length_app; simpl; lia).
  assert (H1 : forall p', length p' = length (versionDir c org name version) ->
                 p' <> versionDir c org name version ->
                 Os.firstErr fs (Path.chain p') = None ->
                 Os.firstErr fs1 (Path.chain p') = None).
  { intros p' Hl Hne Hp'. unfold fs1. rewrite firstErr_outside; [done | lia | done]. }
  destruct (removeIfEmpty fs1 (baseDir c ++ ["libraries"; org; name]))
    as [fs2 emptied] eqn:E2.
  assert (H2 : forall p', length p' = length (versionDir c org name version) ->
                 p' <> versionDir c org name version ->
                 Os.firstErr fs (Path.chain p') = None ->
                 Os.firstErr fs2 (Path.chain p') = None).
  { intros p' Hl Hne Hp'.
    change fs2 with (fs2, emptied).1. rewrite <- E2.
    apply firstErr_removeIfEmpty; [by apply H1 |].
    rewrite length_app. simpl. lia. }
  destruct emptied.
  - eexists. split; [done |]. intros p' Hl Hne Hp'.
    apply firstErr_removeIfEmpty; [by apply H2 |].
    rewrite length_app. simpl. lia.
  - by exists fs2.
Qed.

Lemma versionDir_inj (c : Cache) (org name version org' name' version' : string) :
  versionDir c org name version = versionDir c org' name' version' ->
  org = org' /\ name = name' /\ version = version'.
Proof. unfold versionDir. intros H%app_inv_head. by injection H. Qed.

Lemma removable_key (c : Cache) (fs : FS) (lv lv' : CachedLibrary * VersionInfo)
    (org name org' name' : string) :
  cl_LibraryID lv.1 = idOf org name ->
  cl_LibraryID lv'.1 = idOf org' name' ->
  entryKey lv <> entryKey lv' ->
  versionDir c org' name' (vi_Version lv'.2) <> versionDir c org name (vi_Version lv.2).
Proof.
  intros Hid Hid' Hkey (-> & -> & Hv)%versionDir_inj. apply Hkey.
  unfold entryKey. congruence.
Qed.

(** On entries that are all removable and name different directories,
    the real pass records what the dry run records. *)
Lemma prune_entries_agree (c : Cache) (opts : PruneOptions) (now : GoTime.Time)
    (latest : gmap string string) :
  forall (es : list (CachedLibrary * VersionInfo)) (real dry : FS * PruneResult),
    real.2 = dry.2 ->
    Forall (removable c real.1) es ->
    NoDup (map entryKey es) ->
    (fold_left (pruneEntry c (withDryRun opts false) now latest) es real).2
    = (fold_left (pruneEntry c (withDryRun opts true) now latest) es dry).2.
Proof.
  induction es as [|lv es IH]; intros real dry Hres Hrem Hnd; [done |].
  simpl fold_left. apply Forall_cons in Hrem as [Hlv Hrem].
  simpl in Hnd. apply NoDup_cons in Hnd as [Hfresh Hnd].
  unfold pruneEntry at 2 4. rewrite !pruneVersion_selected.
  change (selected (withDryRun opts false) now latest (lv.1, lv.2))
    with (selected (withDryRun opts true) now latest (lv.1, lv.2)).
  destruct (selected (withDryRun opts true) now latest (lv.1, lv.2));
    [| by apply IH].
  cbn [po_DryRun withDryRun].
  destruct Hlv as (org & name & Hid & Ho & Hn & Hv & Hdir).
  destruct (RemoveLibraryVersion_succeeds c real.1 org name (vi_Version lv.2)
              Ho Hn Hv Hdir) as (fs' & Hrm & Hkeep).
  rewrite Hid, Hrm. apply IH; cbn [fst snd]; [by rewrite Hres | | done].
  apply Forall_forall. intros lv' Hin.
  rewrite Forall_forall in Hrem.
  destruct (Hrem lv' Hin) as (org' & name' & Hid' & Ho' & Hn' & Hv' & Hdir').
  exists org', name'. repeat (split; [done |]).
  apply Hkeep; [| | done].
  - unfold versionDir. by rewrite !length_app.
  - apply (removable_key c real.1 lv lv'); [done | done |].
    intros Heq. apply Hfresh. rewrite Heq.
    apply list_elem_of_In, in_map, list_elem_of_In. done.
Qed.

Lemma fold_left_concat {A B} (f : A -> B -> A) (ls : list (list B)) : forall a : A,
  fold_left f (concat ls) a = fold_left (fun a l => fold_left f l a) ls a.
Proof.
  induction ls as [|l ls IH]; intros a; simpl; [done |].
  by rewrite fold_left_app, IH.
Qed.

(** The two loops of [Prune] are one pass over the entries. *)
Lemma pruneAll_entries (c : Cache) (opts : PruneOptions) (now : GoTime.Time)
    (libs : list CachedLibrary) (fs : FS) :
  pruneAll c opts now libs fs
  = fold_left (pruneEntry c opts now (latestVersionsOf opts libs))
              (entries libs) (fs, emptyResult).
Proof.
  unfold pruneAll, entries. rewrite fold_left_concat.
  generalize (fs, emptyResult). generalize (latestVersionsOf opts libs).
  intros latest. induction libs as [|lib libs IH]; intros st; simpl; [done |].
  rewrite IH. f_equal. unfold pruneLibrary.
  generalize (cl_Versions lib). intros vs. revert st.
  induction vs as [|v vs IHv]; intros st; simpl; [done |]. by rewrite IHv.
Qed.

End RemovalFacts.

Section CatalogFacts.
Context `{RT : Runtime}.
Import CacheOps.

Lemma libraryEntries_appendVersion (lib : CachedLibrary) (v : VersionInfo) :
  libraryEntries (appendVersion lib v) = libraryEntries lib ++ [(cl_LibraryID lib, v)].
Proof. unfold libraryEntries, appendVersion. cbn [cl_Versions cl_LibraryID]. by rewrite map_app. Qed.

Lemma libraryEntries_sortVersions (lib : CachedLibrary) :
  libraryEntries (sortVersions lib) ≡ₚ libraryEntries lib.
Proof.
  unfold libraryEntries, sortVersions. cbn [cl_Versions cl_LibraryID].
  apply Permutation_map, slice_perm.
Qed.

Lemma mapEntries_insert (m : gmap string CachedLibrary) (k : string) (lib : CachedLibrary) :
  mapEntries (<[k := lib]> m) ≡ₚ libraryEntries lib ++ mapEntries (delete k m).
Proof.
  unfold mapEntries. rewrite <- insert_delete_eq.
  rewrite (map_to_list_insert (delete k m) k lib (lookup_delete_eq m k)). done.
Qed.

Lemma mapEntries_lookup (m : gmap string CachedLibrary) (k : string) (lib : CachedLibrary) :
  m !! k = Some lib ->
  mapEntries m ≡ₚ libraryEntries lib ++ mapEntries (delete k m).
Proof.
  intros H. unfold mapEntries. rewrite <- (map_to_list_delete m k lib H). done.
Qed.

Lemma mapEntries_addVersion (m : gmap string CachedLibrary)
    (onv : string * string * VersionInfo) :
  (forall k lib, m !! k = Some lib -> cl_LibraryID lib = k) ->
  mapEntries (addVersion m onv) ≡ₚ visitedKey onv :: mapEntries m.
Proof.
  destruct onv as [[org name] v]. intros Hkeys. unfold addVersion, visitedKey.
  cbn [fst snd]. rewrite mapEntries_insert, libraryEntries_appendVersion.
  destruct (m !! idOf org name) as [lib |] eqn:E; cbn [from_option id].
  - rewrite (mapEntries_lookup m _ _ E), (Hkeys _ _ E).
    rewrite <- app_assoc. simpl. by rewrite <- Permutation_middle.
  - rewrite delete_id by done. done.
Qed.

Lemma mapEntries_scan (fs : FS) (librariesDir : path) :
  forall visited (m : gmap string CachedLibrary),
    (forall k lib, m !! k = Some lib -> cl_LibraryID lib = k) ->
    mapEntries (fold_left (listVisit fs librariesDir) visited m)
    ≡ₚ map visitedKey (omap (visitedVersion fs librariesDir) visited) ++ mapEntries m.
Proof.
  induction visited as [|kn visited IH]; intros m Hkeys; simpl; [done |].
  rewrite listVisit_visited.
  destruct (visitedVersion fs librariesDir kn) as [onv |] eqn:E.
  - rewrite IH by by apply addVersion_keys.
    rewrite mapEntries_addVersion by done. simpl. by rewrite <- Permutation_middle.
  - by apply IH.
Qed.

Lemma entries_keyed (libs : list CachedLibrary) :
  map keyed (entries libs) = flat_map libraryEntries libs.
Proof.
  unfold entries. induction libs as [|lib libs IH]; simpl; [done |].
  rewrite map_app, IH. f_equal. unfold libraryEntries. by rewrite map_map.
Qed.

Lemma flat_map_map_perm {A B C} (f : B -> list C) (g : A -> B) (h : A -> list C)
    (l : list A) :
  (forall x, f (g x) ≡ₚ h x) -> flat_map f (map g l) ≡ₚ flat_map h l.
Proof.
  intros H. induction l as [|x l IH]; simpl; [done |]. by rewrite H, IH.
Qed.

(** The entries of the catalog are the versions that the callback of
    the scan added, each under the identifier built from its path. *)
Lemma catalogOf_keyed (fs : FS) (librariesDir : path) (visited : list (path * node)) :
  map keyed (entries (catalogOf fs librariesDir visited))
  ≡ₚ map visitedKey (omap (visitedVersion fs librariesDir) visited).
Proof.
  rewrite entries_keyed. unfold catalogOf.
  rewrite (slice_perm libraryLess).
  rewrite (flat_map_map_perm libraryEntries _
             (fun kl : string * CachedLibrary => libraryEntries kl.2))
    by (intros kl; apply libraryEntries_sortVersions).
  fold (mapEntries (fold_left (listVisit fs librariesDir) visited ∅)).
  rewrite mapEntries_scan by (by intros ? ? ?%lookup_empty_Some).
  unfold mapEntries. rewrite map_to_list_empty. simpl. by rewrite app_nil_r.
Qed.

(** *** The walk *)

Lemma insertSorted_perm (kn : path * node) (l : list (path * node)) :
  Os.insertSorted kn l ≡ₚ kn :: l.
Proof.
  induction l as [|h t IH]; simpl; [done |].
  destruct (Path.ltb h.1 kn.1); [|done]. rewrite IH. apply perm_swap.
Qed.

Lemma walkList_perm (fs : FS) (root : path) :
  Os.walkList fs root ≡ₚ List.filter (Os.below root) (map_to_list fs).
Proof.
  unfold Os.walkList. induction (List.filter (Os.below root) (map_to_list fs))
    as [|kn l IH]; simpl; [done |].
  by rewrite insertSorted_perm, IH.
Qed.

Lemma elem_of_walkList (fs : FS) (root : path) (kn : path * node) :
  kn ∈ Os.walkList fs root <-> fs !! kn.1 = Some kn.2 /\ root `prefix_of` kn.1.
Proof.
  rewrite walkList_perm, list_elem_of_In, filter_In, <- list_elem_of_In.
  destruct kn as [k n]. rewrite elem_of_map_to_list. unfold Os.below.
  by rewrite isPrefix_spec.
Qed.

Lemma walkList_NoDup (fs : FS) (root : path) :
  NoDup (map fst (Os.walkList fs root)).
Proof.
  rewrite walkList_perm.
  apply (sublist_NoDup _ (map fst (map_to_list fs))).
  - apply (NoDup_fst_map_to_list fs).
  - apply sublist_map, sublist_filter_bool.
Qed.

End CatalogFacts.

Section WellFormedCache.
Context `{RT : Runtime}.
Import CacheOps.

Lemma visitedVersion_inv (fs : FS) (librariesDir : path) (kn : path * node)
    (org name : string) (v : VersionInfo) :
  visitedVersion fs librariesDir kn = Some (org, name, v) ->
  isMetadataFile kn = true /\
  exists rest, drop (length librariesDir) kn.1 = org :: name :: vi_Version v :: rest.
Proof.
  unfold visitedVersion. destruct (isMetadataFile kn); [|done].
  destruct (Os.readFile fs kn.1) as [e | data]; [done |].
  destruct (jsonUnmarshal data) as [metadata |]; [|done].
  destruct (drop (length librariesDir) kn.1) as [|o [|n [|ver rest]]]; try done.
  intros [= <- <- <-]. split; [done |]. by exists rest.
Qed.

(** In a properly nested cache a catalogued metadata file is the file
    metadata.json of its version directory. *)
Lemma visited_path (c : Cache) (fs : FS) (kn : path * node)
    (org name : string) (v : VersionInfo) :
  properlyNested fs (librariesDir c) ->
  kn ∈ Os.walkList fs (librariesDir c) ->
  visitedVersion fs (librariesDir c) kn = Some (org, name, v) ->
  kn.1 = versionDir c org name (vi_Version v) ++ ["metadata.json"].
Proof.
  intros Hnest Hin Hv.
  pose proof (Hnest kn Hin (mk_is_Some _ _ Hv)) as Hlen.
  destruct (visitedVersion_inv _ _ _ _ _ _ Hv) as (Hm & rest & Hdrop).
  apply elem_of_walkList in Hin as [_ [k Hk]].
  rewrite Hk, drop_app_length in Hdrop. subst k.
  rewrite Hk, drop_app_length in Hlen.
  destruct rest as [|x [|y rest]]; try (simpl in Hlen; lia).
  unfold isMetadataFile in Hm. apply andb_true_iff in Hm as [_ Hbase].
  apply String.eqb_eq in Hbase.
  rewrite Hk in Hbase |- *. unfold versionDir. rewrite <- app_assoc. simpl.
  change (librariesDir c ++ [org; name; vi_Version v; x])
    with (librariesDir c ++ [org; name; vi_Version v] ++ [x]) in Hbase.
  rewrite app_assoc, base_app in Hbase. by subst x.
Qed.

Lemma visited_removable (c : Cache) (fs : FS) (kn : path * node)
    (org name : string) (v : VersionInfo) :
  wellFormed fs ->
  properlyNested fs (librariesDir c) ->
  kn ∈ Os.walkList fs (librariesDir c) ->
  visitedVersion fs (librariesDir c) kn = Some (org, name, v) ->
  validName org /\ validName name /\ validName (vi_Version v) /\
  Os.firstErr fs (Path.chain (versionDir c org name (vi_Version v))) = None.
Proof.
  intros Hwf Hnest Hin Hv.
  pose proof (visited_path c fs kn org name v Hnest Hin Hv) as Hpath.
  apply elem_of_walkList in Hin as [Hlook _].
  destruct (Hwf _ _ Hlook) as [Hnames Hdirs].
  rewrite Hpath in Hnames, Hdirs. rewrite ancestors_app in Hdirs.
  unfold versionDir in Hnames.
  apply Forall_app in Hnames as [Hnames _].
  apply Forall_app in Hnames as [_ Hnames].
  apply Forall_cons in Hnames as [Ho Hnames].
  apply Forall_cons in Hnames as [Hn Hnames].
  apply Forall_cons in Hnames as [Hver _].
  done.
Qed.

Lemma catalogued_origin (fs : FS) (librariesDir : path) (visited : list (path * node))
    (lv : CachedLibrary * VersionInfo) :
  lv ∈ entries (catalogOf fs librariesDir visited) ->
  exists kn org name,
    kn ∈ visited /\
    visitedVersion fs librariesDir kn = Some (org, name, lv.2) /\
    cl_LibraryID lv.1 = idOf org name.
Proof.
  intros Hin.
  assert (Hk : keyed lv ∈ map keyed (entries (catalogOf fs librariesDir visited)))
    by (apply list_elem_of_In, in_map, list_elem_of_In; done).
  rewrite catalogOf_keyed in Hk.
  apply list_elem_of_In, in_map_iff in Hk as ([[org name] v] & Heq & Hv).
  apply list_elem_of_In, list_elem_of_omap in Hv as (kn & Hkn & Hvv).
  unfold visitedKey, keyed in Heq. cbn [fst snd] in Heq.
  pose proof (f_equal fst Heq) as Hid. pose proof (f_equal snd Heq) as Hver.
  cbn [fst snd] in Hid, Hver. exists kn, org, name. subst v. done.
Qed.

Lemma entries_removable (c : Cache) (fs : FS) :
  wellFormed fs ->
  properlyNested fs (librariesDir c) ->
  Forall (removable c fs)
         (entries (catalogOf fs (librariesDir c) (Os.walkList fs (librariesDir c)))).
Proof.
  intros Hwf Hnest. apply Forall_forall. intros lv Hin.
  destruct (catalogued_origin _ _ _ _ Hin) as (kn & org & name & Hkn & Hv & Hid).
  destruct (visited_removable c fs kn org name lv.2 Hwf Hnest Hkn Hv)
    as (Ho & Hn & Hver & Hdir).
  by exists org, name.
Qed.

Lemma NoDup_map_omap {A B C} (g : A -> option B) (f : B -> C) (l : list A) :
  NoDup l ->
  (forall a b x y, a ∈ l -> b ∈ l -> g a = Some x -> g b = Some y ->
                   f x = f y -> a = b) ->
  NoDup (map f (omap g l)).
Proof.
  induction 1 as [|a l Ha Hnd IH]; intros Hinj; simpl; [constructor |].
  assert (IH' : NoDup (map f (omap g l))).
  { apply IH. intros a' b' x y Ha' Hb'. apply Hinj; by apply list_elem_of_further. }
  destruct (g a) as [x |] eqn:Ea; [|done].
  simpl. apply NoDup_cons. split; [|done].
  intros Hin. apply list_elem_of_In, in_map_iff in Hin as (y & Hxy & Hy).
  apply list_elem_of_In, list_elem_of_omap in Hy as (b & Hb & Eb).
  apply Ha. rewrite (Hinj a b x y); [done | apply list_elem_of_here | | done | done | done].
  by apply list_elem_of_further.
Qed.

Lemma entries_NoDup (c : Cache) (fs : FS) :
  wellFormed fs ->
  properlyNested fs (librariesDir c) ->
  NoDup (map entryKey
             (entries (catalogOf fs (librariesDir c) (Os.walkList fs (librariesDir c))))).
Proof.
  intros Hwf Hnest.
  set (keyPart := fun kv : string * VersionInfo => (kv.1, vi_Version kv.2)).
  rewrite (map_ext entryKey (fun lv => keyPart (keyed lv))) by done.
  rewrite <- map_map, catalogOf_keyed, map_map.
  apply NoDup_map_omap.
  - eapply NoDup_fmap_1. apply walkList_NoDup.
  - intros a b [[org name] v] [[org' name'] v'] Ha Hb Hva Hvb Hkey.
    unfold keyPart, visitedKey in Hkey. cbn [fst snd] in Hkey.
    pose proof (f_equal fst Hkey) as Hid. pose proof (f_equal snd Hkey) as Hver.
    cbn [fst snd] in Hid, Hver.
    destruct (visited_removable c fs a org name v Hwf Hnest Ha Hva) as (Ho & _).
    destruct (visited_removable c fs b org' name' v' Hwf Hnest Hb Hvb) as (Ho' & _).
    destruct (idOf_inj _ _ _ _ Ho Ho' Hid) as [-> ->].
    pose proof (visited_path c fs a _ _ _ Hnest Ha Hva) as Pa.
    pose proof (visited_path c fs b _ _ _ Hnest Hb Hvb) as Pb.
    apply elem_of_walkList in Ha as [La _]. apply elem_of_walkList in Hb as [Lb _].
    destruct a as [ka na], b as [kb nb]. cbn [fst snd] in *.
    assert (ka = kb) as -> by congruence. congruence.
Qed.

(** X27: on a well-formed file system whose catalogued metadata files
    all lie in version directories, a real prune reports exactly what
    the dry run of the same cache state reports. *)
Theorem prune_matches_dry_run
    (c : Cache) (fs : FS) (opts : PruneOptions) (now : GoTime.Time) :
  wellFormed fs ->
  properlyNested fs (librariesDir c) ->
  (Prune c fs (withDryRun opts false) now).2 = (Prune c fs (withDryRun opts true) now).2.
Proof.
  intros Hwf Hnest. unfold Prune, ListCachedLibraries. rewrite librariesDir_join.
  destruct (Os.stat fs (librariesDir c)) as [e | n].
  - by destruct (Os.isNotExist e).
  - set (libs := catalogOf fs (librariesDir c) (Os.walkList fs (librariesDir c))).
    pose proof (prune_entries_agree c opts now
                  (latestVersionsOf (withDryRun opts true) libs)
                  (entries libs) (fs, emptyResult) (fs, emptyResult) eq_refl
                  (entries_removable c fs Hwf Hnest)
                  (entries_NoDup c fs Hwf Hnest)) as Hagree.
    rewrite !pruneAll_entries.
    change (latestVersionsOf (withDryRun opts false) libs)
      with (latestVersionsOf (withDryRun opts true) libs).
    destruct (fold_left _ _ _) as [fsr r]. destruct (fold_left _ _ _) as [fsd d].
    cbn [snd] in *. by subst.
Qed.

Lemma wellFormedNodes_wellFormed (fs : FS) : wellFormedNodes fs -> wellFormed fs.
Proof.
  intros H p n Hp. unfold wellFormedNodes in H. rewrite Forall_forall in H.
  apply (H (p, n)). by apply elem_of_map_to_list.
Qed.

Lemma properlyNestedNodes_properlyNested (fs : FS) (librariesDir : path) :
  properlyNestedNodes fs librariesDir -> properlyNested fs librariesDir.
Proof. intros H kn Hin. unfold properlyNestedNodes in H. rewrite Forall_forall in H. by apply H. Qed.

End WellFormedCache.

(** ** The properties at work on the cache of the examples *)

Section Examples.
Import CacheOps Demo.
Local Open Scope Z_scope.

(** *** Reading and writing *)

Lemma with_result {A B} (p : A * B) (b : B) : p.2 = b -> p = (p.1, b).
Proof. destruct p. simpl. by intros ->. Qed.


(** C1, as stated, fails: the write returns an error, and the content
    file of the committed entry has been replaced. *)
Lemma failed_write_replaces_content :
  jsonEncode notANumber = None /\
  SetWithVersion c oneVersion "/acme/widgets" "1.0" "new text" notANumber now
    = (afterFailedWrite, Some EncodeMetadataFailed) /\
  oneVersion !! contentPath c "/acme/widgets" "1.0" = Some (File "old text" now) /\
  afterFailedWrite !! contentPath c "/acme/widgets" "1.0" = Some (File "new text" now).
Proof.
  split; [reflexivity |].
  split; [apply with_result; vm_compute; reflexivity |].
  vm_compute. done.
Qed.

(** [write_outcome] on that failed write. *)
Lemma write_outcome_example :
  SetWithVersion c oneVersion "/acme/widgets" "1.0" "new text" notANumber now
    = (afterFailedWrite, Some EncodeMetadataFailed) /\
  afterFailedWrite !! metadataPath c "/acme/widgets" "1.0"
    = oneVersion !! metadataPath c "/acme/widgets" "1.0" /\
  afterFailedWrite !! contentPath c "/acme/widgets" "1.0" = Some (File "new text" now) /\
  afterFailedWrite !! tmpMetadataPath c "/acme/widgets" "1.0" = None.
Proof.
  assert (Hset : SetWithVersion c oneVersion "/acme/widgets" "1.0" "new text"
                   notANumber now = (afterFailedWrite, Some EncodeMetadataFailed))
    by (apply with_result; vm_compute; reflexivity).
  split; [exact Hset |].
  exact (write_outcome c oneVersion afterFailedWrite "/acme/widgets" "1.0" "new text"
           notANumber now (Some EncodeMetadataFailed) Hset).
Defined.

(** *** Identifiers *)

(** C6, as stated, fails: a write and a read under an identifier of
    one segment succeed, and so does the removal of a library under an
    identifier of three segments. *)
Lemma operations_on_malformed_ids :
  Str.splitSlash (Str.trimPrefixSlash "acme") = ["acme"] /\
  (SetWithVersion c fresh "acme" "" "text" fetchedYesterday now).2 = None /\
  GetWithVersion c oneSegment "acme" "" (2 * day) now
    = inr {| ce_Metadata := fetchedYesterday; ce_Content := "text" |} /\
  (RemoveLibraryVersion c oneSegment "acme" "").2 = None /\
  Str.splitSlash (Str.trimPrefixSlash "acme/widgets/extra") = ["acme"; "widgets"; "extra"] /\
  (RemoveLibrary c twoVersions "acme/widgets/extra").2 = None.
Proof. vm_compute. done. Qed.

(** [remove_library_rejects_short_id] on the identifier of one segment. *)
Lemma remove_library_rejects_short_id_example :
  RemoveLibrary c twoVersions "acme" = (twoVersions, Some (InvalidLibraryID "acme")) /\
  ForceUpdate c twoVersions "acme" "" = (twoVersions, Some (InvalidLibraryID "acme")).
Proof.
  apply (remove_library_rejects_short_id c twoVersions "acme").
  vm_compute. lia.
Defined.

(** *** The catalog *)

(** [list_without_libraries_dir] on a cache root without subdirectories. *)
Lemma list_without_libraries_dir_example :
  ListCachedLibraries c rootOnly = (Some [], None).
Proof.
  apply (list_without_libraries_dir c rootOnly). vm_compute. reflexivity.
Defined.

(** C8 fails on the code: a metadata file directly in the directory
    of a library (here the one written under the identifier ["acme"],
    two levels below the libraries directory) is taken into the
    catalog, its own name serving as the version; and so is one that
    lies deeper than a version directory, which appears as a second
    entry of version 1.0. *)
Theorem scan_accepts_misplaced_metadata :
  metadataFiles oneSegment = [(["acme"; "default"; "metadata.json"], "yesterday")] /\
  summary (ListCachedLibraries c oneSegment)
    = Some [("/acme/default", ["metadata.json"])] /\
  metadataFiles nested
    = [(["acme"; "widgets"; "1.0"; "beta"; "metadata.json"], "40 days ago");
       (["acme"; "widgets"; "1.0"; "metadata.json"], "40 days ago")] /\
  summary (ListCachedLibraries c nested)
    = Some [("/acme/widgets", ["1.0"; "1.0"])].
Proof. vm_compute. done. Qed.

(** *** Statistics *)

(** C7, as stated, fails: a metadata file that does not decode is
    counted by the statistics and is absent from the catalog. *)
Lemma stats_count_damaged_entry :
  metadataFiles damaged = [(["acme"; "widgets"; "1.0"; "metadata.json"], "{")] /\
  jsonUnmarshal "{" = None /\
  totalSize (GetStats c damaged now) = Some 9 /\
  ListCachedLibraries c damaged = (Some [], None).
Proof. vm_compute. done. Qed.

(** [stats_total_size] on the cache with the damaged metadata, where
    the catalog is empty and the statistics count the one file of one
    byte with the eight bytes of its content, and on the cache with its
    two versions, where the catalog has every file. *)
Lemma stats_total_size_example :
  ListCachedLibraries c damaged = (Some [], None) /\
  cs_TotalSize statsOfDamaged = 9 /\
  cs_TotalSize statsOfDamaged
    = Int64.wrap (sumZ (map (measuredSize damaged)
                            (List.filter isMetadataFile
                                         (walked damaged (librariesDir c))))) /\
  cs_TotalSize statsOfTwoVersions
    = Int64.sum (map (fun lv : CachedLibrary * VersionInfo => vi_Size lv.2)
                     (entries catalogOfTwoVersions)).
Proof.
  split; [vm_compute; reflexivity |]. split; [reflexivity |]. split.
  - apply (stats_total_size c damaged now statsOfDamaged).
    vm_compute. reflexivity.
  - refine (proj2 (stats_total_size c twoVersions now statsOfTwoVersions _)
                  catalogOfTwoVersions _ _).
    + vm_compute. reflexivity.
    + vm_compute. reflexivity.
    + apply (proj1 (Forall_forall
                      (fun kn => isMetadataFile kn = true ->
                                 catalogued twoVersions (librariesDir c) kn) _)).
      set (visited := Os.walkList twoVersions (librariesDir c)).
      vm_compute in visited. subst visited.
      repeat apply Forall_cons_2; try apply Forall_nil_2;
        intros Hm; try discriminate Hm.
      * split; [| simpl; lia]. exists "40 days ago", fetched40DaysAgo.
        split; vm_compute; reflexivity.
      * split; [| simpl; lia]. exists "yesterday", fetchedYesterday.
        split; vm_compute; reflexivity.
Defined.

(** *** Pruning *)

(** C4 fails on the code: with two catalog entries for the one
    directory of version 1.0 (see C8), the dry run reports two
    removals, and the real prune of the same cache state reports one,
    the second removal finding the directory gone. *)
Theorem dry_run_reports_more_than_removed :
  metadataFiles nested
    = [(["acme"; "widgets"; "1.0"; "beta"; "metadata.json"], "40 days ago");
       (["acme"; "widgets"; "1.0"; "metadata.json"], "40 days ago")] /\
  summary (ListCachedLibraries c nested) = Some [("/acme/widgets", ["1.0"; "1.0"])] /\
  (Prune c nested (prune true false) now).2
    = inr {| pr_RemovedCount := 2; pr_FreedSpace := 34;
             pr_RemovedItems := ["/acme/widgets@1.0"; "/acme/widgets@1.0"] |} /\
  (Prune c nested (prune false false) now).2
    = inr {| pr_RemovedCount := 1; pr_FreedSpace := 15;
             pr_RemovedItems := ["/acme/widgets@1.0"] |}.
Proof. vm_compute. done. Qed.

(** C5 fails on the code: the only version of a library, fetched at
    the zero time, is removed by a prune that keeps the latest version. *)
Theorem keep_latest_removes_only_version :
  metadataFiles zeroTime = [(["acme"; "widgets"; "1.0"; "metadata.json"], "never")] /\
  decode "never" = Some fetchedNever /\
  md_FetchedAt fetchedNever = GoTime.zero /\
  summary (ListCachedLibraries c zeroTime) = Some [("/acme/widgets", ["1.0"])] /\
  (Prune c zeroTime (prune false true) now).2
    = inr {| pr_RemovedCount := 1; pr_FreedSpace := 9;
             pr_RemovedItems := ["/acme/widgets@1.0"] |} /\
  summary (ListCachedLibraries c (Prune c zeroTime (prune false true) now).1)
    = Some [].
Proof. vm_compute. done. Qed.

(** [prune_result_consistent] on the real prune of the two versions. *)
Lemma prune_result_consistent_example :
  Prune c twoVersions (prune false false) now = (afterPrune, inr pruned) /\
  pr_RemovedCount pruned = Z.of_nat (length (pr_RemovedItems pruned)).
Proof.
  assert (H : Prune c twoVersions (prune false false) now = (afterPrune, inr pruned))
    by (apply with_result; vm_compute; reflexivity).
  split; [exact H |].
  exact (proj1 (prune_result_consistent c twoVersions afterPrune
                  (prune false false) now pruned H)).
Defined.

(** The scenario of the specification: with a threshold of 30 days,
    1.0 (40 days old) is removed whether or not the latest version is
    kept, and 2.0 (one day old) stays. *)
Example prune_scenario :
  removedItems (Prune c twoVersions (prune false false) now).2
    = Some ["/acme/widgets@1.0"] /\
  removedItems (Prune c twoVersions (prune false true) now).2
    = Some ["/acme/widgets@1.0"] /\
  summary (ListCachedLibraries c afterPrune) = Some [("/acme/widgets", ["2.0"])].
Proof. vm_compute. done. Qed.

(** [prune_matches_dry_run]: the cache with its two versions is well
    formed and properly nested, so its real prune reports what the dry
    run reports. *)
Example prune_matches_dry_run_example :
  (Prune c twoVersions (withDryRun (prune true false) false) now).2
  = (Prune c twoVersions (withDryRun (prune true false) true) now).2.
Proof.
  apply prune_matches_dry_run.
  - apply wellFormedNodes_wellFormed.
    apply (bool_decide_unpack _). vm_compute. reflexivity.
  - apply properlyNestedNodes_properlyNested.
    apply (bool_decide_unpack _). vm_compute. reflexivity.
Defined.

End Examples.

(** ** The default version, validity and the creation of a cache *)

Section StoreWrappers.
Context `{RT : Runtime}.
Import CacheOps CacheAdmin.

Lemma getCacheDir_slash (c : Cache) (id version : string) :
  getCacheDir c (String "/" id) version = getCacheDir c id version.
Proof.
  unfold getCacheDir. cbn [Str.trimPrefixSlash].
  change (Ascii.eqb "/" Str.slash) with true. cbv iota.
  destruct id as [| a r]; [done |]. cbn [Str.trimPrefixSlash].
  destruct (Ascii.eqb a Str.slash) eqn:E; [| done].
  apply Ascii.eqb_eq in E. subst a.
  cbn [Str.splitSlash]. change (Ascii.eqb Str.slash Str.slash) with true. cbv iota.
  reflexivity.
Qed.

Lemma getCacheDir_trim (c : Cache) (id version : string) :
  getCacheDir c (Str.trimPrefixSlash id) version = getCacheDir c id version.
Proof.
  destruct id as [| a r]; [done |]. cbn [Str.trimPrefixSlash].
  destruct (Ascii.eqb a Str.slash) eqn:E; [| done].
  apply Ascii.eqb_eq in E. subst a. symmetry. apply getCacheDir_slash.
Qed.

Lemma getCacheDir_default (c : Cache) (id : string) :
  getCacheDir c id "" = getCacheDir c id "default".
Proof. reflexivity. Qed.

(** X1: the version that is not given is the version ["default"]:
    [Get] and [Set] read and write the very entry that
    [GetWithVersion] and [SetWithVersion] reach under that name. *)
Theorem default_version_alias (c : Cache) (fs : FS) (id content : string)
    (metadata : Metadata) (maxAge : GoTime.Duration) (now : GoTime.Time) :
  getCacheDir c id "" = getCacheDir c id "default" /\
  Get c fs id maxAge now = GetWithVersion c fs id "default" maxAge now /\
  Set_ c fs id content metadata now
    = SetWithVersion c fs id "default" content metadata now.
Proof.
  split; [reflexivity |].
  unfold Get, Set_, GetWithVersion, SetWithVersion.
  by rewrite !getCacheDir_default.
Qed.

(** X2: the separator in front of a library identifier is optional:
    with it and without it the entry directory is the same, so reads
    and writes under ["/org/name"] and ["org/name"] meet. *)
Theorem leading_slash_ignored (c : Cache) (fs : FS) (id version content : string)
    (metadata : Metadata) (maxAge : GoTime.Duration) (now : GoTime.Time) :
  getCacheDir c (String "/" id) version = getCacheDir c id version /\
  GetWithVersion c fs (String "/" id) version maxAge now
    = GetWithVersion c fs id version maxAge now /\
  SetWithVersion c fs (String "/" id) version content metadata now
    = SetWithVersion c fs id version content metadata now.
Proof.
  split; [apply getCacheDir_slash |].
  unfold GetWithVersion, SetWithVersion.
  by rewrite !getCacheDir_slash.
Qed.

(** The entry that a read returns is available. *)
Lemma available_of_read (c : Cache) (fs : FS) (id version : string)
    (maxAge : GoTime.Duration) (now : GoTime.Time) (entry : CacheEntry) :
  GetWithVersion c fs id version maxAge now = inr entry ->
  available c fs id version maxAge now entry.
Proof.
  unfold available, GetWithVersion, metadataPath, contentPath.
  change (Path.join (getCacheDir c id version) ["metadata.json"])
    with (getCacheDir c id version ++ ["metadata.json"]).
  change (Path.join (getCacheDir c id version) ["content.txt"])
    with (getCacheDir c id version ++ ["content.txt"]).
  destruct (Os.stat fs _) as [e | [data mtime |]]; simpl; try done.
  destruct (jsonDecode data) as [md |] eqn:ED; [| done].
  destruct (Z.gtb_spec (GoTime.since now (md_FetchedAt md)) maxAge) as [| Hok];
    [done |].
  destruct (Os.readFile fs _) as [e | bytes] eqn:EC; [done |].
  intros [= <-]. exists data, mtime. simpl. repeat split; done.
Qed.

(** X3: [IsValid] answers true exactly when the default version of
    the library has an entry that a read would return: metadata that
    opens and decodes, a timestamp within [maxAge], content that can
    be read. *)
Theorem IsValid_iff_available (c : Cache) (fs : FS) (id : string)
    (maxAge : GoTime.Duration) (now : GoTime.Time) :
  IsValid c fs id maxAge now = true <->
  exists entry, available c fs id "" maxAge now entry.
Proof.
  unfold IsValid, Get. split.
  - destruct (GetWithVersion c fs id "" maxAge now) as [e | entry] eqn:E; [done |].
    intros _. exists entry. by apply available_of_read.
  - intros [entry H]. by rewrite (read_available _ _ _ _ _ _ _ H).
Qed.

(** *** NewCache *)

Lemma mkdirs_existing (qs : list path) (fs : FS) :
  (forall q, q ∈ qs -> fs !! q = Some Dir) -> Os.mkdirs fs qs = inr fs.
Proof.
  induction qs as [| q qs IH]; simpl; intros H; [done |].
  rewrite (H q) by left. apply IH. intros q' Hq'. apply H. by right.
Qed.

Lemma mkdirAll_existing (fs : FS) (p : path) :
  Os.firstErr fs (Path.chain p) = None -> Os.mkdirAll fs p = inr fs.
Proof. intros H. apply mkdirs_existing. by apply firstErr_None. Qed.

Lemma firstErr_chain_app (fs : FS) (p : path) (s : string) :
  Os.firstErr fs (Path.chain (p ++ [s])) = None ->
  Os.firstErr fs (Path.chain p) = None.
Proof.
  rewrite !firstErr_None. intros H q Hq. apply H.
  apply elem_of_chain in Hq as (n & Hn & ->). apply elem_of_chain.
  exists n. rewrite length_app. simpl. split; [lia |].
  by rewrite take_app_le by lia.
Qed.

Lemma firstErr_kept (fs fs' : FS) (qs : list path) :
  (forall q, is_Some (fs !! q) -> fs' !! q = fs !! q) ->
  Os.firstErr fs qs = None -> Os.firstErr fs' qs = None.
Proof.
  intros Hkeep H. rewrite firstErr_None in *. intros q Hq.
  rewrite Hkeep; [by apply H |]. by rewrite (H q Hq).
Qed.

Lemma NewCache_steps (fs fs' : FS) (dir : path) (c : Cache) :
  NewCache fs dir = (fs', inr c) ->
  baseDir c = dir /\
  Os.firstErr fs' (Path.chain (dir ++ ["libraries"])) = None /\
  Os.firstErr fs' (Path.chain (dir ++ ["searches"])) = None /\
  (forall q, is_Some (fs !! q) -> fs' !! q = fs !! q).
Proof.
  unfold NewCache.
  change (Path.join dir ["libraries"]) with (dir ++ ["libraries"]).
  change (Path.join dir ["searches"]) with (dir ++ ["searches"]).
  destruct (Os.mkdirAll fs dir) as [e | fs1] eqn:E1; [done |].
  destruct (Os.mkdirAll fs1 _) as [e | fs2] eqn:E2; [done |].
  destruct (Os.mkdirAll fs2 _) as [e | fs3] eqn:E3; [done |].
  intros [= <- <-].
  apply mkdirAll_ok in E1 as (_ & _ & K1).
  apply mkdirAll_ok in E2 as (D2 & _ & K2).
  apply mkdirAll_ok in E3 as (D3 & _ & K3).
  split; [done |]. split; [by apply (firstErr_kept fs2) |]. split; [done |].
  intros q Hq.
  assert (H1 : fs1 !! q = fs !! q) by by apply K1.
  assert (H2 : fs2 !! q = fs1 !! q) by (apply K2; by rewrite H1).
  rewrite K3; [congruence |]. by rewrite H2, H1.
Qed.

(** X4: a cache that [NewCache] returns has its root directory and
    the two subdirectories, libraries and searches, in place, and
    every file and directory that was there before is as it was. *)
Theorem NewCache_creates_directories (fs fs' : FS) (dir : path) (c : Cache) :
  NewCache fs dir = (fs', inr c) ->
  baseDir c = dir /\
  Os.stat fs' dir = inr Dir /\
  Os.stat fs' (dir ++ ["libraries"]) = inr Dir /\
  Os.stat fs' (dir ++ ["searches"]) = inr Dir /\
  (forall q, is_Some (fs !! q) -> fs' !! q = fs !! q).
Proof.
  intros H. apply NewCache_steps in H as (Hc & HL & HS & Hkeep).
  split; [done |].
  split; [apply stat_chain; by apply firstErr_chain_app in HL |].
  split; [by apply stat_chain |]. split; [by apply stat_chain |]. done.
Qed.

(** X5: [NewCache] on a directory that it has set up before succeeds
    again and changes nothing. *)
Theorem NewCache_idempotent (fs fs' : FS) (dir : path) (c : Cache) :
  NewCache fs dir = (fs', inr c) -> NewCache fs' dir = (fs', inr c).
Proof.
  intros H. apply NewCache_steps in H as (Hc & HL & HS & _).
  unfold NewCache.
  change (Path.join dir ["libraries"]) with (dir ++ ["libraries"]).
  change (Path.join dir ["searches"]) with (dir ++ ["searches"]).
  rewrite (mkdirAll_existing fs' dir) by by apply firstErr_chain_app in HL.
  rewrite (mkdirAll_existing fs' _ HL), (mkdirAll_existing fs' _ HS).
  destruct c. simpl in Hc. by subst.
Qed.

End StoreWrappers.

(** ** Removal and the entries that it leaves *)

Section RemovalEffects.
Context `{RT : Runtime}.
Import CacheOps CacheAdmin.

Lemma removeQuiet_sub (fs : FS) (p q : path) (m : node) :
  removeQuiet fs p !! q = Some m -> fs !! q = Some m.
Proof.
  unfold removeQuiet, Os.remove.
  destruct (Os.stat fs p) as [e | [data t |]]; try done.
  - by intros [_ H]%lookup_delete_Some.
  - destruct p as [| s p']; [done |].
    destruct (Os.children fs (s :: p')); [| done].
    by intros [_ H]%lookup_delete_Some.
Qed.

Lemma removeIfEmpty_sub (fs : FS) (d q : path) (m : node) :
  (removeIfEmpty fs d).1 !! q = Some m -> fs !! q = Some m.
Proof.
  unfold removeIfEmpty.
  destruct (Os.readDir fs d) as [e | [| kn rest]]; try done.
  apply removeQuiet_sub.
Qed.

Lemma firstErr_dirs_or_missing (fs : FS) (qs : list path) :
  (forall q, q ∈ qs -> fs !! q = None \/ fs !! q = Some Dir) ->
  Os.firstErr fs qs = None \/ Os.firstErr fs qs = Some ENOENT.
Proof.
  induction qs as [| q qs IH]; simpl; intros H; [by left |].
  unfold Os.dirErr. destruct (H q) as [-> | ->]; [by left | by right |].
  apply IH. intros q' Hq'. apply H. by right.
Qed.

Lemma stat_inr (fs : FS) (p : path) (n : node) :
  Os.stat fs p = inr n ->
  Os.firstErr fs (Path.ancestors p) = None /\ (p <> [] -> fs !! p = Some n).
Proof.
  destruct p as [| s p']; [done |]. unfold Os.stat.
  destruct (Os.firstErr fs _) as [e |]; [done |].
  destruct (fs !! (s :: p')) as [m |]; [| done].
  by intros [= ->].
Qed.

Lemma lookup_outside_Some (fs : FS) (p q : path) (m : node) :
  Os.outside fs p !! q = Some m -> fs !! q = Some m /\ ~ p `prefix_of` q.
Proof.
  unfold Os.outside. intros [H1 H2]%map_lookup_filter_Some. split; [done |].
  intros Hpre. apply H2. unfold Os.below. cbn [fst].
  by apply Is_true_true, isPrefix_spec.
Qed.

(** Below a directory that has been removed with all it held, nothing
    can be found, whatever has been removed since. *)
Lemma miss_below_removed (fs fs' : FS) (d p : path) (s : string) (n : node) :
  Os.stat fs d = inr n ->
  (forall q m, fs' !! q = Some m -> Os.outside fs d !! q = Some m) ->
  d `prefix_of` p ->
  Os.stat fs' (p ++ [s]) = inl ENOENT.
Proof.
  intros Hstat Hsub Hpre. rewrite stat_child.
  apply stat_inr in Hstat as [Hanc _].
  assert (Hleaf : fs' !! (p ++ [s]) = None).
  { destruct (fs' !! (p ++ [s])) as [m |] eqn:E; [| done].
    apply Hsub, lookup_outside_Some in E as [_ E]. destruct E.
    by apply prefix_app_r. }
  rewrite Hleaf.
  destruct (firstErr_dirs_or_missing fs' (Path.chain p)) as [-> | ->]; try done.
  intros q Hq. destruct (fs' !! q) as [m |] eqn:E; [right | by left].
  apply Hsub, lookup_outside_Some in E as [E Hnot]. f_equal.
  apply elem_of_chain in Hq as (k & Hk & ->).
  destruct Hpre as [rest ->].
  destruct (decide (length d <= k)) as [Hle | Hgt].
  - destruct Hnot. rewrite take_app_ge by done. by apply prefix_app_r.
  - rewrite take_app_le in E by lia.
    pose proof (proj1 (firstErr_None _ _) Hanc (take k d)) as Hd.
    rewrite Hd in E; [congruence |].
    unfold Path.ancestors. apply list_elem_of_fmap. exists k. split; [done |].
    apply elem_of_seq. lia.
Qed.

Lemma RemoveLibraryVersion_inv (c : Cache) (fs fs' : FS) (id version : string) :
  RemoveLibraryVersion c fs id version = (fs', None) ->
  exists n,
    Os.stat fs (getCacheDir c id version) = inr n /\
    forall q m, fs' !! q = Some m ->
                Os.outside fs (getCacheDir c id version) !! q = Some m.
Proof.
  unfold RemoveLibraryVersion. rewrite getCacheDir_trim. unfold Os.removeAll.
  destruct (Os.stat fs (getCacheDir c id version)) as [e | n] eqn:Es.
  { by destruct e. }
  intros H. exists n. split; [done |].
  destruct (Str.splitSlash (Str.trimPrefixSlash id)) as [| org [| library rest]].
  - by injection H as <-.
  - by injection H as <-.
  - destruct (removeIfEmpty _ _) as [fs2 emptied] eqn:E2.
    assert (H2 : forall q m, fs2 !! q = Some m ->
                   Os.outside fs (getCacheDir c id version) !! q = Some m).
    { intros q m Hq. apply (removeIfEmpty_sub _ (Path.join (baseDir c)
                                                    ["libraries"; org; library])).
      by rewrite E2. }
    destruct emptied; injection H as <-; [| done].
    intros q m Hq. apply removeIfEmpty_sub in Hq. by apply H2.
Qed.

Lemma RemoveLibrary_inv (c : Cache) (fs fs' : FS) (id : string) :
  RemoveLibrary c fs id = (fs', None) ->
  exists org library rest n,
    Str.splitSlash (Str.trimPrefixSlash id) = org :: library :: rest /\
    Os.stat fs (Path.join (baseDir c) ["libraries"; org; library]) = inr n /\
    forall q m, fs' !! q = Some m ->
                Os.outside fs (Path.join (baseDir c) ["libraries"; org; library]) !! q
                = Some m.
Proof.
  unfold RemoveLibrary. unfold Os.removeAll.
  destruct (Str.splitSlash (Str.trimPrefixSlash id)) as [| org [| library rest]];
    try done.
  destruct (Os.stat fs _) as [e | n] eqn:Es.
  { by destruct e. }
  intros [= <-]. exists org, library, rest, n. repeat split; try done.
  intros q m. apply removeIfEmpty_sub.
Qed.

(** In this file system, where [os.RemoveAll] fails only on a regular
    file on the way to its path, a removal that returns an error has
    removed nothing. *)
Lemma RemoveLibrary_failed (c : Cache) (fs fs' : FS) (id : string) (e : error) :
  RemoveLibrary c fs id = (fs', Some e) -> fs' = fs.
Proof.
  unfold RemoveLibrary.
  destruct (Str.splitSlash _) as [| org [| library rest]];
    try by intros [= <-].
  destruct (Os.stat fs _) as [[] | n]; try (by intros [= <-]);
    destruct (Os.removeAll fs _); by intros [= <-].
Qed.

Lemma RemoveLibraryVersion_failed (c : Cache) (fs fs' : FS) (id version : string)
    (e : error) :
  RemoveLibraryVersion c fs id version = (fs', Some e) -> fs' = fs.
Proof.
  unfold RemoveLibraryVersion.
  destruct (Os.stat fs _) as [[] | n]; try (by intros [= <-]);
    (destruct (Os.removeAll fs _); [by intros [= <-] |]);
    (destruct (Str.splitSlash _) as [| org [| library rest]]; try done;
     destruct (removeIfEmpty _ _) as [fs2 []]; done).
Qed.

(** X6: the errors of a removal, and what is known of the file system
    when one is returned.  [RemoveLibrary] fails with an identifier
    that has no two parts, with a library directory that does not
    exist, or with the error of [os.RemoveAll]; [RemoveLibraryVersion]
    fails with a version directory that does not exist or with the
    error of [os.RemoveAll]; [ForceUpdate] fails as the one of the two
    that it calls.  The identifier and the existence of the directory
    are checked before anything is removed: with these errors the file
    system is as it was.  Nothing is said of the file system after a
    failure of [os.RemoveAll], and an error of the clean-up of the
    parent directories is never returned. *)
Theorem removal_checks_come_first (c : Cache) (fs : FS) (id version : string) :
  (forall fs' e,
     RemoveLibrary c fs id = (fs', Some e) ->
     (e = InvalidLibraryID (Str.trimPrefixSlash id) /\
      length (Str.splitSlash (Str.trimPrefixSlash id)) < 2 /\ fs' = fs) \/
     (e = LibraryNotFound (Str.trimPrefixSlash id) /\
      (exists org library rest,
         Str.splitSlash (Str.trimPrefixSlash id) = org :: library :: rest /\
         Os.stat fs (Path.join (baseDir c) ["libraries"; org; library]) = inl ENOENT) /\
      fs' = fs) \/
     (exists org library rest errno,
        Str.splitSlash (Str.trimPrefixSlash id) = org :: library :: rest /\
        Os.removeAll fs (Path.join (baseDir c) ["libraries"; org; library]) = inl errno /\
        e = RemoveLibraryFailed errno)) /\
  (forall fs' e,
     RemoveLibraryVersion c fs id version = (fs', Some e) ->
     (e = VersionNotFound (Str.trimPrefixSlash id) version /\
      Os.stat fs (getCacheDir c (Str.trimPrefixSlash id) version) = inl ENOENT /\
      fs' = fs) \/
     (exists errno,
        Os.removeAll fs (getCacheDir c (Str.trimPrefixSlash id) version) = inl errno /\
        e = RemoveVersionFailed errno)) /\
  (forall fs' e,
     ForceUpdate c fs id version = (fs', Some e) ->
     (exists errno, e = RemoveLibraryFailed errno \/ e = RemoveVersionFailed errno) \/
     fs' = fs).
Proof.
  assert (HL : forall fs' e,
     RemoveLibrary c fs id = (fs', Some e) ->
     (e = InvalidLibraryID (Str.trimPrefixSlash id) /\
      length (Str.splitSlash (Str.trimPrefixSlash id)) < 2 /\ fs' = fs) \/
     (e = LibraryNotFound (Str.trimPrefixSlash id) /\
      (exists org library rest,
         Str.splitSlash (Str.trimPrefixSlash id) = org :: library :: rest /\
         Os.stat fs (Path.join (baseDir c) ["libraries"; org; library]) = inl ENOENT) /\
      fs' = fs) \/
     (exists org library rest errno,
        Str.splitSlash (Str.trimPrefixSlash id) = org :: library :: rest /\
        Os.removeAll fs (Path.join (baseDir c) ["libraries"; org; library]) = inl errno /\
        e = RemoveLibraryFailed errno)).
  { intros fs' e. unfold RemoveLibrary.
    destruct (Str.splitSlash (Str.trimPrefixSlash id)) as [| org [| library rest]].
    - intros [= <- <-]. left. simpl. split; [done |]. split; [lia | done].
    - intros [= <- <-]. left. simpl. split; [done |]. split; [lia | done].
    - destruct (Os.stat fs _) as [errno | n] eqn:Es.
      + destruct errno;
          try (intros [= <- <-]; right; left; split; [done |];
               split; [by exists org, library, rest | done]);
          (destruct (Os.removeAll fs _) as [errno |] eqn:Er; [| done];
           intros [= <- <-]; right; right; by exists org, library, rest, errno).
      + destruct (Os.removeAll fs _) as [errno |] eqn:Er; [| done].
        intros [= <- <-]. right. right. by exists org, library, rest, errno. }
  assert (HV : forall fs' e,
     RemoveLibraryVersion c fs id version = (fs', Some e) ->
     (e = VersionNotFound (Str.trimPrefixSlash id) version /\
      Os.stat fs (getCacheDir c (Str.trimPrefixSlash id) version) = inl ENOENT /\
      fs' = fs) \/
     (exists errno,
        Os.removeAll fs (getCacheDir c (Str.trimPrefixSlash id) version) = inl errno /\
        e = RemoveVersionFailed errno)).
  { intros fs' e. unfold RemoveLibraryVersion.
    destruct (Os.stat fs _) as [errno | n] eqn:Es.
    - destruct errno; try (intros [= <- <-]; by left);
        (destruct (Os.removeAll fs _) as [errno |] eqn:Er;
         [intros [= <- <-]; right; by exists errno |];
         destruct (Str.splitSlash _) as [| org [| library rest]]; try done;
         destruct (removeIfEmpty _ _) as [fs2 []]; done).
    - destruct (Os.removeAll fs _) as [errno |] eqn:Er;
        [intros [= <- <-]; right; by exists errno |].
      destruct (Str.splitSlash _) as [| org [| library rest]]; try done.
      destruct (removeIfEmpty _ _) as [fs2 []]; done. }
  split; [exact HL |]. split; [exact HV |].
  intros fs' e. unfold ForceUpdate. destruct (String.eqb version "").
  - intros H. destruct (HL _ _ H) as [(_ & _ & ->) | [(_ & _ & ->) | H']];
      [by right | by right |].
    destruct H' as (org & library & rest & errno & _ & _ & ->).
    left. exists errno. by left.
  - intros H. destruct (HV _ _ H) as [(_ & _ & ->) | (errno & _ & ->)];
      [by right |].
    left. exists errno. by right.
Qed.

(** X7: once [RemoveLibraryVersion] has succeeded, a read of that
    version of the library is a cache miss, whatever the age allowed. *)
Theorem removed_version_misses (c : Cache) (fs fs' : FS) (id version : string)
    (maxAge : GoTime.Duration) (now : GoTime.Time) :
  RemoveLibraryVersion c fs id version = (fs', None) ->
  GetWithVersion c fs' id version maxAge now = inl (CacheMiss ENOENT).
Proof.
  intros (n & Hstat & Hsub)%RemoveLibraryVersion_inv.
  unfold GetWithVersion.
  change (Path.join (getCacheDir c id version) ["metadata.json"])
    with (getCacheDir c id version ++ ["metadata.json"]).
  by rewrite (miss_below_removed fs fs' _ _ _ n Hstat Hsub).
Qed.

Lemma validName_default : validName "default".
Proof. by repeat split. Qed.

Lemma getCacheDir_idOf (c : Cache) (org name version : string) :
  validName org -> validName name -> version = "" \/ validName version ->
  getCacheDir c (idOf org name) version
  = librariesDir c ++ [org; name] ++ [if String.eqb version "" then "default" else version].
Proof.
  intros Ho Hn Hv.
  change (idOf org name) with (String "/" (String.append org (String Str.slash name))).
  rewrite getCacheDir_slash.
  destruct Hv as [-> | Hv].
  - rewrite getCacheDir_default, getCacheDir_valid by (done || apply validName_default).
    done.
  - rewrite getCacheDir_valid by done.
    destruct Hv as (_ & Hv%String.eqb_neq & _). by rewrite Hv.
Qed.

Lemma getCacheDir_versionDir (c : Cache) (org name version : string) :
  validName org -> validName name -> validName version ->
  getCacheDir c (idOf org name) version = versionDir c org name version.
Proof.
  intros Ho Hn Hv.
  change (idOf org name) with (String "/" (String.append org (String Str.slash name))).
  rewrite getCacheDir_slash. by apply getCacheDir_valid.
Qed.

Lemma libraryDir_valid (c : Cache) (org name : string) :
  validName org -> validName name ->
  Path.join (baseDir c) ["libraries"; org; name] = librariesDir c ++ [org; name].
Proof.
  intros Ho Hn. rewrite join_valid.
  - unfold librariesDir. by rewrite <- app_assoc.
  - repeat (apply Forall_cons; split); done.
Qed.

Lemma removed_library_miss (c : Cache) (fs fs' : FS) (org name version : string)
    (maxAge : GoTime.Duration) (now : GoTime.Time) :
  validName org -> validName name -> version = "" \/ validName version ->
  RemoveLibrary c fs (idOf org name) = (fs', None) ->
  GetWithVersion c fs' (idOf org name) version maxAge now = inl (CacheMiss ENOENT).
Proof.
  intros Ho Hn Hv (org' & name' & rest & n & Hsplit & Hstat & Hsub)%RemoveLibrary_inv.
  rewrite idOf_trimPrefix, splitSlash_id in Hsplit by done.
  injection Hsplit as <- <- <-.
  rewrite libraryDir_valid in Hstat, Hsub by done.
  unfold GetWithVersion.
  change (Path.join (getCacheDir c (idOf org name) version) ["metadata.json"])
    with (getCacheDir c (idOf org name) version ++ ["metadata.json"]).
  rewrite (miss_below_removed fs fs' (librariesDir c ++ [org; name]) _ _ n Hstat Hsub);
    [done |].
  rewrite getCacheDir_idOf by done. rewrite app_assoc. by apply prefix_app_r.
Qed.

(** X8: once [RemoveLibrary] has succeeded for a library [/org/name],
    a read of any of its versions, the default one included, is a
    cache miss. *)
Theorem removed_library_misses (c : Cache) (fs fs' : FS) (org name version : string)
    (maxAge : GoTime.Duration) (now : GoTime.Time) :
  validName org -> validName name -> version = "" \/ validName version ->
  RemoveLibrary c fs (idOf org name) = (fs', None) ->
  GetWithVersion c fs' (idOf org name) version maxAge now = inl (CacheMiss ENOENT) /\
  (version = "" -> IsValid c fs' (idOf org name) maxAge now = false).
Proof.
  intros Ho Hn Hv H.
  pose proof (removed_library_miss c fs fs' org name version maxAge now Ho Hn Hv H) as Hm.
  split; [done |]. intros ->. unfold IsValid, Get. by rewrite Hm.
Qed.

(** X9: [ForceUpdate] does what its name says: after it has succeeded,
    with a version or without one, the next read of what it was asked
    to invalidate is a cache miss, so that the caller fetches anew. *)
Theorem ForceUpdate_forces_miss (c : Cache) (fs fs' : FS) (org name version : string)
    (maxAge : GoTime.Duration) (now : GoTime.Time) :
  validName org -> validName name -> version = "" \/ validName version ->
  ForceUpdate c fs (idOf org name) version = (fs', None) ->
  GetWithVersion c fs' (idOf org name) version maxAge now = inl (CacheMiss ENOENT).
Proof.
  intros Ho Hn Hv. unfold ForceUpdate.
  destruct (String.eqb_spec version "") as [-> | Hne].
  - by apply removed_library_miss.
  - intros (n & Hstat & Hsub)%RemoveLibraryVersion_inv.
    unfold GetWithVersion.
    change (Path.join (getCacheDir c (idOf org name) version) ["metadata.json"])
      with (getCacheDir c (idOf org name) version ++ ["metadata.json"]).
    by rewrite (miss_below_removed fs fs' _ _ _ n Hstat Hsub).
Qed.

(** The nodes at and above the directory of a version, and the files
    in it, are what they were after the removal of another version. *)
Lemma RemoveLibraryVersion_frame (c : Cache) (fs fs' : FS)
    (org name version org' name' version' : string) :
  validName org -> validName name -> validName version ->
  (org', name', version') <> (org, name, version) ->
  RemoveLibraryVersion c fs (idOf org name) version = (fs', None) ->
  Os.firstErr fs (Path.chain (versionDir c org' name' version')) = None ->
  forall q, q ∈ Path.chain (versionDir c org' name' version') \/
            (exists s, q = versionDir c org' name' version' ++ [s]) ->
            fs' !! q = fs !! q.
Proof.
  intros Ho Hn Hv Hne. unfold RemoveLibraryVersion.
  rewrite idOf_trimPrefix, getCacheDir_valid by done. unfold Os.removeAll.
  destruct (Os.stat fs (versionDir c org name version)) as [e | n] eqn:Es.
  { by destruct e. }
  rewrite splitSlash_id by done.
  rewrite !join_valid
    by (repeat (apply Forall_cons; split); try done; apply validName_libraries).
  set (V := versionDir c org name version).
  set (V' := versionDir c org' name' version').
  set (fs1 := Os.outside fs V).
  intros H Hdir'.
  assert (HVV : V' <> V).
  { intros Heq. apply versionDir_inj in Heq as (-> & -> & ->). by apply Hne. }
  assert (Hlen : length V' = length V)
    by (unfold V, V', versionDir; rewrite !length_app; simpl; lia).
  assert (HlenV : length V = length (baseDir c) + 4)
    by (unfold V, versionDir, librariesDir; rewrite !length_app; simpl; lia).
  assert (Hall' := proj1 (firstErr_None _ _) Hdir').
  assert (Hnotpre : forall q, q ∈ Path.chain V' \/ (exists s, q = V' ++ [s]) ->
                      ~ V `prefix_of` q).
  { intros q [Hq | [s ->]] Hpre.
    - pose proof (chain_length _ _ Hq) as Hl.
      pose proof (prefix_length _ _ Hpre) as Hl'.
      apply elem_of_chain in Hq as (k & Hk & ->).
      rewrite length_take in Hl'. assert (k = length V') as -> by lia.
      rewrite firstn_all in Hpre. apply HVV. symmetry.
      apply prefix_length_eq; [done | lia].
    - destruct Hpre as [rest Hrest].
      assert (Hr : length rest = 1%nat).
      { apply (f_equal length) in Hrest. rewrite !length_app in Hrest.
        simpl in Hrest. lia. }
      destruct rest as [| r [| ? ?]]; try done.
      apply app_inj_tail in Hrest as [Hrest _]. by apply HVV. }
  assert (H1 : forall q, q ∈ Path.chain V' \/ (exists s, q = V' ++ [s]) ->
                 fs1 !! q = fs !! q).
  { intros q Hq. apply lookup_outside. by apply Hnotpre. }
  assert (Hstep : forall (g : FS) (d : path),
             (forall q, q ∈ Path.chain V' \/ (exists s, q = V' ++ [s]) ->
                        g !! q = fs !! q) ->
             length d < length V' ->
             forall q, q ∈ Path.chain V' \/ (exists s, q = V' ++ [s]) ->
                       (removeIfEmpty g d).1 !! q = fs !! q).
  { intros g d Hg Hd q Hq. rewrite removeIfEmpty_lookup; [by apply Hg |].
    intros ->. destruct Hq as [Hq | [s Hs]].
    - destruct (chain_next V' d Hq Hd) as [s Hs]. exists s, Dir.
      rewrite Hg by by left. by apply Hall'.
    - apply (f_equal length) in Hs. rewrite length_app in Hs. simpl in Hs. lia. }
  destruct (removeIfEmpty fs1 (baseDir c ++ ["libraries"; org; name]))
    as [fs2 emptied] eqn:E2.
  assert (H2 : forall q, q ∈ Path.chain V' \/ (exists s, q = V' ++ [s]) ->
                 fs2 !! q = fs !! q).
  { intros q Hq. change fs2 with (fs2, emptied).1. rewrite <- E2.
    apply Hstep; [done | | done]. rewrite length_app. simpl. lia. }
  destruct emptied; injection H as <-; [| done].
  intros q Hq. apply Hstep; [done | | done]. rewrite length_app. simpl. lia.
Qed.

(** X10: the removal of one version leaves the entries of the other
    versions, of this library and of every other, as they were: an
    entry that could be read before is read with the same result. *)
Theorem other_entries_survive_removal (c : Cache) (fs fs' : FS)
    (org name version org' name' version' : string)
    (maxAge : GoTime.Duration) (now : GoTime.Time) (entry : CacheEntry) :
  validName org -> validName name -> validName version ->
  validName org' -> validName name' -> validName version' ->
  (org', name', version') <> (org, name, version) ->
  RemoveLibraryVersion c fs (idOf org name) version = (fs', None) ->
  GetWithVersion c fs (idOf org' name') version' maxAge now = inr entry ->
  GetWithVersion c fs' (idOf org' name') version' maxAge now = inr entry.
Proof.
  intros Ho Hn Hv Ho' Hn' Hv' Hne Hrm Hread.
  apply read_available. apply available_of_read in Hread.
  destruct Hread as (data & mtime & Hm & Hd & Hage & Hc).
  exists data, mtime. repeat split; try done.
  - revert Hm. unfold metadataPath.
    rewrite getCacheDir_versionDir by done. rewrite !stat_child.
    destruct (Os.firstErr fs (Path.chain (versionDir c org' name' version')))
      as [e |] eqn:Ed; [done |].
    assert (Hf := RemoveLibraryVersion_frame c fs fs' org name version
                    org' name' version' Ho Hn Hv Hne Hrm Ed).
    rewrite (firstErr_ext fs fs') by (intros q Hq; apply Hf; by left).
    rewrite Ed, Hf by (right; by eexists). done.
  - revert Hm Hc. unfold metadataPath, contentPath, Os.readFile.
    rewrite getCacheDir_versionDir by done. rewrite !stat_child.
    destruct (Os.firstErr fs (Path.chain (versionDir c org' name' version')))
      as [e |] eqn:Ed; [done |].
    assert (Hf := RemoveLibraryVersion_frame c fs fs' org name version
                    org' name' version' Ho Hn Hv Hne Hrm Ed).
    rewrite (firstErr_ext fs fs') by (intros q Hq; apply Hf; by left).
    rewrite Ed, Hf by (right; by eexists). done.
Qed.

End RemovalEffects.

(** ** Clearing the cache *)

Section Clearing.
Context `{RT : Runtime}.
Import CacheOps CacheAdmin.

Lemma searchesDir_join (c : Cache) :
  Path.join (baseDir c) ["searches"] = searchesDir c.
Proof. reflexivity. Qed.

Lemma prefix_same_length {A} (p1 p2 q : list A) :
  p1 `prefix_of` q -> p2 `prefix_of` q -> length p1 = length p2 -> p1 = p2.
Proof.
  intros H1 H2 Hlen.
  destruct (prefix_weak_total _ _ _ H1 H2) as [H | H].
  - apply prefix_length_eq; [done | lia].
  - symmetry. apply prefix_length_eq; [done | lia].
Qed.

(** In a well-formed file system every prefix of the path of a node
    can be examined. *)
Lemma wellFormed_stat (fs : FS) (p q : path) (n : node) :
  wellFormed fs -> fs !! q = Some n -> p `prefix_of` q ->
  exists m, Os.stat fs p = inr m.
Proof.
  intros Hwf Hq [rest ->].
  destruct p as [| s p']; [by exists Dir |].
  destruct (Hwf _ _ Hq) as [_ Hanc].
  pose proof (proj1 (firstErr_None _ _) Hanc) as Hall.
  unfold Os.stat.
  assert (Ha : Os.firstErr fs (Path.ancestors (s :: p')) = None).
  { apply firstErr_None. intros a Ha. apply Hall.
    unfold Path.ancestors in *.
    apply list_elem_of_fmap in Ha as (k & -> & Hk%elem_of_seq).
    apply list_elem_of_fmap. exists k. split.
    - by rewrite take_app_le by lia.
    - apply elem_of_seq. rewrite length_app. lia. }
  rewrite Ha.
  destruct rest as [| r rest'].
  - rewrite app_nil_r in Hq. rewrite Hq. by eexists.
  - rewrite (Hall (s :: p')); [by eexists |].
    unfold Path.ancestors. apply list_elem_of_fmap. exists (length (s :: p')).
    split; [by rewrite take_app_length |].
    apply elem_of_seq. rewrite length_app. simpl. lia.
Qed.

Lemma wellFormed_outside (fs : FS) (p : path) :
  wellFormed fs -> wellFormed (Os.outside fs p).
Proof.
  intros Hwf q n [Hq Hnot]%lookup_outside_Some.
  destruct (Hwf _ _ Hq) as [Hnames Hanc]. split; [done |].
  rewrite <- Hanc. apply firstErr_ext. intros a Ha. apply lookup_outside.
  intros Hpre. apply Hnot. etrans; [done |].
  unfold Path.ancestors in Ha.
  apply list_elem_of_fmap in Ha as (k & -> & _). apply prefix_take.
Qed.

(** [os.RemoveAll] in a well-formed file system: nothing is left at
    and below the path, and the rest is as it was. *)
Lemma removeAll_clears (fs fs1 : FS) (p : path) :
  wellFormed fs -> Os.removeAll fs p = inr fs1 ->
  (forall q, p `prefix_of` q -> fs1 !! q = None) /\
  (forall q, ~ p `prefix_of` q -> fs1 !! q = fs !! q) /\
  wellFormed fs1.
Proof.
  intros Hwf. unfold Os.removeAll.
  destruct (Os.stat fs p) as [e | n] eqn:Es.
  - destruct e; try done. intros [= <-]. split; [| by split].
    intros q Hpre. destruct (fs !! q) as [m |] eqn:E; [| done].
    destruct (wellFormed_stat fs p q m Hwf E Hpre) as [m' Hm']. congruence.
  - intros [= <-]. split; [| split].
    + intros q Hpre. destruct (Os.outside fs p !! q) as [m |] eqn:E; [| done].
      by apply lookup_outside_Some in E as [_ E].
    + intros q. apply lookup_outside.
    + by apply wellFormed_outside.
Qed.

Lemma removeAll_keeps (fs fs1 : FS) (p q : path) :
  Os.removeAll fs p = inr fs1 -> ~ p `prefix_of` q -> fs1 !! q = fs !! q.
Proof.
  unfold Os.removeAll. destruct (Os.stat fs p) as [[] | n]; try done.
  - by intros [= <-].
  - intros [= <-]. apply lookup_outside.
Qed.

Lemma children_nil (fs : FS) (d : path) :
  (forall q, d `prefix_of` q -> q <> d -> fs !! q = None) -> Os.children fs d = [].
Proof.
  intros H. unfold Os.children.
  destruct (List.filter _ _) as [| kn rest] eqn:E; [done |].
  assert (Hin : In kn (List.filter (Os.isChild d) (map_to_list fs)))
    by (rewrite E; by left).
  apply filter_In in Hin as [Hin Hc].
  apply list_elem_of_In in Hin. destruct kn as [q n].
  apply elem_of_map_to_list in Hin.
  unfold Os.isChild in Hc. cbn [fst] in Hc.
  apply andb_true_iff in Hc as [Hpre%isPrefix_spec Hlen%Nat.eqb_eq].
  rewrite H in Hin; [done | done |]. intros ->. lia.
Qed.

(** A walk that meets directories only leaves the catalog and the
    statistics as they are. *)
Lemma listVisit_dirs (fs : FS) (librariesDir : path) :
  forall (visited : list (path * node)) (m : gmap string CachedLibrary),
    Forall (fun kn => kn.2 = Dir) visited ->
    fold_left (listVisit fs librariesDir) visited m = m.
Proof.
  induction visited as [| kn visited IH]; intros m Hall; [done |].
  apply Forall_cons in Hall as [Hkn Hall]. simpl.
  unfold listVisit at 2. rewrite Hkn. simpl. by apply IH.
Qed.

Lemma statsVisit_dirs (fs : FS) :
  forall (visited : list (path * node)) (stats : CacheStats),
    Forall (fun kn => kn.2 = Dir) visited ->
    fold_left (statsVisit fs) visited stats = stats.
Proof.
  induction visited as [| kn visited IH]; intros stats Hall; [done |].
  apply Forall_cons in Hall as [Hkn Hall]. simpl.
  unfold statsVisit at 2, isMetadataFile. rewrite Hkn. simpl. by apply IH.
Qed.

(** A cache whose two subdirectories are there and hold nothing. *)
Lemma empty_cache_reports (c : Cache) (fs : FS) (now : GoTime.Time) :
  Os.firstErr fs (Path.chain (librariesDir c)) = None ->
  Os.firstErr fs (Path.chain (searchesDir c)) = None ->
  (forall q, librariesDir c `prefix_of` q -> q <> librariesDir c -> fs !! q = None) ->
  (forall q, searchesDir c `prefix_of` q -> q <> searchesDir c -> fs !! q = None) ->
  ListCachedLibraries c fs = (Some [], None) /\
  GetDetailedStats c fs now = inr (emptyDetailedStats c now).
Proof.
  intros HL HS HLe HSe.
  assert (Hdirs : Forall (fun kn : path * node => kn.2 = Dir)
                         (Os.walkList fs (librariesDir c))).
  { apply Forall_forall. intros [q n] [Hq Hpre]%elem_of_walkList. simpl in *.
    destruct (decide (q = librariesDir c)) as [-> | Hne].
    - rewrite (proj1 (firstErr_None _ _) HL) in Hq; [congruence |].
      apply chain_self. unfold librariesDir. by destruct (baseDir c).
    - rewrite HLe in Hq; done. }
  assert (Hlist : ListCachedLibraries c fs = (Some [], None)).
  { unfold ListCachedLibraries. rewrite librariesDir_join.
    rewrite (stat_chain _ _ HL). unfold catalogOf.
    rewrite listVisit_dirs by done. by rewrite map_to_list_empty. }
  split; [done |].
  unfold GetDetailedStats, GetStats, walked. rewrite Hlist.
  rewrite librariesDir_join, searchesDir_join, (stat_chain _ _ HL).
  rewrite statsVisit_dirs by done.
  unfold Os.readDir. rewrite (stat_chain _ _ HS).
  by rewrite children_nil.
Qed.

(** X11: in a well-formed file system, a [Clear] that succeeds leaves
    an empty cache: the catalog lists nothing, the detailed statistics
    count no entry, no byte and no cached search, and the two
    subdirectories of the root are in place. *)
Theorem Clear_empties_cache (c : Cache) (fs fs' : FS) (now : GoTime.Time) :
  wellFormed fs ->
  Clear c fs = (fs', None) ->
  ListCachedLibraries c fs' = (Some [], None) /\
  GetDetailedStats c fs' now = inr (emptyDetailedStats c now) /\
  Os.stat fs' (librariesDir c) = inr Dir /\
  Os.stat fs' (searchesDir c) = inr Dir.
Proof.
  intros Hwf. unfold Clear. rewrite librariesDir_join, searchesDir_join.
  destruct (Os.removeAll fs _) as [e | fs1] eqn:E1; [done |].
  destruct (Os.removeAll fs1 _) as [e | fs2] eqn:E2; [done |].
  destruct (Os.mkdirAll fs2 _) as [e | fs3] eqn:E3; [done |].
  destruct (Os.mkdirAll fs3 _) as [e | fs4] eqn:E4; [done |].
  intros [= <-].
  apply removeAll_clears in E1 as (C1 & K1 & Hwf1); [| done].
  apply removeAll_clears in E2 as (C2 & K2 & _); [| done].
  apply mkdirAll_ok in E3 as (D3 & O3 & K3).
  apply mkdirAll_ok in E4 as (D4 & O4 & K4).
  assert (Hlen : length (librariesDir c) = length (searchesDir c))
    by (unfold librariesDir, searchesDir; by rewrite !length_app).
  assert (Hne : librariesDir c <> searchesDir c) by by apply child_ne.
  assert (Hbelow : forall p q, (p = librariesDir c \/ p = searchesDir c) ->
                     p `prefix_of` q -> q <> p ->
                     (q ∉ Path.chain (librariesDir c)) /\ (q ∉ Path.chain (searchesDir c))).
  { intros p q Hp Hpre Hq.
    assert (length p < length q).
    { pose proof (prefix_length _ _ Hpre).
      destruct (decide (length p = length q)) as [Heq |]; [| lia].
      destruct Hq. symmetry. apply prefix_length_eq; [done | lia]. }
    split; intros Hin%chain_length; destruct Hp as [-> | ->]; lia. }
  assert (HLe : forall q, librariesDir c `prefix_of` q -> q <> librariesDir c ->
                  fs4 !! q = None).
  { intros q Hpre Hq. destruct (Hbelow _ q (or_introl eq_refl) Hpre Hq) as [H1 H2].
    rewrite O4, O3 by done. rewrite K2; [by apply C1 |].
    intros Hpre'. apply Hne. symmetry. by apply (prefix_same_length _ _ q). }
  assert (HSe : forall q, searchesDir c `prefix_of` q -> q <> searchesDir c ->
                  fs4 !! q = None).
  { intros q Hpre Hq. destruct (Hbelow _ q (or_intror eq_refl) Hpre Hq) as [H1 H2].
    rewrite O4, O3 by done. by apply C2. }
  assert (HL : Os.firstErr fs4 (Path.chain (librariesDir c)) = None)
    by by apply (firstErr_kept fs3).
  destruct (empty_cache_reports c fs4 now HL D4 HLe HSe) as [Hlist Hstats].
  repeat split; try done; by apply stat_chain.
Qed.

(** X12: [Clear] touches nothing but the two subdirectories: whether
    it succeeds or fails, every file and directory that lies outside
    libraries and searches is afterwards what it was. *)
Theorem Clear_keeps_the_rest (c : Cache) (fs fs' : FS) (result : option clearError)
    (q : path) (n : node) :
  Clear c fs = (fs', result) ->
  fs !! q = Some n ->
  ~ librariesDir c `prefix_of` q ->
  ~ searchesDir c `prefix_of` q ->
  fs' !! q = Some n.
Proof.
  unfold Clear. rewrite librariesDir_join, searchesDir_join.
  intros H Hq HL HS.
  destruct (Os.removeAll fs _) as [e | fs1] eqn:E1; [by injection H as <- |].
  assert (H1 : fs1 !! q = Some n) by by rewrite (removeAll_keeps _ _ _ _ E1).
  destruct (Os.removeAll fs1 _) as [e | fs2] eqn:E2; [by injection H as <- |].
  assert (H2 : fs2 !! q = Some n) by by rewrite (removeAll_keeps _ _ _ _ E2).
  destruct (Os.mkdirAll fs2 _) as [e | fs3] eqn:E3; [by injection H as <- |].
  apply mkdirAll_ok in E3 as (_ & _ & K3).
  assert (H3 : fs3 !! q = Some n) by (rewrite K3; by rewrite H2).
  destruct (Os.mkdirAll fs3 _) as [e | fs4] eqn:E4; [by injection H as <- |].
  apply mkdirAll_ok in E4 as (_ & _ & K4).
  injection H as <-. rewrite K4; by rewrite H3.
Qed.

End Clearing.

(** ** The order and the shape of the catalog *)

Section StringOrder.

Lemma ltb_lt (a b : string) :
  Str.ltb a b = true <-> OrderedTypeEx.String_as_OT.lt a b.
Proof.
  unfold Str.ltb, String.ltb.
  rewrite <- OrderedTypeEx.String_as_OT.cmp_lt.
  unfold OrderedTypeEx.String_as_OT.cmp.
  destruct (String.compare a b); split; congruence.
Qed.

Lemma ltb_trans (a b c : string) :
  Str.ltb a b = true -> Str.ltb b c = true -> Str.ltb a c = true.
Proof.
  rewrite !ltb_lt. apply OrderedTypeEx.String_as_OT.lt_trans.
Qed.

Lemma ltb_asym (a b : string) : Str.ltb a b = true -> Str.ltb b a = false.
Proof.
  unfold Str.ltb, String.ltb. rewrite (String.compare_antisym a b).
  by destruct (String.compare b a).
Qed.

Lemma ltb_total (a b : string) :
  Str.ltb a b = false -> a <> b -> Str.ltb b a = true.
Proof.
  unfold Str.ltb, String.ltb. rewrite (String.compare_antisym a b).
  destruct (String.compare b a) eqn:E; simpl; try done.
  intros _ Hne. apply String.compare_eq_iff in E. congruence.
Qed.

(** Not after: the order [<=] on strings. *)
Lemma not_after_trans (a b c : string) :
  Str.ltb b a = false -> Str.ltb c b = false -> Str.ltb c a = false.
Proof.
  intros Hab Hbc. destruct (Str.ltb c a) eqn:Hca; [| done].
  destruct (decide (a = b)) as [-> | Hne]; [congruence |].
  pose proof (ltb_total _ _ Hab (not_eq_sym Hne)) as Hlt.
  pose proof (ltb_trans _ _ _ Hca Hlt). congruence.
Qed.

End StringOrder.

Section SliceSorted.
Context {A : Type} (less : A -> A -> bool) (R : A -> A -> Prop).
Hypothesis less_R : forall x y, less x y = true -> R x y.
Hypothesis not_less_R : forall x y, less x y = false -> R y x.

Lemma sink_HdRel (y x : A) (r : list A) :
  HdRel (flip R) y r -> R x y -> HdRel (flip R) y (Sort.sink less x r).
Proof.
  intros Hr Hxy. destruct r as [| z r]; simpl.
  - by constructor.
  - destruct (less x z); constructor; [by inversion Hr | done].
Qed.

Lemma sink_sorted (x : A) (revPrefix : list A) :
  Sorted (flip R) revPrefix -> Sorted (flip R) (Sort.sink less x revPrefix).
Proof.
  induction revPrefix as [| y r IH]; simpl; intros Hs.
  - by repeat constructor.
  - destruct (less x y) eqn:E.
    + apply Sorted_inv in Hs as [Hs Hhd]. constructor; [by apply IH |].
      apply sink_HdRel; [done |]. by apply less_R.
    + constructor; [done |]. constructor. by apply not_less_R.
Qed.

Lemma insertions_sorted (l acc : list A) :
  Sorted (flip R) acc ->
  Sorted (flip R) (fold_left (fun acc x => Sort.sink less x acc) l acc).
Proof.
  revert acc. induction l as [| x l IH]; simpl; intros acc Hacc; [done |].
  apply IH. by apply sink_sorted.
Qed.

(** The result of [sort.Slice] is in order. *)
Lemma slice_sorted (l : list A) : Sorted R (Sort.slice less l).
Proof.
  unfold Sort.slice. rewrite rev_alt.
  apply (Sorted_reverse (flip R)). apply insertions_sorted. constructor.
Qed.

End SliceSorted.

Section CatalogOrder.
Context `{RT : Runtime}.
Import CacheOps CacheAdmin.

Lemma Sorted_strict (libs : list CachedLibrary) :
  Sorted (fun a b => libraryLess b a = false) libs ->
  NoDup (map cl_LibraryID libs) ->
  Sorted (fun a b => Str.ltb (cl_LibraryID a) (cl_LibraryID b) = true) libs.
Proof.
  induction 1 as [| a l Hs IH Hhd]; intros Hnd; [constructor |].
  simpl in Hnd. apply NoDup_cons in Hnd as [Hnotin Hnd].
  constructor; [by apply IH |].
  destruct Hhd as [| b l Hab]; constructor.
  apply ltb_total; [done |]. intros Heq. apply Hnotin. rewrite <- Heq. simpl. by left.
Qed.

Lemma byIdentifier_trans :
  Transitive (fun a b : CachedLibrary =>
                Str.ltb (cl_LibraryID a) (cl_LibraryID b) = true).
Proof. intros a b c. apply ltb_trans. Qed.

(** X13: the catalog comes in the strict order of the library
    identifiers, compared byte by byte: every library stands before
    every library that follows it, and none stands twice. *)
Theorem catalog_sorted_by_id (c : Cache) (fs : FS) (libs : list CachedLibrary) :
  ListCachedLibraries c fs = (Some libs, None) ->
  StronglySorted (fun a b => Str.ltb (cl_LibraryID a) (cl_LibraryID b) = true) libs.
Proof.
  intros H. apply (@Sorted_StronglySorted _ _ byIdentifier_trans).
  apply Sorted_strict; [| by apply (ListCachedLibraries_NoDup c fs)].
  unfold ListCachedLibraries in H.
  destruct (Os.stat fs _) as [e | n].
  - destruct (Os.isNotExist e); [| done]. injection H as <-. constructor.
  - injection H as <-. unfold catalogOf.
    apply slice_sorted.
    + intros x y. unfold libraryLess. apply ltb_asym.
    + done.
Qed.

Lemma versionOrder_trans : Transitive versionOrder.
Proof.
  intros u v w. unfold versionOrder.
  destruct (vi_IsDefault u); [done |].
  intros [Hv Huv]. rewrite Hv. intros [Hw Hvw]. split; [done |].
  by apply (not_after_trans _ (vi_Version v)).
Qed.

Lemma catalog_member (c : Cache) (fs : FS) (libs : list CachedLibrary)
    (lib : CachedLibrary) :
  ListCachedLibraries c fs = (Some libs, None) -> lib ∈ libs ->
  exists k scanned,
    fold_left (listVisit fs (librariesDir c)) (Os.walkList fs (librariesDir c)) ∅ !! k
      = Some scanned /\
    lib = sortVersions scanned.
Proof.
  unfold ListCachedLibraries. rewrite librariesDir_join.
  destruct (Os.stat fs _) as [e | n].
  - destruct (Os.isNotExist e); [| done]. intros [= <-] Hin.
    by apply elem_of_nil in Hin.
  - intros [= <-]. unfold catalogOf. rewrite (slice_perm libraryLess).
    intros ([k scanned] & -> & Hin)%list_elem_of_fmap.
    apply elem_of_map_to_list in Hin. by exists k, scanned.
Qed.

(** X14: within a library of the catalog the versions come in order:
    the default version first, then the others by their names, byte
    by byte (for up to twelve versions, the range in which Go sorts by
    insertion as the model does). *)
Theorem default_version_first (c : Cache) (fs : FS) (libs : list CachedLibrary)
    (lib : CachedLibrary) :
  ListCachedLibraries c fs = (Some libs, None) ->
  lib ∈ libs ->
  length (cl_Versions lib) <= 12 ->
  StronglySorted versionOrder (cl_Versions lib).
Proof.
  intros H Hin _. destruct (catalog_member c fs libs lib H Hin) as (k & scanned & _ & ->).
  apply (@Sorted_StronglySorted _ _ versionOrder_trans). simpl.
  apply slice_sorted; intros x y; unfold versionLess, versionOrder.
  - destruct (vi_IsDefault x); [done |]. destruct (vi_IsDefault y); [done |].
    intros Hlt. split; [done |]. by apply ltb_asym.
  - destruct (vi_IsDefault x); [done |]. destruct (vi_IsDefault y); [done |].
    done.
Qed.

Lemma visitedVersion_recorded (fs : FS) (librariesDir : path) (kn : path * node)
    (org name : string) (v : VersionInfo) :
  visitedVersion fs librariesDir kn = Some (org, name, v) -> versionRecorded v.
Proof.
  unfold visitedVersion.
  destruct (isMetadataFile kn); [| done].
  destruct (Os.readFile fs kn.1); [done |].
  destruct (jsonUnmarshal _); [| done].
  destruct (drop _ _) as [| ? [| ? [| ? ?]]]; try done.
  by intros [= <- <- <-].
Qed.

Lemma scan_shaped (fs : FS) (librariesDir : path) :
  forall visited (m : gmap string CachedLibrary),
    (forall k lib, m !! k = Some lib -> libraryShaped lib) ->
    forall k lib,
      fold_left (listVisit fs librariesDir) visited m !! k = Some lib ->
      libraryShaped lib.
Proof.
  induction visited as [| kn visited IH]; intros m Hm; [done |].
  simpl. apply IH. rewrite listVisit_visited.
  destruct (visitedVersion fs librariesDir kn) as [[[org name] v] |] eqn:E; [| done].
  apply visitedVersion_recorded in E.
  intros k lib. unfold addVersion.
  destruct (decide (k = idOf org name)) as [-> | Hne].
  - rewrite lookup_insert_eq. intros [= <-].
    destruct (m !! idOf org name) as [lib0 |] eqn:E0; simpl.
    + destruct (Hm _ _ E0) as (H1 & H2 & H3). split; [done |]. split.
      * intros Heq. by apply app_eq_nil in Heq as [_ ?].
      * apply Forall_app. split; [done |]. by apply Forall_singleton.
    + split; [done |]. split; [done |]. by apply Forall_singleton.
  - rewrite lookup_insert_ne by done. apply Hm.
Qed.

(** X15: every library of the catalog has the identifier
    [/organization/name] made of its two other fields and at least
    one version, and every version is marked as the default exactly
    when its name is ["default"] and carries the fetch timestamp of
    its metadata. *)
Theorem catalog_entry_shape (c : Cache) (fs : FS) (libs : list CachedLibrary)
    (lib : CachedLibrary) :
  ListCachedLibraries c fs = (Some libs, None) ->
  lib ∈ libs ->
  cl_LibraryID lib = idOf (cl_Organization lib) (cl_Name lib) /\
  cl_Versions lib <> [] /\
  Forall versionRecorded (cl_Versions lib).
Proof.
  intros H Hin.
  destruct (catalog_member c fs libs lib H Hin) as (k & scanned & Hk & ->).
  destruct (scan_shaped fs _ _ ∅ (fun k lib H => False_rect _ (lookup_empty_Some _ _ H))
              k scanned Hk) as (H1 & H2 & H3).
  pose proof (slice_perm versionLess (cl_Versions scanned)) as Hperm.
  simpl. repeat split; try done.
  - intros Hnil. rewrite Hnil in Hperm. by apply Permutation_nil in Hperm.
  - by rewrite Hperm.
Qed.

Lemma foldr_min_acc (t a : Z) (l : list Z) :
  foldr Z.min (Z.min t a) l = Z.min t (foldr Z.min a l).
Proof. induction l as [| x l IH]; simpl; [done |]. rewrite IH. lia. Qed.

Lemma foldr_max_acc (t a : Z) (l : list Z) :
  foldr Z.max (Z.max t a) l = Z.max t (foldr Z.max a l).
Proof. induction l as [| x l IH]; simpl; [done |]. rewrite IH. lia. Qed.

Lemma stats_scan (fs : FS) : forall (visited : list (path * node)) (st : CacheStats),
  let files := List.filter isMetadataFile visited in
  let times := map (fun kn : path * node => modTime kn.2) files in
  let final := fold_left (statsVisit fs) visited st in
  cs_TotalEntries final = (cs_TotalEntries st + Z.of_nat (length files))%Z /\
  cs_OldestEntry final = foldr Z.min (cs_OldestEntry st) times /\
  cs_NewestEntry final = foldr Z.max (cs_NewestEntry st) times /\
  cs_CacheDir final = cs_CacheDir st.
Proof.
  induction visited as [| kn visited IH]; intros st; cbv zeta.
  - simpl. repeat split; try done. lia.
  - cbn [fold_left List.filter].
    destruct (IH (statsVisit fs st kn)) as (H1 & H2 & H3 & H4).
    rewrite H1, H2, H3, H4. unfold statsVisit.
    destruct (isMetadataFile kn) eqn:E; cbn [cs_TotalEntries cs_OldestEntry
      cs_NewestEntry cs_CacheDir map length foldr]; [| done].
    repeat split; try done.
    + lia.
    + rewrite <- foldr_min_acc. f_equal. unfold GoTime.before.
      destruct (Z.ltb_spec (modTime kn.2) (cs_OldestEntry st)); lia.
    + rewrite <- foldr_max_acc. f_equal. unfold GoTime.after.
      destruct (Z.ltb_spec (cs_NewestEntry st) (modTime kn.2)); lia.
Qed.

(** X16: [GetStats] always returns statistics, and they are these:
    the number of entries is the number of metadata files that the
    walk of the libraries directory meets, the oldest entry is the
    earliest of their modification times and of the present moment,
    the newest entry the latest of them and of the zero time, and the
    directory is the root of the cache. *)
Theorem stats_count_and_range (c : Cache) (fs : FS) (now : GoTime.Time) :
  exists stats,
    GetStats c fs now = inr stats /\
    cs_TotalEntries stats = Z.of_nat (length (metadataNodes c fs)) /\
    cs_OldestEntry stats
      = foldr Z.min now (map (fun kn : path * node => modTime kn.2) (metadataNodes c fs)) /\
    cs_NewestEntry stats
      = foldr Z.max GoTime.zero
              (map (fun kn : path * node => modTime kn.2) (metadataNodes c fs)) /\
    cs_CacheDir stats = baseDir c.
Proof.
  eexists. split; [reflexivity |]. rewrite librariesDir_join.
  unfold metadataNodes.
  destruct (stats_scan fs (walked fs (librariesDir c))
              {| cs_TotalEntries := 0; cs_TotalSize := 0;
                 cs_OldestEntry := now; cs_NewestEntry := GoTime.zero;
                 cs_CacheDir := baseDir c |}) as (H1 & H2 & H3 & H4).
  by rewrite H1, H2, H3, H4.
Qed.

End CatalogOrder.

(** ** The detailed statistics *)

Section DetailedStatistics.
Context `{RT : Runtime}.
Import CacheOps CacheAdmin.
Local Open Scope Z_scope.

Lemma versionStats_scan : forall (vs : list VersionInfo) (i : nat) (a : Z)
    (o n : GoTime.Time),
  fold_left versionStatsStep vs (S i, Int64.wrap a, o, n)
  = ((S i + length vs)%nat,
     Int64.wrap (a + sumZ (map vi_Size vs)),
     foldr Z.min o (map vi_FetchedAt vs),
     foldr Z.max n (map vi_FetchedAt vs)).
Proof.
  induction vs as [| v vs IH]; intros i a o n.
  - simpl. rewrite Z.add_0_r. by replace (i + 0)%nat with i by lia.
  - cbn [fold_left versionStatsStep Nat.eqb orb].
    unfold Int64.add. rewrite wrap_add_l, IH.
    cbn [map foldr sumZ length].
    rewrite <- foldr_min_acc, <- foldr_max_acc.
    unfold GoTime.before, GoTime.after, GoTime.Time in *.
    f_equal; [f_equal; [f_equal |] |].
    + lia.
    + f_equal. unfold sumZ. lia.
    + destruct (Z.ltb_spec (vi_FetchedAt v) o); f_equal; lia.
    + destruct (Z.ltb_spec n (vi_FetchedAt v)); f_equal; lia.
Qed.

(** The loop over the versions of a library computes its row. *)
Lemma libraryStats_rowOf (lib : CachedLibrary) : libraryStats lib = rowOf lib.
Proof.
  unfold libraryStats, rowOf. destruct (cl_Versions lib) as [| v vs]; [done |].
  cbn [fold_left versionStatsStep Nat.eqb orb]. unfold Int64.add.
  rewrite versionStats_scan. cbn [map sumZ foldr earliest latest].
  repeat f_equal.
Qed.

Lemma largestFirst_trans :
  Transitive (fun a b : LibraryStats => ls_TotalSize b <= ls_TotalSize a).
Proof. intros a b c. lia. Qed.

Lemma searchStats_scan : forall (found : list (path * node)) (a n : Z),
  fold_left searchStatsStep found (Int64.wrap a, n)
  = (Int64.wrap (a + sumZ (map (fun kn : path * node => infoSize kn.2)
                               (List.filter (fun kn : path * node => negb (isDir kn.2))
                                            found))),
     n + Z.of_nat (length (List.filter (fun kn : path * node => negb (isDir kn.2))
                                       found))).
Proof.
  induction found as [| kn found IH]; intros a n.
  - simpl. by rewrite !Z.add_0_r.
  - cbn [fold_left List.filter]. unfold searchStatsStep at 2.
    destruct (isDir kn.2); cbn [negb fst snd].
    + apply IH.
    + unfold Int64.add. rewrite wrap_add_l, IH. cbn [map length].
      f_equal; [f_equal; unfold sumZ; simpl; lia | lia].
Qed.

(** X17: what [GetDetailedStats] reports.  The basic part is the
    result of [GetStats].  The breakdown has one row for each library
    of the catalog, with the number of its versions, the (int64) sum
    of their sizes and the earliest and the latest of their fetch
    timestamps, and its rows come largest first.  The search cache is
    counted as the regular files directly in the searches directory,
    with the (int64) sum of their sizes. *)
Theorem detailed_stats_report (c : Cache) (fs : FS) (now : GoTime.Time)
    (d : DetailedCacheStats) :
  GetDetailedStats c fs now = inr d ->
  exists libs,
    ListCachedLibraries c fs = (Some libs, None) /\
    GetStats c fs now = inr (dcs_CacheStats d) /\
    dcs_LibraryBreakdown d ≡ₚ map rowOf libs /\
    StronglySorted (fun a b => ls_TotalSize b <= ls_TotalSize a)
                   (dcs_LibraryBreakdown d) /\
    dcs_SearchCacheEntries d = Z.of_nat (length (searchFiles c fs)) /\
    dcs_SearchCacheSize d
      = Int64.wrap (sumZ (map (fun kn : path * node => infoSize kn.2)
                              (searchFiles c fs))).
Proof.
  unfold GetDetailedStats.
  destruct (GetStats c fs now) as [err | basicStats] eqn:Es; [done |].
  destruct (ListCachedLibraries_shape c fs) as [[libs Hl] | [e Hl]];
    rewrite Hl; [| done].
  intros [= <-]. exists libs. cbn [dcs_CacheStats dcs_LibraryBreakdown
    dcs_SearchCacheEntries dcs_SearchCacheSize default from_option id].
  split; [done |]. split; [done |]. split.
  { rewrite (slice_perm largerFirst).
    by rewrite (map_ext _ _ libraryStats_rowOf). }
  split.
  { apply (@Sorted_StronglySorted _ _ largestFirst_trans).
    apply slice_sorted; intros x y; unfold largerFirst;
      destruct (Z.gtb_spec (ls_TotalSize x) (ls_TotalSize y)); (done || lia). }
  rewrite searchesDir_join. unfold searchFiles.
  destruct (Os.readDir fs (searchesDir c)) as [e | entries]; [done |].
  change (0, 0) with (Int64.wrap 0, 0).
  rewrite searchStats_scan. simpl. done.
Qed.

Lemma wrap_sum_wraps (l : list Z) :
  Int64.wrap (sumZ (map Int64.wrap l)) = Int64.wrap (sumZ l).
Proof.
  induction l as [| x l IH]; [done |].
  change (sumZ (map Int64.wrap (x :: l)))
    with (Int64.wrap x + sumZ (map Int64.wrap l)).
  change (sumZ (x :: l)) with (x + sumZ l).
  rewrite wrap_add_l. by rewrite <- wrap_add_r, IH, wrap_add_r.
Qed.

Lemma entries_length (libs : list CachedLibrary) :
  length (entries libs) = length (flat_map cl_Versions libs).
Proof.
  unfold entries. induction libs as [| lib libs IH]; [done |].
  cbn [map concat flat_map]. by rewrite !length_app, length_map, IH.
Qed.

Lemma versionCount_total (libs : list CachedLibrary) :
  sumZ (map ls_VersionCount (map rowOf libs)) = Z.of_nat (length (entries libs)).
Proof.
  rewrite entries_length. induction libs as [| lib libs IH]; [done |].
  change (sumZ (map ls_VersionCount (map rowOf (lib :: libs))))
    with (Z.of_nat (length (cl_Versions lib))
          + sumZ (map ls_VersionCount (map rowOf libs))).
  cbn [flat_map]. rewrite IH, length_app. lia.
Qed.

Lemma scan_count (fs : FS) (librariesDir : path) : forall visited,
  (forall kn, kn ∈ visited -> isMetadataFile kn = true ->
              catalogued fs librariesDir kn) ->
  length (omap (visitedVersion fs librariesDir) visited)
  = length (List.filter isMetadataFile visited).
Proof.
  induction visited as [| kn visited IH]; intros Hall; [done |].
  assert (IH' := IH (fun kn' Hin => Hall kn' (list_elem_of_further _ _ _ Hin))).
  simpl. destruct (isMetadataFile kn) eqn:Em.
  - destruct (visitedVersion_catalogued fs librariesDir kn Em
                (Hall kn (list_elem_of_here _ _) Em)) as (org & name & v & -> & _).
    simpl. f_equal. exact IH'.
  - destruct (visitedVersion fs librariesDir kn) as [onv |] eqn:Ev; [| exact IH'].
    apply visitedVersion_metadata in Ev. congruence.
Qed.

(** X18: the two parts of the detailed statistics agree whenever
    every metadata file below the libraries directory is taken into
    the catalog: the number of entries of the basic part is the sum of
    the version counts of the breakdown, and its total size is the
    (int64) sum of the sizes of the rows. *)
Theorem detailed_stats_add_up (c : Cache) (fs : FS) (now : GoTime.Time)
    (d : DetailedCacheStats) :
  GetDetailedStats c fs now = inr d ->
  (forall kn, kn ∈ Os.walkList fs (librariesDir c) -> isMetadataFile kn = true ->
              catalogued fs (librariesDir c) kn) ->
  cs_TotalEntries (dcs_CacheStats d)
    = sumZ (map ls_VersionCount (dcs_LibraryBreakdown d)) /\
  cs_TotalSize (dcs_CacheStats d)
    = Int64.wrap (sumZ (map ls_TotalSize (dcs_LibraryBreakdown d))).
Proof.
  unfold GetDetailedStats, GetStats.
  destruct (ListCachedLibraries_shape c fs) as [[libs Hl] | [e Hl]];
    rewrite Hl; [| done].
  intros [= <-] Hall. cbn [dcs_CacheStats dcs_LibraryBreakdown default from_option id].
  rewrite librariesDir_join.
  set (init := {| cs_TotalEntries := 0; cs_TotalSize := 0;
                  cs_OldestEntry := now; cs_NewestEntry := GoTime.zero;
                  cs_CacheDir := baseDir c |}).
  destruct (stats_scan fs (walked fs (librariesDir c)) init) as (Hcount & _).
  assert (Htotal := stats_total fs (walked fs (librariesDir c)) init 0 eq_refl).
  rewrite Z.add_0_l in Htotal.
  rewrite Hcount, Htotal. cbn [cs_TotalEntries init]. rewrite Z.add_0_l.
  rewrite (sumZ_perm _ _ (Permutation_map ls_VersionCount
                            (slice_perm largerFirst (map libraryStats libs)))).
  rewrite (sumZ_perm _ _ (Permutation_map ls_TotalSize
                            (slice_perm largerFirst (map libraryStats libs)))).
  rewrite (map_ext _ _ libraryStats_rowOf), versionCount_total.
  assert (Hrows : map ls_TotalSize (map rowOf libs) = map Int64.wrap (map libraryTotal libs)).
  { rewrite !map_map. by apply map_ext. }
  rewrite Hrows, wrap_sum_wraps, <- entries_total.
  unfold ListCachedLibraries in Hl. rewrite librariesDir_join in Hl.
  unfold walked.
  destruct (Os.stat fs (librariesDir c)) as [e | n].
  - destruct (Os.isNotExist e); [| done]. by injection Hl as <-.
  - injection Hl as <-. split.
    + f_equal.
      rewrite <- (length_map keyed), (Permutation_length (catalogOf_keyed _ _ _)).
      rewrite length_map. symmetry. by apply scan_count.
    + rewrite catalogOf_total, (scan_all_catalogued _ _ _ Hall).
      symmetry. apply wrap_sum_recorded.
Qed.

(** *** A removed library and the catalog *)

Lemma scan_origin (fs : FS) (librariesDir : path) :
  forall visited (m : gmap string CachedLibrary) (k : string),
    is_Some (fold_left (listVisit fs librariesDir) visited m !! k) ->
    is_Some (m !! k) \/
    exists kn org name v,
      kn ∈ visited /\
      visitedVersion fs librariesDir kn = Some (org, name, v) /\ k = idOf org name.
Proof.
  induction visited as [| kn visited IH]; intros m k Hk; [by left |].
  simpl in Hk. apply IH in Hk as [Hk | (kn' & org & name & v & Hin & Hv & ->)].
  - rewrite listVisit_visited in Hk.
    destruct (visitedVersion fs librariesDir kn) as [[[org name] v] |] eqn:E;
      [| by left].
    unfold addVersion in Hk.
    destruct (decide (k = idOf org name)) as [-> | Hne].
    + right. exists kn, org, name, v. repeat split; [left | done].
    + rewrite lookup_insert_ne in Hk by done. by left.
  - right. exists kn', org, name, v. repeat split; [by right | done].
Qed.

(** X19: in a well-formed file system, a library that [RemoveLibrary]
    has removed is no longer in the catalog. *)
Theorem removed_library_not_listed (c : Cache) (fs fs' : FS) (org name : string)
    (libs : list CachedLibrary) :
  wellFormed fs ->
  validName org -> validName name ->
  RemoveLibrary c fs (idOf org name) = (fs', None) ->
  ListCachedLibraries c fs' = (Some libs, None) ->
  idOf org name ∉ map cl_LibraryID libs.
Proof.
  intros Hwf Ho Hn (org0 & name0 & rest & n & Hsplit & Hstat & Hsub)%RemoveLibrary_inv
         Hlist Hin.
  rewrite idOf_trimPrefix, splitSlash_id in Hsplit by done.
  injection Hsplit as <- <- <-.
  rewrite libraryDir_valid in Hsub by done.
  apply list_elem_of_fmap in Hin as (lib & Hid & Hin).
  destruct (catalog_member c fs' libs lib Hlist Hin) as (k & scanned & Hk & ->).
  assert (Hkey : cl_LibraryID scanned = k).
  { apply (scan_keys fs' (librariesDir c) (Os.walkList fs' (librariesDir c)) ∅);
      [| done]. intros k' lib' H'. by apply lookup_empty_Some in H'. }
  simpl in Hid. rewrite Hkey in Hid. subst k.
  destruct (scan_origin fs' (librariesDir c) (Os.walkList fs' (librariesDir c)) ∅
              (idOf org name) (mk_is_Some _ _ Hk))
    as [[? H'] | (kn & org' & name' & v & Hkn & Hv & Heq)];
    [by apply lookup_empty_Some in H' |].
  apply elem_of_walkList in Hkn as [Hnode Hpre].
  apply visitedVersion_inv in Hv as (_ & rest & Hdrop).
  assert (Hpath : kn.1 = librariesDir c ++ org' :: name' :: vi_Version v :: rest).
  { destruct Hpre as [rest' Hrest]. rewrite Hrest in Hdrop. rewrite Hrest.
    rewrite drop_app_length in Hdrop. by rewrite Hdrop. }
  pose proof (Hsub _ _ Hnode) as Hout.
  apply lookup_outside_Some in Hout as [Hfs Hnot].
  destruct (Hwf _ _ Hfs) as [Hnames _].
  rewrite Hpath in Hnames. apply Forall_app in Hnames as [_ Hnames].
  apply Forall_cons in Hnames as [Ho' _].
  apply idOf_inj in Heq as [-> ->]; [| done | done].
  apply Hnot. rewrite Hpath.
  exists (vi_Version v :: rest). by rewrite <- app_assoc.
Qed.

(** X30: in a well-formed file system, every library that the
    catalog lists can be removed: [RemoveLibrary] on its identifier
    succeeds. *)
Theorem listed_library_can_be_removed (c : Cache) (fs : FS)
    (libs : list CachedLibrary) (lib : CachedLibrary) :
  wellFormed fs ->
  ListCachedLibraries c fs = (Some libs, None) ->
  lib ∈ libs ->
  exists fs', RemoveLibrary c fs (cl_LibraryID lib) = (fs', None).
Proof.
  intros Hwf Hlist Hin.
  destruct (catalog_member c fs libs lib Hlist Hin) as (k & scanned & Hk & ->).
  assert (Hkey : cl_LibraryID scanned = k).
  { apply (scan_keys fs (librariesDir c) (Os.walkList fs (librariesDir c)) ∅);
      [| done]. intros k' lib' H'. by apply lookup_empty_Some in H'. }
  cbn [sortVersions cl_LibraryID]. rewrite Hkey.
  destruct (scan_origin fs (librariesDir c) (Os.walkList fs (librariesDir c)) ∅
              k (mk_is_Some _ _ Hk))
    as [[? H'] | (kn & org & name & v & Hkn & Hv & ->)];
    [by apply lookup_empty_Some in H' |].
  apply elem_of_walkList in Hkn as [Hnode Hpre].
  apply visitedVersion_inv in Hv as (_ & rest & Hdrop).
  assert (Hpath : kn.1 = (librariesDir c ++ [org; name]) ++ vi_Version v :: rest).
  { destruct Hpre as [rest' Hrest]. rewrite Hrest in Hdrop. rewrite Hrest.
    rewrite drop_app_length in Hdrop. by rewrite Hdrop, <- app_assoc. }
  destruct (Hwf _ _ Hnode) as [Hnames _].
  rewrite Hpath in Hnames. apply Forall_app in Hnames as [Hnames _].
  apply Forall_app in Hnames as [_ Hnames].
  apply Forall_cons in Hnames as [Ho Hnames].
  apply Forall_cons in Hnames as [Hn _].
  destruct (wellFormed_stat fs (librariesDir c ++ [org; name]) kn.1 kn.2 Hwf Hnode)
    as [m Hm]; [rewrite Hpath; by apply prefix_app_r |].
  unfold RemoveLibrary.
  rewrite idOf_trimPrefix, splitSlash_id, libraryDir_valid by done.
  unfold Os.removeAll. rewrite Hm. by eexists.
Qed.

End DetailedStatistics.

(** ** What a prune leaves behind *)

Section PruneEffects.
Context `{RT : Runtime}.
Import CacheOps CacheAdmin.

Lemma gone_shrink (c : Cache) (fs fs' : FS) (lv : CachedLibrary * VersionInfo) :
  (forall q m, fs' !! q = Some m -> fs !! q = Some m) ->
  gone c fs lv -> gone c fs' lv.
Proof.
  intros Hsub (fs0 & n & Hstat & H). exists fs0, n. split; [done |].
  intros q m Hq. by apply H, Hsub.
Qed.

Lemma pruneEntry_gone (c : Cache) (opts : PruneOptions) (now : GoTime.Time)
    (latest : gmap string string) (st : FS * PruneResult)
    (lv : CachedLibrary * VersionInfo) (removed : list (CachedLibrary * VersionInfo)) :
  po_DryRun opts = false ->
  st.2 = resultOf removed ->
  Forall (gone c st.1) removed ->
  exists removed',
    (pruneEntry c opts now latest st lv).2 = resultOf removed' /\
    Forall (gone c (pruneEntry c opts now latest st lv).1) removed'.
Proof.
  intros Hreal Hres Hgone. unfold pruneEntry. rewrite pruneVersion_selected.
  destruct (selected opts now latest (lv.1, lv.2)); [| by exists removed].
  rewrite Hreal.
  destruct (RemoveLibraryVersion c st.1 (cl_LibraryID lv.1) (vi_Version lv.2))
    as [fs' [e |]] eqn:E.
  - apply RemoveLibraryVersion_failed in E as ->. by exists removed.
  - exists (removed ++ [lv]). cbn [fst snd]. split.
    + rewrite Hres, recordRemoval_resultOf. by destruct lv.
    + apply RemoveLibraryVersion_inv in E as (n & Hstat & Hsub).
      apply Forall_app. split.
      * eapply Forall_impl; [exact Hgone |]. intros lv'. apply gone_shrink.
        intros q m Hq. by apply Hsub, lookup_outside_Some in Hq as [Hq _].
      * apply Forall_singleton. by exists st.1, n.
Qed.

Lemma pruneEntries_gone (c : Cache) (opts : PruneOptions) (now : GoTime.Time)
    (latest : gmap string string) :
  forall (es : list (CachedLibrary * VersionInfo)) (st : FS * PruneResult)
         (removed : list (CachedLibrary * VersionInfo)),
    po_DryRun opts = false ->
    st.2 = resultOf removed ->
    Forall (gone c st.1) removed ->
    exists removed',
      (fold_left (pruneEntry c opts now latest) es st).2 = resultOf removed' /\
      Forall (gone c (fold_left (pruneEntry c opts now latest) es st).1) removed'.
Proof.
  induction es as [| lv es IH]; intros st removed Hreal Hres Hgone.
  - by exists removed.
  - destruct (pruneEntry_gone c opts now latest st lv removed Hreal Hres Hgone)
      as (removed1 & Hres1 & Hgone1).
    simpl. by apply (IH _ removed1).
Qed.

(** X20: what a real prune reports as removed is gone: the items of
    the result name entries of which every one, read afterwards under
    its library and version, is a cache miss. *)
Theorem pruned_entries_are_gone (c : Cache) (fs fs' : FS) (opts : PruneOptions)
    (now : GoTime.Time) (result : PruneResult) :
  Prune c fs opts now = (fs', inr result) ->
  po_DryRun opts = false ->
  exists removed,
    pr_RemovedItems result = map (fun lv => itemName lv.1 lv.2) removed /\
    pr_RemovedCount result = Z.of_nat (length removed) /\
    forall lv maxAge now',
      lv ∈ removed ->
      GetWithVersion c fs' (cl_LibraryID lv.1) (vi_Version lv.2) maxAge now'
        = inl (CacheMiss ENOENT).
Proof.
  unfold Prune. intros H Hreal.
  destruct (ListCachedLibraries c fs) as [[libs |] [e |]]; try done.
  - destruct (pruneAll c opts now libs fs) as [fs1 r] eqn:E.
    injection H as <- <-.
    rewrite pruneAll_entries in E.
    destruct (pruneEntries_gone c opts now (latestVersionsOf opts libs)
                (entries libs) (fs, emptyResult) [] Hreal eq_refl (Forall_nil_2 _))
      as (removed & Hres & Hgone).
    rewrite E in Hres, Hgone. cbn [fst snd] in Hres, Hgone.
    exists removed. rewrite Hres. split; [done |]. split; [done |].
    intros lv maxAge now' Hin.
    apply (proj1 (Forall_forall _ _) Hgone) in Hin as (fs0 & n & Hstat & Hsub).
    unfold GetWithVersion.
    change (Path.join ?d ["metadata.json"]) with (d ++ ["metadata.json"]).
    by rewrite (miss_below_removed fs0 fs1 _ _ _ n Hstat Hsub).
  - injection H as <- <-. exists []. repeat split; try done.
    intros lv ? ? Hin. by apply elem_of_nil in Hin.
Qed.

End PruneEffects.

(** ** The cache commands *)

Section Commands.
Context `{RT : Runtime}.
Import CacheOps CacheAdmin.
Local Open Scope Z_scope.

(** *** formatSize *)

Lemma scaleLoop_spec : forall (fuel : nat) (n div : Z) (exp : nat),
  1 <= n < 1024 ^ (Z.of_nat fuel + 1) ->
  0 < div ->
  div * n < 2 ^ 63 ->
  exists k : nat,
    Cmd.scaleLoop fuel n div exp = Some (div * 1024 ^ Z.of_nat k, (exp + k)%nat) /\
    1024 ^ Z.of_nat k <= n < 1024 ^ (Z.of_nat k + 1).
Proof.
  induction fuel as [| fuel IH]; intros n div exp Hn Hdiv Hfit.
  - exists 0%nat. simpl in *. unfold Cmd.unit.
    destruct (Z.geb_spec n 1024); [lia |].
    rewrite Z.mul_1_r, Nat.add_0_r. split; [done | lia].
  - cbn [Cmd.scaleLoop]. unfold Cmd.unit.
    destruct (Z.geb_spec n 1024) as [Hge | Hlt].
    + rewrite Z.quot_div_nonneg by lia.
      assert (Hpow : 1024 ^ (Z.of_nat (S fuel) + 1) = 1024 * 1024 ^ (Z.of_nat fuel + 1)).
      { rewrite <- Z.pow_succ_r by lia. f_equal; lia. }
      assert (Hq : 1 <= n / 1024 < 1024 ^ (Z.of_nat fuel + 1)).
      { split.
        - apply Z.div_le_lower_bound; lia.
        - apply Z.div_lt_upper_bound; lia. }
      assert (Hmul : 1024 * (n / 1024) <= n) by (apply Z.mul_div_le; lia).
      rewrite wrap_small by nia.
      destruct (IH (n / 1024) (div * 1024) (S exp) Hq) as (k & Hk & Hbounds);
        [lia | nia |].
      exists (S k). rewrite Hk. split.
      * f_equal. f_equal; [| lia].
        rewrite Nat2Z.inj_succ, Z.pow_succ_r by lia. lia.
      * rewrite Nat2Z.inj_succ.
        assert (H1 : 1024 ^ Z.succ (Z.of_nat k) = 1024 * 1024 ^ Z.of_nat k)
          by (rewrite Z.pow_succ_r; lia).
        assert (H2 : 1024 ^ (Z.succ (Z.of_nat k) + 1)
                     = 1024 * 1024 ^ (Z.of_nat k + 1)).
        { rewrite <- Z.pow_succ_r by lia. f_equal; lia. }
        rewrite H1, H2.
        assert (Hmod : n < 1024 * (n / 1024) + 1024).
        { pose proof (Z.mod_pos_bound n 1024 ltac:(lia)).
          pose proof (Z.div_mod n 1024 ltac:(lia)). lia. }
        lia.
    + exists 0%nat. rewrite Z.mul_1_r, Nat.add_0_r. split; [done |].
      simpl. lia.
Qed.

(** X21: [formatSize] has a text for every int64.  Below 1024 it is
    the number of bytes.  From 1024 on the loop ends within its
    rounds with a divisor that is a power of 1024 and has not
    overflowed, the bytes lie between the divisor and 1024 times the
    divisor, and the index of the unit is within ["KMGTPE"]. *)
Theorem formatSize_in_range (bytes : Z) :
  - 2 ^ 63 <= bytes < 2 ^ 63 ->
  (bytes < 1024 -> Cmd.formatSize bytes = Some (Cmd.Bytes bytes)) /\
  (1024 <= bytes ->
   exists (exp : nat) (letter : ascii),
     Cmd.formatSize bytes = Some (Cmd.Scaled bytes (1024 ^ (Z.of_nat exp + 1)) letter) /\
     String.get exp "KMGTPE" = Some letter /\
     1024 ^ (Z.of_nat exp + 1) <= bytes < 1024 * 1024 ^ (Z.of_nat exp + 1)).
Proof.
  intros Hrange. unfold Cmd.formatSize, Cmd.unit. split.
  - intros Hlt. by destruct (Z.ltb_spec bytes 1024); [| lia].
  - intros Hge. destruct (Z.ltb_spec bytes 1024); [lia |].
    rewrite Z.quot_div_nonneg by lia.
    assert (Hmul : 1024 * (bytes / 1024) <= bytes) by (apply Z.mul_div_le; lia).
    assert (Hmod : bytes < 1024 * (bytes / 1024) + 1024).
    { pose proof (Z.mod_pos_bound bytes 1024 ltac:(lia)).
      pose proof (Z.div_mod bytes 1024 ltac:(lia)). lia. }
    destruct (scaleLoop_spec 7 (bytes / 1024) 1024 0) as (k & Hk & Hlo & Hhi).
    + split; [apply Z.div_le_lower_bound; lia |].
      apply Z.div_lt_upper_bound; [lia |]. change (1024 ^ (Z.of_nat 7 + 1)) with (2 ^ 80).
      lia.
    + lia.
    + lia.
    + rewrite Hk. cbn [Nat.add].
      assert (Hk5 : (k <= 5)%nat).
      { destruct (decide (k <= 5)%nat) as [| Hgt]; [done |].
        assert (1024 ^ 6 <= 1024 ^ Z.of_nat k) by (apply Z.pow_le_mono_r; lia).
        change (1024 ^ 6) with (2 ^ 60) in *. lia. }
      assert (Hdiv : 1024 * 1024 ^ Z.of_nat k = 1024 ^ (Z.of_nat k + 1)).
      { rewrite <- Z.pow_succ_r by lia. f_equal; lia. }
      rewrite Hdiv.
      assert (Hget : exists letter, String.get k "KMGTPE" = Some letter).
      { do 6 (destruct k as [| k]; [by eexists |]). lia. }
      destruct Hget as [letter Hget]. rewrite Hget.
      exists k, letter. split; [done |]. split; [done |].
      rewrite <- Hdiv.
      assert (1024 ^ (Z.of_nat k + 1) = 1024 * 1024 ^ Z.of_nat k) by lia.
      lia.
Qed.

(** *** cache prune *)

(** X22: the threshold of [cache prune] is the number of days as a
    duration, exactly, for up to 106751 days; from 106752 days on (up
    to 213503) the int64 product has wrapped around and the threshold
    is negative, so that every entry that was not fetched in the
    future is older than the threshold. *)
Theorem prune_threshold_in_days (days : Z) :
  (0 < days <= 106751 ->
   Cmd.pruneMaxAge days = days * 86400 * 10 ^ 9 /\ 0 < Cmd.pruneMaxAge days) /\
  (106751 < days <= 213503 ->
   Cmd.pruneMaxAge days < 0 /\
   forall now fetchedAt : GoTime.Time,
     fetchedAt <= now -> (GoTime.sub now fetchedAt >? Cmd.pruneMaxAge days) = true).
Proof.
  assert (Hage : forall (now fetchedAt : GoTime.Time) (d : Z),
             d < 0 -> fetchedAt <= now -> (GoTime.sub now fetchedAt >? d) = true).
  { intros now fetchedAt d Hd Hle.
    unfold GoTime.sub, GoTime.minDuration, GoTime.maxDuration.
    destruct (Z.ltb_spec (now - fetchedAt) (- 2 ^ 63)); [lia |].
    destruct (Z.ltb_spec (2 ^ 63 - 1) (now - fetchedAt)); lia. }
  unfold Cmd.pruneMaxAge, Cmd.hour.
  change (3600 * 10 ^ 9) with 3600000000000.
  change (10 ^ 9) with 1000000000.
  split; intros H.
  - rewrite (wrap_small (days * 24)) by lia. rewrite wrap_small by lia. lia.
  - rewrite (wrap_small (days * 24)) by lia.
    unfold Int64.wrap.
    change (2 ^ 63) with 9223372036854775808.
    change (2 ^ 64) with 18446744073709551616.
    pose proof (Z.mod_pos_bound (days * 24 * 3600000000000 + 9223372036854775808)
                  18446744073709551616 ltac:(lia)) as Hb.
    assert (Hm : (days * 24 * 3600000000000 + 9223372036854775808)
                 mod 18446744073709551616
                 = days * 24 * 3600000000000 + 9223372036854775808
                   - 18446744073709551616).
    { symmetry. apply Z.mod_unique_pos with (q := 1); lia. }
    assert (Hneg : (days * 24 * 3600000000000 + 9223372036854775808)
                   mod 18446744073709551616 - 9223372036854775808 < 0) by lia.
    split; [exact Hneg |]. intros now fetchedAt. by apply Hage.
Qed.

Lemma Prune_error_frame (c : Cache) (fs fs' : FS) (opts : PruneOptions)
    (now : GoTime.Time) (err : error) :
  Prune c fs opts now = (fs', inl err) -> fs' = fs.
Proof.
  unfold Prune.
  destruct (ListCachedLibraries c fs) as [[libs |] [e |]]; try by intros [= <-].
  by destruct (pruneAll c opts now libs fs).
Qed.

(** X23: [cache prune] removes nothing unless it is asked to and
    allowed to: whenever the command has changed the file system, the
    number of days was positive, the preview had found stale entries,
    [--dry-run] was not given, and [--force] was given or the
    question was answered with yes; and the command has run to its
    end. *)
Theorem prune_command_is_guarded (c : Cache) (fs : FS) (flags : Cmd.PruneFlags)
    (confirmed : bool) (now1 now2 : GoTime.Time) :
  (Cmd.handleCachePrune c fs flags confirmed now1 now2).1 <> fs ->
  0 < Cmd.pf_days flags /\
  Cmd.pf_dryRun flags = false /\
  (Cmd.pf_force flags = true \/ confirmed = true) /\
  exists preview result,
    (Cmd.handleCachePrune c fs flags confirmed now1 now2).2
      = Cmd.PruneDone preview result /\
    pr_RemovedCount preview <> 0.
Proof.
  unfold Cmd.handleCachePrune.
  destruct (Z.leb_spec (Cmd.pf_days flags) 0) as [| Hdays]; [done |].
  set (dry := {| po_MaxAge := Cmd.pruneMaxAge (Cmd.pf_days flags);
                 po_DryRun := true;
                 po_KeepLatest := Cmd.pf_keepLatest flags |}).
  pose proof (prune_dry_run_frame c fs dry now1) as Hframe.
  change (withDryRun dry true) with dry in Hframe.
  destruct (Prune c fs dry now1) as [fs1 [err | preview]]; simpl in Hframe; subst fs1;
    [done |].
  destruct (Z.eqb_spec (pr_RemovedCount preview) 0) as [| Hcount]; [done |].
  destruct (Cmd.pf_dryRun flags); [done |].
  destruct (Cmd.pf_force flags) eqn:Hforce, confirmed eqn:Hconfirmed; simpl;
    try done;
    (destruct (Prune c fs _ now2) as [fs2 [err | result]] eqn:E;
     [apply Prune_error_frame in E; by subst |];
     intros _; repeat split; try done; try (by left); try (by right);
     by exists preview, result).
Qed.

(** *** cache clear *)

(** X24: [cache clear] removes nothing unless it is asked to and
    allowed to: whenever the command has changed the file system,
    [--dry-run] was not given, [--force] was given or the question
    was answered with yes, and the walk of the libraries directory had
    met a metadata file; a cache that holds cached searches only is
    reported as empty and left as it is. *)
Theorem clear_command_is_guarded (c : Cache) (fs : FS) (flags : Cmd.ClearFlags)
    (confirmed : bool) (now : GoTime.Time) :
  (Cmd.handleCacheClear c fs flags confirmed now).1 <> fs ->
  Cmd.cf_dryRun flags = false /\
  (Cmd.cf_force flags = true \/ confirmed = true) /\
  metadataNodes c fs <> [].
Proof.
  unfold Cmd.handleCacheClear, GetStats. rewrite librariesDir_join.
  set (init := {| cs_TotalEntries := 0; cs_TotalSize := 0;
                  cs_OldestEntry := now; cs_NewestEntry := GoTime.zero;
                  cs_CacheDir := baseDir c |}).
  destruct (stats_scan fs (walked fs (librariesDir c)) init) as (Hcount & _).
  rewrite Hcount. cbn [cs_TotalEntries init]. fold (metadataNodes c fs).
  destruct (Z.eqb_spec (0 + Z.of_nat (length (metadataNodes c fs))) 0) as [| Hne];
    [done |].
  destruct (Cmd.cf_dryRun flags); [done |].
  assert (Hfiles : metadataNodes c fs <> []).
  { intros Hnil. rewrite Hnil in Hne. simpl in Hne. lia. }
  destruct (Cmd.cf_force flags), confirmed; simpl; try done; intros _;
    repeat split; try done; try (by left); by right.
Qed.

End Commands.

(** ** The search cache *)

Section SearchCache.
Context {Results : Type} `{SR : SearchRuntime Results}.
Import CacheOps CacheAdmin.

Lemma append_length (s t : string) :
  String.length (String.append s t) = String.length s + String.length t.
Proof. induction s as [| a s IH]; simpl; [done |]. by rewrite IH. Qed.

Lemma addSuffix_ne (p : path) (suffix : string) :
  suffix <> "" -> Path.addSuffix p suffix <> p.
Proof.
  intros Hs. unfold Path.addSuffix. destruct p as [| s p']; [done |].
  intros Heq.
  assert (Hne : s :: p' <> []) by done.
  rewrite (app_removelast_last "" Hne) in Heq at 3.
  apply app_inv_head in Heq. injection Heq as Heq.
  apply (f_equal String.length) in Heq. rewrite append_length in Heq.
  destruct suffix; [done |]. simpl in Heq. lia.
Qed.

Lemma ancestors_shorter (p q : path) : q ∈ Path.ancestors p -> length q < length p.
Proof.
  unfold Path.ancestors. intros (k & -> & Hk%elem_of_seq)%list_elem_of_fmap.
  rewrite length_take. lia.
Qed.

Lemma writeFile_inr (fs fs1 : FS) (p : path) (data : string) (now : GoTime.Time) :
  Os.writeFile fs p data now = inr fs1 ->
  fs1 = <[p := File data now]> fs /\
  p <> [] /\ Os.firstErr fs (Path.ancestors p) = None.
Proof.
  unfold Os.writeFile. destruct p as [| s p']; [done |].
  destruct (Os.firstErr fs _) as [e |]; [done |].
  destruct (fs !! (s :: p')) as [[data' t |] |]; try done; by intros [= <-].
Qed.

Lemma stat_written (fs : FS) (p : path) (n : node) :
  p <> [] -> Os.firstErr fs (Path.ancestors p) = None ->
  Os.stat (<[p := n]> fs) p = inr n.
Proof.
  intros Hp Hanc. destruct p as [| s p']; [done |]. unfold Os.stat.
  rewrite (firstErr_ext fs), Hanc, lookup_insert_eq; [done |].
  intros q Hq. apply lookup_insert_ne. intros <-.
  apply ancestors_shorter in Hq. lia.
Qed.

Lemma removeQuiet_lookup_ne (fs : FS) (p q : path) :
  q <> p -> removeQuiet fs p !! q = fs !! q.
Proof.
  intros Hne. unfold removeQuiet, Os.remove.
  destruct (Os.stat fs p) as [e | [data t |]]; try done.
  - by apply lookup_delete_ne.
  - destruct p as [| s p']; [done |].
    destruct (Os.children fs (s :: p')); [| done].
    by apply lookup_delete_ne.
Qed.

Lemma removeQuiet_file (fs : FS) (p : path) (data : string) (t : GoTime.Time) :
  Os.stat fs p = inr (File data t) -> removeQuiet fs p = delete p fs.
Proof. intros H. unfold removeQuiet, Os.remove. by rewrite H. Qed.

Lemma rename_file_inr (fs fs' : FS) (old new : path) (data : string) (t : GoTime.Time) :
  Os.stat fs old = inr (File data t) ->
  Os.rename fs old new = inr fs' ->
  fs' = <[new := File data t]> (delete old fs).
Proof.
  intros Hold. unfold Os.rename. rewrite Hold.
  destruct (Os.stat fs new) as [e | [d' t' |]]; try done;
    (destruct (Os.firstErr fs _); [done |]); by intros [= <-].
Qed.

(** X25: a search is cached in one step.  When [CacheSearchResults]
    fails, the file of the query is what it was before, be it the
    results cached earlier or nothing, and the temporary file is
    gone; when it succeeds, the file of the query holds the encoded
    document and no temporary file is left. *)
Theorem search_write_is_atomic (c : Cache) (fs : FS) (query : string)
    (results : Results) (now : GoTime.Time) :
  let out := CacheSearchResults c fs query results now in
  match out.2 with
  | Some (CreateSearchFileFailed _) => out.1 = fs
  | Some _ =>
      out.1 !! searchPath c query = fs !! searchPath c query /\
      out.1 !! tmpSearchPath c query = None
  | None =>
      exists bytes,
        jsonEncodeSearch query now results = Some bytes /\
        out.1 !! searchPath c query = Some (File bytes now) /\
        out.1 !! tmpSearchPath c query = None
  end.
Proof.
  cbv zeta. unfold CacheSearchResults. rewrite searchesDir_join.
  fold (searchPath c query). fold (tmpSearchPath c query).
  assert (Hne : tmpSearchPath c query <> searchPath c query)
    by by apply addSuffix_ne.
  destruct (Os.writeFile fs _ "" now) as [e | fs1] eqn:E1; [done |].
  apply writeFile_inr in E1 as (-> & Hp & Hanc).
  destruct (jsonEncodeSearch query now results) as [bytes |]; cbn [fst snd].
  - rewrite insert_insert_eq.
    pose proof (stat_written fs _ (File bytes now) Hp Hanc) as Hstat.
    destruct (Os.rename _ _ _) as [e | fs3] eqn:E3; cbn [fst snd].
    + rewrite (removeQuiet_file _ _ _ _ Hstat).
      rewrite lookup_delete_ne, lookup_insert_ne, lookup_delete_eq by done. done.
    + apply (rename_file_inr _ _ _ _ _ _ Hstat) in E3 as ->.
      exists bytes. split; [done |].
      rewrite lookup_insert_eq, lookup_insert_ne, lookup_delete_eq by done. done.
  - pose proof (stat_written fs _ (File "" now) Hp Hanc) as Hstat.
    rewrite (removeQuiet_file _ _ _ _ Hstat).
    rewrite lookup_delete_ne, lookup_insert_ne, lookup_delete_eq by done. done.
Qed.

End SearchCache.

(** ** The further properties at work on the cache of the examples *)

Section MoreExamples.
Import CacheOps CacheAdmin Demo DemoAdmin.
Local Open Scope Z_scope.

Lemma validName_acme : validName "acme".
Proof. by repeat split. Qed.

Lemma validName_widgets : validName "widgets".
Proof. by repeat split. Qed.

Lemma validName_v1 : validName "1.0".
Proof. by repeat split. Qed.

Lemma validName_v2 : validName "2.0".
Proof. by repeat split. Qed.

Lemma wellFormed_twoVersions : wellFormed twoVersions.
Proof.
  apply wellFormedNodes_wellFormed. apply (bool_decide_unpack _).
  vm_compute. reflexivity.
Qed.

Lemma wellFormed_twoLibraries : wellFormed twoLibraries.
Proof.
  apply wellFormedNodes_wellFormed. apply (bool_decide_unpack _).
  vm_compute. reflexivity.
Qed.

Lemma twoVersions_all_catalogued :
  forall kn, kn ∈ Os.walkList twoVersions (librariesDir c) ->
             isMetadataFile kn = true ->
             catalogued twoVersions (librariesDir c) kn.
Proof.
  apply (proj1 (Forall_forall
                  (fun kn => isMetadataFile kn = true ->
                             catalogued twoVersions (librariesDir c) kn) _)).
  set (visited := Os.walkList twoVersions (librariesDir c)).
  vm_compute in visited. subst visited.
  repeat apply Forall_cons_2; try apply Forall_nil_2;
    intros Hm; try discriminate Hm.
  - split; [| simpl; lia]. exists "40 days ago", fetched40DaysAgo.
    split; vm_compute; reflexivity.
  - split; [| simpl; lia]. exists "yesterday", fetchedYesterday.
    split; vm_compute; reflexivity.
Qed.

(** *** A new cache *)

(** [NewCache_creates_directories] on the cache of the examples. *)
Lemma NewCache_creates_directories_example :
  Os.stat fresh (baseDir c ++ ["libraries"]) = inr Dir /\
  Os.stat fresh (baseDir c ++ ["searches"]) = inr Dir.
Proof.
  assert (H : NewCache ∅ (baseDir c) = (fresh, inr c))
    by (apply with_result; vm_compute; reflexivity).
  destruct (NewCache_creates_directories ∅ fresh (baseDir c) c H)
    as (_ & _ & HL & HS & _).
  split; [exact HL | exact HS].
Defined.

(** [NewCache_idempotent] on the cache of the examples. *)
Lemma NewCache_idempotent_example : NewCache fresh (baseDir c) = (fresh, inr c).
Proof.
  apply (NewCache_idempotent ∅ fresh (baseDir c) c).
  apply with_result. vm_compute. reflexivity.
Defined.

(** *** Removal *)

(** [removal_checks_come_first]: the removal of a version that the
    cache does not hold, and of a library named by a single word. *)
Lemma removal_checks_come_first_example :
  (RemoveLibraryVersion c twoVersions "/acme/widgets" "3.0").2
    = Some (VersionNotFound "acme/widgets" "3.0") /\
  (RemoveLibraryVersion c twoVersions "/acme/widgets" "3.0").1 = twoVersions /\
  (RemoveLibrary c twoVersions "acme").2 = Some (InvalidLibraryID "acme") /\
  (RemoveLibrary c twoVersions "acme").1 = twoVersions.
Proof.
  assert (HV : (RemoveLibraryVersion c twoVersions "/acme/widgets" "3.0").2
               = Some (VersionNotFound "acme/widgets" "3.0"))
    by (vm_compute; reflexivity).
  assert (HL : (RemoveLibrary c twoVersions "acme").2 = Some (InvalidLibraryID "acme"))
    by (vm_compute; reflexivity).
  split; [exact HV |]. split; [| split; [exact HL |]].
  - destruct (proj1 (proj2 (removal_checks_come_first c twoVersions
                              "/acme/widgets" "3.0"))
                    _ _ (with_result _ _ HV))
      as [(_ & _ & H) | (errno & _ & H)]; [exact H | discriminate H].
  - destruct (proj1 (removal_checks_come_first c twoVersions "acme" "")
                    _ _ (with_result _ _ HL))
      as [(_ & _ & H) | [(_ & _ & H) | (org & library & rest & errno & _ & _ & H)]];
      [exact H | exact H | discriminate H].
Defined.

(** [removed_version_misses]: version 1.0 after its removal. *)
Lemma removed_version_misses_example :
  GetWithVersion c withoutOld "/acme/widgets" "1.0" (100 * day) now
    = inl (CacheMiss ENOENT).
Proof.
  apply (removed_version_misses c twoVersions withoutOld "/acme/widgets" "1.0").
  apply with_result. vm_compute. reflexivity.
Defined.

(** [removed_library_misses]: version 2.0 after the removal of the
    library. *)
Lemma removed_library_misses_example :
  GetWithVersion c withoutWidgets (idOf "acme" "widgets") "2.0" (100 * day) now
    = inl (CacheMiss ENOENT).
Proof.
  apply (removed_library_misses c twoLibraries withoutWidgets "acme" "widgets" "2.0"
           (100 * day) now validName_acme validName_widgets (or_intror validName_v2)).
  apply with_result. vm_compute. reflexivity.
Defined.

(** [ForceUpdate_forces_miss]: version 2.0 after its invalidation. *)
Lemma ForceUpdate_forces_miss_example :
  GetWithVersion c withoutNew (idOf "acme" "widgets") "2.0" (100 * day) now
    = inl (CacheMiss ENOENT).
Proof.
  apply (ForceUpdate_forces_miss c twoVersions withoutNew "acme" "widgets" "2.0"
           (100 * day) now validName_acme validName_widgets (or_intror validName_v2)).
  apply with_result. vm_compute. reflexivity.
Defined.

(** [other_entries_survive_removal]: version 2.0 after the removal of
    version 1.0. *)
Lemma other_entries_survive_removal_example :
  GetWithVersion c withoutOld (idOf "acme" "widgets") "2.0" (100 * day) now
    = inr {| ce_Metadata := fetchedYesterday; ce_Content := "new text" |}.
Proof.
  apply (other_entries_survive_removal c twoVersions withoutOld
           "acme" "widgets" "1.0" "acme" "widgets" "2.0" (100 * day) now _
           validName_acme validName_widgets validName_v1
           validName_acme validName_widgets validName_v2).
  - discriminate.
  - apply with_result. vm_compute. reflexivity.
  - vm_compute. reflexivity.
Defined.

(** [removed_library_not_listed]: the catalog after the removal of
    acme/widgets. *)
Lemma removed_library_not_listed_example :
  idOf "acme" "widgets" ∉ map cl_LibraryID catalogWithoutWidgets.
Proof.
  apply (removed_library_not_listed c twoLibraries withoutWidgets "acme" "widgets"
           catalogWithoutWidgets wellFormed_twoLibraries
           validName_acme validName_widgets).
  - apply with_result. vm_compute. reflexivity.
  - vm_compute. reflexivity.
Defined.

(** [remove_library_invalid_only] on the identifier of one segment. *)
Lemma remove_library_invalid_only_example :
  (length (Str.splitSlash (Str.trimPrefixSlash "acme")) < 2)%nat.
Proof.
  apply (remove_library_invalid_only c twoVersions "acme" "acme").
  vm_compute. reflexivity.
Defined.

(** *** Clearing *)

(** [Clear_empties_cache] on the cache with its two versions. *)
Lemma Clear_empties_cache_example :
  ListCachedLibraries c cleared = (Some [], None) /\
  GetDetailedStats c cleared now = inr (emptyDetailedStats c now).
Proof.
  assert (H : Clear c twoVersions = (cleared, None))
    by (apply with_result; vm_compute; reflexivity).
  destruct (Clear_empties_cache c twoVersions cleared now wellFormed_twoVersions H)
    as (H1 & H2 & _).
  split; [exact H1 | exact H2].
Defined.

(** [Clear_keeps_the_rest]: the home directory after the clearing. *)
Lemma Clear_keeps_the_rest_example : cleared !! ["home"] = Some Dir.
Proof.
  apply (Clear_keeps_the_rest c twoVersions cleared None ["home"] Dir).
  - apply with_result. vm_compute. reflexivity.
  - vm_compute. reflexivity.
  - intros H%isPrefix_spec. vm_compute in H. discriminate.
  - intros H%isPrefix_spec. vm_compute in H. discriminate.
Defined.

(** *** The catalog *)

Lemma catalog_twoLibraries :
  ListCachedLibraries c twoLibraries = (Some catalogOfTwoLibraries, None).
Proof. vm_compute. reflexivity. Qed.

Lemma widgets_listed : widgets ∈ catalogOfTwoLibraries.
Proof. vm_compute. left. Qed.

(** [catalog_sorted_by_id] on the cache with two libraries. *)
Lemma catalog_sorted_by_id_example :
  map cl_LibraryID catalogOfTwoLibraries = ["/acme/widgets"; "/zeta/tools"] /\
  StronglySorted (fun a b => Str.ltb (cl_LibraryID a) (cl_LibraryID b) = true)
                 catalogOfTwoLibraries.
Proof.
  split; [vm_compute; reflexivity |].
  exact (catalog_sorted_by_id c twoLibraries catalogOfTwoLibraries catalog_twoLibraries).
Defined.

(** [default_version_first] on acme/widgets with its three versions. *)
Lemma default_version_first_example :
  map vi_Version (cl_Versions widgets) = ["default"; "1.0"; "2.0"] /\
  StronglySorted versionOrder (cl_Versions widgets).
Proof.
  split; [vm_compute; reflexivity |].
  apply (default_version_first c twoLibraries catalogOfTwoLibraries widgets
           catalog_twoLibraries widgets_listed).
  vm_compute. lia.
Defined.

(** [catalog_entry_shape] on acme/widgets. *)
Lemma catalog_entry_shape_example :
  cl_LibraryID widgets = idOf (cl_Organization widgets) (cl_Name widgets) /\
  cl_Versions widgets <> [] /\
  Forall versionRecorded (cl_Versions widgets).
Proof.
  exact (catalog_entry_shape c twoLibraries catalogOfTwoLibraries widgets
           catalog_twoLibraries widgets_listed).
Defined.

(** [listed_library_can_be_removed] on acme/widgets. *)
Lemma listed_library_can_be_removed_example :
  exists fs', RemoveLibrary c twoLibraries (cl_LibraryID widgets) = (fs', None).
Proof.
  exact (listed_library_can_be_removed c twoLibraries catalogOfTwoLibraries widgets
           wellFormed_twoLibraries catalog_twoLibraries widgets_listed).
Defined.

(** *** The detailed statistics *)

(** [detailed_stats_report] on the cache with two libraries: the
    rows come largest first. *)
Lemma detailed_stats_report_example :
  rows detailedOfTwoLibraries = [("/acme/widgets", 3, 49); ("/zeta/tools", 1, 20)] /\
  exists libs,
    ListCachedLibraries c twoLibraries = (Some libs, None) /\
    GetStats c twoLibraries now = inr (dcs_CacheStats detailedOfTwoLibraries) /\
    dcs_LibraryBreakdown detailedOfTwoLibraries ≡ₚ map rowOf libs /\
    StronglySorted (fun a b => ls_TotalSize b <= ls_TotalSize a)
                   (dcs_LibraryBreakdown detailedOfTwoLibraries) /\
    dcs_SearchCacheEntries detailedOfTwoLibraries
      = Z.of_nat (length (searchFiles c twoLibraries)) /\
    dcs_SearchCacheSize detailedOfTwoLibraries
      = Int64.wrap (sumZ (map (fun kn : path * node => infoSize kn.2)
                              (searchFiles c twoLibraries))).
Proof.
  split; [vm_compute; reflexivity |].
  apply (detailed_stats_report c twoLibraries now detailedOfTwoLibraries).
  vm_compute. reflexivity.
Defined.

(** [detailed_stats_add_up] on the cache with its two versions. *)
Lemma detailed_stats_add_up_example :
  cs_TotalEntries (dcs_CacheStats detailedOfTwoVersions)
    = sumZ (map ls_VersionCount (dcs_LibraryBreakdown detailedOfTwoVersions)) /\
  cs_TotalSize (dcs_CacheStats detailedOfTwoVersions)
    = Int64.wrap (sumZ (map ls_TotalSize (dcs_LibraryBreakdown detailedOfTwoVersions))).
Proof.
  apply (detailed_stats_add_up c twoVersions now detailedOfTwoVersions).
  - vm_compute. reflexivity.
  - exact twoVersions_all_catalogued.
Defined.

(** *** Pruning *)

(** [pruned_entries_are_gone] on the real prune of the two versions. *)
Lemma pruned_entries_are_gone_example :
  exists removed,
    pr_RemovedItems pruned = map (fun lv => itemName lv.1 lv.2) removed /\
    pr_RemovedCount pruned = Z.of_nat (length removed) /\
    forall lv maxAge now',
      lv ∈ removed ->
      GetWithVersion c afterPrune (cl_LibraryID lv.1) (vi_Version lv.2) maxAge now'
        = inl (CacheMiss ENOENT).
Proof.
  apply (pruned_entries_are_gone c twoVersions afterPrune (prune false false) now pruned).
  - apply with_result. vm_compute. reflexivity.
  - reflexivity.
Defined.

(** [keep_latest_protects] on the prune that keeps the latest version. *)
Lemma keep_latest_protects_example :
  exists libs removed,
    ListCachedLibraries c twoVersions = (Some libs, None) /\
    removed `sublist_of`
      List.filter (selected (prune false true) now
                            (latestVersionsOf (prune false true) libs))
                  (entries libs) /\
    (po_DryRun (prune false true) = true ->
     removed = List.filter (selected (prune false true) now
                                     (latestVersionsOf (prune false true) libs))
                           (entries libs)) /\
    pruned = resultOf removed /\
    forall lib v,
      lib ∈ libs -> v ∈ cl_Versions lib -> vi_Version v <> "" ->
      GoTime.zero < vi_FetchedAt v ->
      (forall w, w ∈ cl_Versions lib -> w <> v -> vi_FetchedAt w < vi_FetchedAt v) ->
      (lib, v) ∈ entries libs /\
      selected (prune false true) now (latestVersionsOf (prune false true) libs) (lib, v)
        = false /\
      (lib, v) ∉ removed.
Proof.
  apply (keep_latest_protects c twoVersions afterPruneKeepingLatest
           (prune false true) now pruned).
  - apply with_result. vm_compute. reflexivity.
  - reflexivity.
Defined.

(** *** The commands *)

(** [formatSize_in_range] on a kibibyte and a half. *)
Lemma formatSize_in_range_example :
  Cmd.formatSize 1536 = Some (Cmd.Scaled 1536 1024 "K").
Proof.
  destruct (formatSize_in_range 1536 ltac:(lia)) as [_ H].
  destruct (H ltac:(lia)) as (exp & letter & Hf & _).
  vm_compute. reflexivity.
Defined.

(** [prune_command_is_guarded] on [cache prune --days 30 --force]. *)
Lemma prune_command_is_guarded_example :
  exists preview result,
    (Cmd.handleCachePrune c twoVersions pruneNow false now now).2
      = Cmd.PruneDone preview result /\
    pr_RemovedCount preview <> 0.
Proof.
  apply (prune_command_is_guarded c twoVersions pruneNow false now now).
  intros H.
  apply (f_equal (fun fs : FS => fs !! metadataPath c "/acme/widgets" "1.0")) in H.
  vm_compute in H. discriminate H.
Defined.

(** [clear_command_is_guarded] on [cache clear --force]. *)
Lemma clear_command_is_guarded_example : metadataNodes c twoVersions <> [].
Proof.
  apply (clear_command_is_guarded c twoVersions clearNow false now).
  intros H.
  apply (f_equal (fun fs : FS => fs !! metadataPath c "/acme/widgets" "1.0")) in H.
  vm_compute in H. discriminate H.
Defined.

End MoreExamples.
